(** * YOLO-SSR: the multi-task validation engine and the multi-task predictor

  A shallow embedding of
    - [ultralytics/yolo/engine/validator.py]  (class [BaseValidator])
    - [ultralytics/yolo/v8/DecSeg/predict.py] (class [MultiPredictor])

  Python exceptions are an explicit error result, [self] attributes that a
  block reads or writes are passed explicitly, Python dictionaries are
  association lists in insertion order, and Python floats are idealised as
  exact rationals. *)

From Stdlib Require Import List String Ascii Bool Arith ZArith.
From Stdlib Require Import QArith Qround Qabs Qminmax Qfield Lia Lqa.
Import ListNotations.

Set Implicit Arguments.

(* ================================================================== *)
(** ** A small model of the Python run-time the code relies on *)
(* ================================================================== *)

Module Py.

(** The exceptions the modelled code can raise. *)
Inductive exn : Type :=
| NotImplementedError (msg : string)
| IndexError
| KeyError (key : string)
| ZeroDivisionError
| TypeError
| ValueError
| RuntimeError.

Inductive result (A : Type) : Type :=
| Ok (a : A)
| Raise (e : exn).
Arguments Ok {A} a.
Arguments Raise {A} e.

Definition bind {A B} (m : result A) (k : A -> result B) : result B :=
  match m with
  | Ok a => k a
  | Raise e => Raise e
  end.

Definition is_ok {A} (m : result A) : bool :=
  match m with Ok _ => true | Raise _ => false end.

(** [try: body except: handler] with a bare [except]. *)
Definition try_except {A} (body : result A) (handler : result A) : result A :=
  match body with
  | Ok a => Ok a
  | Raise _ => handler
  end.

(** [sub in s] on Python strings: [sub] occurs in [s] as a substring. *)
Fixpoint str_in (sub s : string) : bool :=
  if String.prefix sub s then true
  else match s with
       | EmptyString => false
       | String _ rest => str_in sub rest
       end.

(** [l[i]] for a non-negative index. *)
Definition getitem {A} (l : list A) (i : nat) : result A :=
  match nth_error l i with
  | Some a => Ok a
  | None => Raise IndexError
  end.

(** [enumerate(l)], counting from [start]. *)
Fixpoint enumerate_from {A} (start : nat) (l : list A) : list (nat * A) :=
  match l with
  | [] => []
  | a :: rest => (start, a) :: enumerate_from (S start) rest
  end.

Definition enumerate {A} (l : list A) : list (nat * A) := enumerate_from 0 l.

(** Dictionaries with string keys, in insertion order. *)
Definition dict (V : Type) : Type := list (string * V).

Fixpoint dict_get {V} (d : dict V) (k : string) : option V :=
  match d with
  | [] => None
  | (k', v) :: rest => if String.eqb k' k then Some v else dict_get rest k
  end.

(** [d[k] = v]: an existing key keeps its position, a new key goes last. *)
Fixpoint dict_set {V} (d : dict V) (k : string) (v : V) : dict V :=
  match d with
  | [] => [(k, v)]
  | (k', v') :: rest =>
      if String.eqb k' k then (k', v) :: rest else (k', v') :: dict_set rest k v
  end.

(** [d[k]], raising [KeyError] on a missing key. *)
Definition dict_getitem {V} (d : dict V) (k : string) : result V :=
  match dict_get d k with
  | Some v => Ok v
  | None => Raise (KeyError k)
  end.

(** [dict(items)] and the dictionary comprehension: later items win. *)
Definition dict_of_items {V} (items : list (string * V)) : dict V :=
  fold_left (fun d kv => dict_set d (fst kv) (snd kv)) items [].

(** [{**a, **b}] *)
Definition dict_merge {V} (a b : dict V) : dict V :=
  fold_left (fun d kv => dict_set d (fst kv) (snd kv)) b
            (fold_left (fun d kv => dict_set d (fst kv) (snd kv)) a []).

Definition dict_keys {V} (d : dict V) : list string := map fst d.
Definition dict_values {V} (d : dict V) : list V := map snd d.

End Py.

Import Py.

Declare Scope py_scope.
Delimit Scope py_scope with py.
Notation "x <- m ;; k" := (bind m (fun x => k))
(at level 61, m at next level, right associativity) : py_scope.
Open Scope string_scope.
Open Scope list_scope.
Open Scope py_scope.

(** The two task kinds the engine recognises, by substring of the task name. *)
Definition is_det (name : string) : bool := str_in "det" name.
Definition is_seg (name : string) : bool := str_in "seg" name.

(* ================================================================== *)
(** ** [BaseValidator.__call__]: per-batch multi-task dispatch *)
(* ================================================================== *)

Section Dispatch.

(** Raw model outputs, post-processed predictions, per-task batches and the
    metric state the update hooks mutate. *)
Variables Raw Pred Batch Metrics : Type.

(** Hooks supplied by the multi-task validator subclass. *)
Variable postprocess_det : Raw -> result Pred.
Variable postprocess_seg : Raw -> nat -> result Pred.
Variable update_metrics_det : Pred -> Batch -> string -> Metrics -> result Metrics.
Variable update_metrics_seg : Pred -> Batch -> string -> Metrics -> result Metrics.

(** The body of [for i, preds in enumerate(preds_list)] (lines 257-263):
    the accumulator is [preds_list_post]. *)
Definition postprocess_step (labels_list : list string)
           (preds_list_post : list Pred) (ip : nat * Raw) : result (list Pred) :=
  let (i, preds) := ip in
  name <- getitem labels_list i ;;
  if is_det name then
    p <- postprocess_det preds ;;
    Ok (preds_list_post ++ [p])
  else if is_seg name then
    p <- postprocess_seg preds i ;;
    Ok (preds_list_post ++ [p])
  else Ok preds_list_post.

Fixpoint postprocess_loop (labels_list : list string)
         (preds_list_post : list Pred) (todo : list (nat * Raw)) : result (list Pred) :=
  match todo with
  | [] => Ok preds_list_post
  | ip :: rest =>
      acc <- postprocess_step labels_list preds_list_post ip ;;
      postprocess_loop labels_list acc rest
  end.

Definition postprocess_multi (labels_list : list string) (preds_list : list Raw)
  : result (list Pred) :=
  postprocess_loop labels_list [] (enumerate preds_list).

(** The body of [for i, label_name in enumerate(labels_list)] (lines 268-272). *)
Definition update_step (preds_list_post : list Pred) (batch : list Batch)
           (m : Metrics) (il : nat * string) : result Metrics :=
  let (i, label_name) := il in
  if is_det label_name then
    p <- getitem preds_list_post i ;;
    b <- getitem batch i ;;
    update_metrics_det p b label_name m
  else if is_seg label_name then
    p <- getitem preds_list_post i ;;
    b <- getitem batch i ;;
    update_metrics_seg p b label_name m
  else Ok m.

Fixpoint update_loop (preds_list_post : list Pred) (batch : list Batch)
         (m : Metrics) (todo : list (nat * string)) : result Metrics :=
  match todo with
  | [] => Ok m
  | il :: rest =>
      m' <- update_step preds_list_post batch m il ;;
      update_loop preds_list_post batch m' rest
  end.

Definition update_metrics_multi (labels_list : list string)
           (preds_list_post : list Pred) (batch : list Batch) (m : Metrics)
  : result Metrics :=
  update_loop preds_list_post batch m (enumerate labels_list).

(** Post-processing followed by the metric update, for one batch. *)
Definition dispatch_batch (labels_list : list string) (preds_list : list Raw)
           (batch : list Batch) (m : Metrics) : result (list Pred * Metrics) :=
  post <- postprocess_multi labels_list preds_list ;;
  m' <- update_metrics_multi labels_list post batch m ;;
  Ok (post, m').

End Dispatch.

(* ================================================================== *)
(** ** [BaseValidator.__call__]: the segmentation structures (lines 116-120, 157-158) *)
(* ================================================================== *)

(** [SegmentationMetric(numClass)] comes from the metrics module; the
    validator only constructs it, so the object is its constructor argument. *)
Record SegmentationMetric : Type := { numClass : Z }.

(** [AverageMeter] comes from the metrics module; the validator only reads its
    [avg] attribute. *)
Record AverageMeter : Type := { avg : Q }.

(** Modelled from the spec: [AverageMeter()], the running mean of section 3
    ("RunningStat"), created fresh with nothing accumulated. *)
Definition AverageMeter_new : AverageMeter := {| avg := 0 |}.

(** The items of the comprehension
    [{name: SegmentationMetric(nc_list[count] + 1)
      for count, name in enumerate(labels_list) if 'seg' in name}],
    in iteration order. *)
Fixpoint seg_metrics_items (nc_list : list Z) (todo : list (nat * string))
  : result (list (string * SegmentationMetric)) :=
  match todo with
  | [] => Ok []
  | (count, name) :: rest =>
      if is_seg name then
        nc <- getitem nc_list count ;;
        items <- seg_metrics_items nc_list rest ;;
        Ok ((name, {| numClass := nc + 1 |}) :: items)
      else seg_metrics_items nc_list rest
  end.

Definition init_seg_metrics (nc_list : list Z) (labels_list : list string)
  : result (dict SegmentationMetric) :=
  items <- seg_metrics_items nc_list (enumerate labels_list) ;;
  Ok (dict_of_items items).

(** The four running means of one segmentation task, in insertion order. *)
Definition seg_result_entry : dict AverageMeter :=
  [("pixacc", AverageMeter_new); ("subacc", AverageMeter_new);
   ("IoU", AverageMeter_new); ("mIoU", AverageMeter_new)].

Definition init_seg_result (labels_list : list string) : dict (dict AverageMeter) :=
  dict_of_items
    (map (fun cn : nat * string => (snd cn, seg_result_entry))
         (filter (fun cn : nat * string => is_seg (snd cn)) (enumerate labels_list))).

(* ================================================================== *)
(** ** [BaseValidator]: the default hooks (lines 350-364) *)
(* ================================================================== *)

Section Hooks.

Variables DatasetPath Dataset Dataloader BatchT PredsT : Type.

Definition BaseValidator_get_dataloader (dataset_path : DatasetPath) (batch_size : Z)
  : result Dataloader :=
  Raise (NotImplementedError "get_dataloader function not implemented for this validator").

Definition BaseValidator_build_dataset (img_path : DatasetPath) : result Dataset :=
  Raise (NotImplementedError "build_dataset function not implemented in validator").

Definition BaseValidator_preprocess (batch : BatchT) : result BatchT := Ok batch.

Definition BaseValidator_postprocess (preds : PredsT) : result PredsT := Ok preds.

(** A task plugin is a subclass of [BaseValidator]: it may override each hook
    ([Some]) or inherit the base method ([None]). *)
Record Plugin : Type := {
  plugin_get_dataloader : option (DatasetPath -> Z -> result Dataloader);
  plugin_build_dataset : option (DatasetPath -> result Dataset);
  plugin_preprocess : option (BatchT -> result BatchT);
  plugin_postprocess : option (PredsT -> result PredsT)
}.

(** Method resolution: the subclass method when there is one, else the base. *)
Definition resolve {F : Type} (override : option F) (base : F) : F :=
  match override with
  | Some f => f
  | None => base
  end.

Definition get_dataloader (self : Plugin) : DatasetPath -> Z -> result Dataloader :=
  resolve (plugin_get_dataloader self) BaseValidator_get_dataloader.

Definition build_dataset (self : Plugin) : DatasetPath -> result Dataset :=
  resolve (plugin_build_dataset self) BaseValidator_build_dataset.

Definition preprocess (self : Plugin) : BatchT -> result BatchT :=
  resolve (plugin_preprocess self) BaseValidator_preprocess.

Definition postprocess (self : Plugin) : PredsT -> result PredsT :=
  resolve (plugin_postprocess self) BaseValidator_postprocess.

(** A plugin that supplies none of the hooks. *)
Definition bare_plugin : Plugin :=
  {| plugin_get_dataloader := None; plugin_build_dataset := None;
     plugin_preprocess := None; plugin_postprocess := None |}.

End Hooks.

(* ================================================================== *)
(** ** [BaseValidator.__call__]: stage timers (lines 169, 285-294) *)
(* ================================================================== *)

(** [ops.Profile]: the validator reads only the accumulated seconds [t]. *)
Record Profile : Type := { t : Q }.

(** Float division: a zero divisor raises. *)
Definition py_div (a b : Q) : result Q :=
  if Qeq_bool b 0 then Raise ZeroDivisionError else Ok (a / b).

Definition len_Q {A} (l : list A) : Q := inject_Z (Z.of_nat (List.length l)).

(** [iter(f(x) for x in xs)] consumed to the end. *)
Fixpoint map_result {A B} (f : A -> result B) (xs : list A) : result (list B) :=
  match xs with
  | [] => Ok []
  | x :: rest =>
      y <- f x ;;
      ys <- map_result f rest ;;
      Ok (y :: ys)
  end.

(** [self.speed] as [__init__] leaves it (line 77). *)
Definition speed_init : dict Q :=
  [("preprocess", 0); ("inference", 0); ("loss", 0); ("postprocess", 0)].

Definition Profiles : Type := (Profile * Profile * Profile * Profile)%type.

Definition profiles_list (dt : Profiles) : list Profile :=
  let '(d0, d1, d2, d3) := dt in [d0; d1; d2; d3].

(** [dict(zip(keys, values))] *)
Definition dict_zip {V} (keys : list string) (values : list V) : dict V :=
  dict_of_items (combine keys values).

(** Line 288: [x.t / len(dataset) * 1E3 / len(labels_list)]. *)
Definition normalize_multi (n_dataset n_tasks : Q) (x : Profile) : result Q :=
  per_image <- py_div (t x) n_dataset ;;
  py_div (per_image * 1000) n_tasks.

(** Line 294: [x.t / len(dataset) * 1E3]. *)
Definition normalize_single (n_dataset : Q) (x : Profile) : result Q :=
  per_image <- py_div (t x) n_dataset ;;
  Ok (per_image * 1000).

Definition speed_multi (speed : dict Q) (dt : Profiles) (n_dataset : nat)
           (labels_list : list string) : result (dict Q) :=
  values <- map_result (normalize_multi (inject_Z (Z.of_nat n_dataset)) (len_Q labels_list))
                       (profiles_list dt) ;;
  Ok (dict_zip (dict_keys speed) values).

Definition speed_single (speed : dict Q) (dt : Profiles) (n_dataset : nat)
  : result (dict Q) :=
  values <- map_result (normalize_single (inject_Z (Z.of_nat n_dataset)))
                       (profiles_list dt) ;;
  Ok (dict_zip (dict_keys speed) values).

(** Lines 285-296: the task mode selects the normalisation. *)
Definition finalize_speed (multi : bool) (speed : dict Q) (dt : Profiles)
           (n_dataset : nat) (labels_list : list string) : result (dict Q) :=
  if multi then speed_multi speed dt n_dataset labels_list
  else speed_single speed dt n_dataset.

(* ================================================================== *)
(** ** [BaseValidator.__call__]: what nested (training) mode returns
       (lines 299-312 and 325-328) *)
(* ================================================================== *)

(** A Python value met where a number is expected. *)
Inductive value : Type :=
| VFloat (q : Q)
| VOther.

(** [float(v)] *)
Definition py_float (v : value) : result Q :=
  match v with
  | VFloat q => Ok q
  | VOther => Raise TypeError
  end.

(** What [get_stats] hands back for one task. *)
Inductive pyobj : Type :=
| Mapping (d : dict value)
| NotMapping.

(** [**o] inside a dictionary display. *)
Definition unpack_mapping (o : pyobj) : result (dict value) :=
  match o with
  | Mapping d => Ok d
  | NotMapping => Raise TypeError
  end.

Definition pow10 (n : nat) : Q := inject_Z (10 ^ Z.of_nat n).

(** Nearest integer, ties to even. *)
Definition round_half_even (q : Q) : Z :=
  let f := Qfloor q in
  match Qcompare (q - inject_Z f) (1 # 2) with
  | Lt => f
  | Gt => (f + 1)%Z
  | Eq => if Z.even f then f else (f + 1)%Z
  end.

(** [round(x, ndigits)] on a float, over the rationals. *)
Definition py_round (x : Q) (ndigits : nat) : Q :=
  inject_Z (round_half_even (x * pow10 ndigits)) / pow10 ndigits.

(** [{k: round(float(v), 5) for k, v in results.items()}] *)
Definition round_items (results : dict value) : result (dict Q) :=
  items <- map_result (fun kv : string * value =>
                         x <- py_float (snd kv) ;;
                         Ok (fst kv, py_round x 5)) results ;;
  Ok (dict_of_items items).

Section Finalize.

(** Loss tensors and the trainer's methods. *)
Variable LossT : Type.
Variable tensor_div : LossT -> nat -> LossT.
Variable label_loss_items_val : LossT -> string -> string -> result (dict value).
Variable label_loss_items : LossT -> string -> result (dict value).

(** The [try] suite of lines 305-306, up to the dictionary it would append. *)
Definition merge_task (stats : list pyobj) (loss : list LossT) (n_batches : nat)
           (i : nat) (label_name : string) : result (dict Q) :=
  s <- getitem stats i ;;
  sd <- unpack_mapping s ;;
  l <- getitem loss i ;;
  items <- label_loss_items_val (tensor_div l n_batches) "val" label_name ;;
  round_items (dict_merge sd items).

(** The [except] suite of lines 308-311, up to the dictionary it appends. *)
Definition fitness_fallback (seg_result : dict (dict AverageMeter))
           (label_name : string) : result (dict Q) :=
  entry <- dict_getitem seg_result label_name ;;
  let key_values := map (fun kv : string * AverageMeter => (fst kv, avg (snd kv))) entry in
  kv2 <- getitem key_values 2 ;;
  kv3 <- getitem key_values 3 ;;
  let result := snd kv2 + snd kv3 in
  Ok [("fitness", result)].

Definition finalize_task (stats : list pyobj) (loss : list LossT) (n_batches : nat)
           (seg_result : dict (dict AverageMeter)) (il : nat * string)
  : result (dict Q) :=
  let (i, label_name) := il in
  try_except (merge_task stats loss n_batches i label_name)
             (fitness_fallback seg_result label_name).

Fixpoint results_loop (stats : list pyobj) (loss : list LossT) (n_batches : nat)
         (seg_result : dict (dict AverageMeter))
         (results_list : list (dict Q)) (todo : list (nat * string))
  : result (list (dict Q)) :=
  match todo with
  | [] => Ok results_list
  | il :: rest =>
      d <- finalize_task stats loss n_batches seg_result il ;;
      results_loop stats loss n_batches seg_result (results_list ++ [d]) rest
  end.

(** Lines 300-312. *)
Definition finalize_multi_training (labels_list : list string) (stats : list pyobj)
           (loss : list LossT) (n_batches : nat)
           (seg_result : dict (dict AverageMeter)) : result (list (dict Q)) :=
  results_loop stats loss n_batches seg_result [] (enumerate labels_list).

(** Lines 325-328. *)
Definition finalize_single_training (stats : pyobj) (loss : LossT) (n_batches : nat)
  : result (dict Q) :=
  sd <- unpack_mapping stats ;;
  items <- label_loss_items (tensor_div loss n_batches) "val" ;;
  round_items (dict_merge sd items).

End Finalize.

(* ================================================================== *)
(** ** [BaseValidator]: the JSON export (lines 316-320, 332-336, 417-431) *)
(* ================================================================== *)

Inductive image_id_t : Type :=
| IdInt (n : Z)
| IdStr (s : string).

(** One entry of [self.jdict]. *)
Record JsonRecord : Type := {
  image_id : image_id_t;
  category_id : Z;
  bbox : list Q;
  score : Q
}.

(** The files written so far, oldest first: path and dumped list. *)
Definition FileLog : Type := list (string * list JsonRecord).

(** The slice of [self.args] the modelled code reads. *)
Record ValArgs : Type := {
  save_json : bool;
  plots : bool
}.

(** Truth value of a list. *)
Definition truthy {A} (l : list A) : bool :=
  match l with
  | [] => false
  | _ :: _ => true
  end.

Section JsonExport.

(** Statistics as [get_stats] returns them, and the [eval_json] hook. *)
Variable StatsT : Type.
Variable eval_json : StatsT -> result StatsT.

(** Lines 316-323 and 332-339 (the two copies are the same); logging is not
    modelled. The file stays written when [eval_json] raises afterwards. *)
Definition finalize_standalone (args : ValArgs) (jdict : list JsonRecord)
           (save_dir : string) (stats : StatsT) (fs : FileLog)
  : FileLog * result StatsT :=
  if save_json args && truthy jdict then
    (fs ++ [(save_dir ++ "/predictions.json", jdict)]%string, eval_json stats)
  else (fs, Ok stats).

End JsonExport.

Section PredToJson.

(** [Path(filename).stem], [str.isnumeric] and [int] on the stem. *)
Variable path_stem : string -> string.
Variable isnumeric : string -> bool.
Variable int_of_str : string -> Z.

(** One row of [predn]: box corners, confidence, class. *)
Definition Box : Type := (Q * Q * Q * Q)%type.
Record DetRow : Type := { row_box : Box; row_conf : Q; row_cls : Z }.

(** [ops.xyxy2xywh] on one row: corners to centre, width, height. *)
Variable xyxy2xywh : Box -> Box.

(** [box[:, :2] -= box[:, 2:] / 2] on one row. *)
Definition center_to_topleft (b : Box) : Box :=
  let '(cx, cy, w, h) := b in (cx - w / 2, cy - h / 2, w, h).

Definition box_tolist (b : Box) : list Q :=
  let '(a, b, c, d) := b in [a; b; c; d].

(** [l[i]] for an integer index of either sign. *)
Definition getitem_Z {A} (l : list A) (i : Z) : result A :=
  if (0 <=? i)%Z then getitem l (Z.to_nat i)
  else if (Z.of_nat (List.length l) + i <? 0)%Z then Raise IndexError
  else getitem l (Z.to_nat (Z.of_nat (List.length l) + i)).

Definition json_record (class_map : list Z) (iid : image_id_t) (p : DetRow)
  : result JsonRecord :=
  let b := center_to_topleft (xyxy2xywh (row_box p)) in
  cat <- getitem_Z class_map (row_cls p) ;;
  Ok {| image_id := iid; category_id := cat;
        bbox := map (fun x => py_round x 3) (box_tolist b);
        score := py_round (row_conf p) 5 |}.

(** The loop of lines 423-431: [self.jdict] is appended to row by row, so the
    rows before a failing one stay in it. *)
Fixpoint pred_to_json_loop (class_map : list Z) (iid : image_id_t)
         (jdict : list JsonRecord) (rows : list DetRow)
  : list JsonRecord * result unit :=
  match rows with
  | [] => (jdict, Ok tt)
  | p :: rest =>
      match json_record class_map iid p with
      | Ok r => pred_to_json_loop class_map iid (jdict ++ [r]) rest
      | Raise e => (jdict, Raise e)
      end
  end.

Definition pred_to_json (class_map : list Z) (jdict : list JsonRecord)
           (predn : list DetRow) (filename : string)
  : list JsonRecord * result unit :=
  let stem := path_stem filename in
  let iid := if isnumeric stem then IdInt (int_of_str stem) else IdStr stem in
  pred_to_json_loop class_map iid jdict predn.

End PredToJson.

(* ================================================================== *)
(** ** [BaseValidator.__call__]: the return statement (lines 299-339) *)
(* ================================================================== *)

Section ReturnValue.

Variable LossT : Type.
Variable tensor_div : LossT -> nat -> LossT.
Variable label_loss_items_val : LossT -> string -> string -> result (dict value).
Variable label_loss_items : LossT -> string -> result (dict value).
Variable eval_json_multi : list pyobj -> result (list pyobj).
Variable eval_json_single : pyobj -> result pyobj.

(** [self.args.task == 'multi']: a list of rounded mappings when nested in
    training, the statistics after the export otherwise. *)
Definition return_multi (training : bool) (args : ValArgs) (labels_list : list string)
           (stats : list pyobj) (loss : list LossT) (n_batches : nat)
           (seg_result : dict (dict AverageMeter)) (jdict : list JsonRecord)
           (save_dir : string) (fs : FileLog)
  : FileLog * result (list (dict Q) + list pyobj) :=
  if training then
    (fs, r <- finalize_multi_training tensor_div label_loss_items_val
                labels_list stats loss n_batches seg_result ;;
         Ok (inl r))
  else
    let (fs', r) := finalize_standalone eval_json_multi args jdict save_dir stats fs in
    (fs', s <- r ;; Ok (inr s)).

(** Any other task. *)
Definition return_single (training : bool) (args : ValArgs)
           (stats : pyobj) (loss : LossT) (n_batches : nat)
           (jdict : list JsonRecord) (save_dir : string) (fs : FileLog)
  : FileLog * result (dict Q + pyobj) :=
  if training then
    (fs, r <- finalize_single_training tensor_div label_loss_items stats loss n_batches ;;
         Ok (inl r))
  else
    let (fs', r) := finalize_standalone eval_json_single args jdict save_dir stats fs in
    (fs', s <- r ;; Ok (inr s)).

End ReturnValue.

(* ================================================================== *)
(** ** [MultiPredictor.postprocess_det] (predict.py, lines 12-29) *)
(* ================================================================== *)

(** The slice of the predictor's [self.args] that post-processing reads. *)
Record PredictArgs : Type := {
  conf : Q;
  iou : Q;
  agnostic_nms : bool;
  max_det : Z;
  classes : option (list Z)
}.

Section PostprocessDet.

(** Raw detection output, original images and the class-name table. *)
Variables RawDet Img Names : Type.

(** [x.shape] of an original image. *)
Variable shape_of : Img -> list nat.

(** [ops.non_max_suppression(prediction, conf_thres, iou_thres, agnostic,
    max_det, classes)]: one list of retained rows per image. *)
Variable non_max_suppression :
  RawDet -> Q -> Q -> bool -> Z -> option (list Z) -> list (list DetRow).

(** [ops.scale_boxes(img1_shape, boxes, img0_shape)], row by row. *)
Variable scale_boxes : list nat -> Box -> list nat -> Box.

(** [orig_imgs] is a list of images, one batched tensor, or one array. *)
Inductive OrigImgs : Type :=
| ImgList (l : list Img)
| ImgTensor (x : Img)
| ImgArray (x : Img).

(** [self.batch[0]] is a list of paths or one path. *)
Inductive Paths : Type :=
| PathList (l : list string)
| PathOne (p : string).

Record Results : Type := {
  res_orig_img : Img;
  res_path : string;
  res_names : Names;
  res_boxes : list DetRow
}.

Definition isinstance_list (o : OrigImgs) : bool :=
  match o with ImgList _ => true | _ => false end.

Definition isinstance_Tensor (o : OrigImgs) : bool :=
  match o with ImgTensor _ => true | _ => false end.

(** [pred[:, :4] = f(pred[:, :4])] *)
Definition set_boxes (f : Box -> Box) (pred : list DetRow) : list DetRow :=
  map (fun r => {| row_box := f (row_box r); row_conf := row_conf r;
                   row_cls := row_cls r |}) pred.

(** The body of [for i, pred in enumerate(preds)] (lines 23-28);
    [img_shape] is [img.shape]. *)
Definition postprocess_det_step (img_shape : list nat) (orig_imgs : OrigImgs)
           (batch0 : Paths) (names : Names)
           (results : list Results) (ip : nat * list DetRow) : result (list Results) :=
  let (i, pred) := ip in
  orig_img <- match orig_imgs with
              | ImgList l => getitem l i
              | ImgTensor x => Ok x
              | ImgArray x => Ok x
              end ;;
  let pred :=
    if negb (isinstance_Tensor orig_imgs)
    then set_boxes (fun b => scale_boxes (skipn 2 img_shape) b (shape_of orig_img)) pred
    else pred in
  img_path <- match batch0 with
              | PathList l => getitem l i
              | PathOne p => Ok p
              end ;;
  Ok (results ++ [{| res_orig_img := orig_img; res_path := img_path;
                     res_names := names; res_boxes := pred |}]).

Fixpoint postprocess_det_loop (img_shape : list nat) (orig_imgs : OrigImgs)
         (batch0 : Paths) (names : Names)
         (results : list Results) (todo : list (nat * list DetRow))
  : result (list Results) :=
  match todo with
  | [] => Ok results
  | ip :: rest =>
      acc <- postprocess_det_step img_shape orig_imgs batch0 names results ip ;;
      postprocess_det_loop img_shape orig_imgs batch0 names acc rest
  end.

Definition postprocess_det (args : PredictArgs) (batch0 : Paths) (names : Names)
           (preds : RawDet) (img_shape : list nat) (orig_imgs : OrigImgs)
  : result (list Results) :=
  let preds := non_max_suppression preds (conf args) (iou args)
                                   (agnostic_nms args) (max_det args) (classes args) in
  postprocess_det_loop img_shape orig_imgs batch0 names [] (enumerate preds).

End PostprocessDet.

(* ================================================================== *)
(** ** [MultiPredictor.postprocess_seg] (predict.py, lines 31-42) *)
(* ================================================================== *)

(** Tensors as nested lists: a plane is height x width, an image is a list of
    class planes, a batch is a list of images (N x C x H x W). *)
Definition Plane (A : Type) : Type := list (list A).
Definition Tensor3 (A : Type) : Type := list (Plane A).
Definition Tensor4 (A : Type) : Type := list (Tensor3 A).

Definition map_plane {A B} (f : A -> B) (p : Plane A) : Plane B := map (map f) p.
Definition map_tensor4 {A B} (f : A -> B) (x : Tensor4 A) : Tensor4 B :=
  map (map (map_plane f)) x.

Fixpoint zip_with {A B C} (f : A -> B -> C) (xs : list A) (ys : list B) : list C :=
  match xs, ys with
  | x :: xs', y :: ys' => f x y :: zip_with f xs' ys'
  | _, _ => []
  end.

Definition Qltb (x y : Q) : bool := negb (Qle_bool y x).

(** One step of the reduction over the class dimension: the running maximum
    and its class index, replaced only by a strictly larger entry. *)
Definition max_step (c : nat) (best : Plane (Q * nat)) (plane : Plane Q)
  : Plane (Q * nat) :=
  zip_with (zip_with (fun (b : Q * nat) (x : Q) => if Qltb (fst b) x then (x, c) else b))
           best plane.

Fixpoint max_planes (c : nat) (best : Plane (Q * nat)) (planes : list (Plane Q))
  : Plane (Q * nat) :=
  match planes with
  | [] => best
  | p :: rest => max_planes (S c) (max_step c best p) rest
  end.

(** [torch.max(x, 1)] on one image: (values, indices); no class plane at all
    is an error. *)
Definition max_dim1_image (img : Tensor3 Q) : result (Plane Q * Plane nat) :=
  match img with
  | [] => Raise RuntimeError
  | p0 :: rest =>
      let best := max_planes 1 (map_plane (fun x => (x, 0%nat)) p0) rest in
      Ok (map_plane fst best, map_plane snd best)
  end.

(** [torch.max(x, 1)] on a batch. *)
Definition torch_max_dim1 (x : Tensor4 Q) : result (Tensor3 Q * Tensor3 nat) :=
  per_image <- map_result max_dim1_image x ;;
  Ok (map fst per_image, map snd per_image).

Inductive interp_mode : Type :=
| Nearest
| Bilinear
| Bicubic.

Section PostprocessSeg.

(** [torch.nn.functional.interpolate(input, size, mode, align_corners)] *)
Variable interpolate : Tensor4 Q -> nat * nat -> interp_mode -> bool -> Tensor4 Q.

(** [self.sigmoid], applied element by element. *)
Variable sigmoid : Q -> Q.

(** [orig_h, orig_w = img_array.shape[:2]] *)
Definition unpack_hw (shape : list nat) : result (nat * nat) :=
  match firstn 2 shape with
  | [h; w] => Ok (h, w)
  | _ => Raise ValueError
  end.

(** [batch1] is [self.batch[1]], the shapes of the original images. *)
Definition postprocess_seg (batch1 : list (list nat)) (preds : Tensor4 Q)
  : result (Tensor3 nat) :=
  img_array_shape <- getitem batch1 0 ;;
  hw <- unpack_hw img_array_shape ;;
  let (orig_h, orig_w) := hw in
  let preds := interpolate preds (orig_h, orig_w) Bilinear false in
  let preds := map_tensor4 sigmoid preds in
  vi <- torch_max_dim1 preds ;;
  Ok (snd vi).

(** The pipeline without the activation: interpolate, then arg-max. *)
Definition interpolate_then_argmax (batch1 : list (list nat)) (preds : Tensor4 Q)
  : result (Tensor3 nat) :=
  img_array_shape <- getitem batch1 0 ;;
  hw <- unpack_hw img_array_shape ;;
  let (orig_h, orig_w) := hw in
  let preds := interpolate preds (orig_h, orig_w) Bilinear false in
  vi <- torch_max_dim1 preds ;;
  Ok (snd vi).

End PostprocessSeg.

(** Shapes of nested-list tensors. *)
Definition plane_shape {A} (h w : nat) (p : Plane A) : Prop :=
  List.length p = h /\ Forall (fun row => List.length row = w) p.

Definition tensor3_shape {A} (c h w : nat) (x : Tensor3 A) : Prop :=
  List.length x = c /\ Forall (plane_shape h w) x.

Definition tensor4_shape {A} (n c h w : nat) (x : Tensor4 A) : Prop :=
  List.length x = n /\ Forall (tensor3_shape c h w) x.

(** Every entry of a label map is below [c]. *)
Definition labels_below (c : nat) (x : Tensor3 nat) : Prop :=
  Forall (Forall (Forall (fun label => (label < c)%nat))) x.

(* ================================================================== *)
(** ** The external kernels, modelled from the spec

    [ops.non_max_suppression], [ops.scale_boxes], [ops.xyxy2xywh] and the
    torch kernels are taken as parameters above. The definitions of this
    module are instances of them, used to run the model on concrete inputs. *)
(* ================================================================== *)

Module Ops.

Definition box_area (b : Box) : Q :=
  let '(x1, y1, x2, y2) := b in Qmax 0 (x2 - x1) * Qmax 0 (y2 - y1).

Definition box_inter (a b : Box) : Q :=
  let '(ax1, ay1, ax2, ay2) := a in
  let '(bx1, by1, bx2, by2) := b in
  Qmax 0 (Qmin ax2 bx2 - Qmax ax1 bx1) * Qmax 0 (Qmin ay2 by2 - Qmax ay1 by1).

(** Intersection over union (glossary). *)
Definition box_iou (a b : Box) : Q :=
  box_inter a b / (box_area a + box_area b - box_inter a b).

(** Descending by confidence; rows of equal confidence come out in the
    reverse of their input order. *)
Fixpoint insert_by_conf (r : DetRow) (l : list DetRow) : list DetRow :=
  match l with
  | [] => [r]
  | r' :: rest =>
      if Qltb (row_conf r') (row_conf r) then r :: l
      else r' :: insert_by_conf r rest
  end.

Definition sort_by_conf (l : list DetRow) : list DetRow :=
  fold_right insert_by_conf [] l.

Definition suppresses (iou_thres : Q) (agnostic : bool) (kept r : DetRow) : bool :=
  (agnostic || Z.eqb (row_cls kept) (row_cls r))
  && Qltb iou_thres (box_iou (row_box kept) (row_box r)).

Definition nms_image (conf_thres iou_thres : Q) (agnostic : bool) (max_det : Z)
           (classes : option (list Z)) (cands : list DetRow) : list DetRow :=
  let confident := filter (fun r => Qltb conf_thres (row_conf r)) cands in
  let allowed :=
    match classes with
    | None => confident
    | Some cs => filter (fun r => existsb (Z.eqb (row_cls r)) cs) confident
    end in
  let kept :=
    fold_left (fun kept r =>
                 if existsb (fun k => suppresses iou_thres agnostic k r) kept
                 then kept else kept ++ [r])
              (sort_by_conf allowed) [] in
  firstn (Z.to_nat max_det) kept.

(** Modelled from the spec: [ops.non_max_suppression] (section 4.3 and the
    glossary): candidates above the confidence threshold and on the class
    allow-list, an overlapping lower-confidence candidate of the same class
    (of any class when class-agnostic) discarded, at most [max_det] kept. *)
Definition non_max_suppression (prediction : list (list DetRow))
           (conf_thres iou_thres : Q) (agnostic : bool) (max_det : Z)
           (classes : option (list Z)) : list (list DetRow) :=
  map (nms_image conf_thres iou_thres agnostic max_det classes) prediction.

Definition dim (shape : list nat) (i : nat) : Q :=
  inject_Z (Z.of_nat (nth i shape 0%nat)).

Definition clip (lo hi x : Q) : Q := Qmax lo (Qmin hi x).

(** Modelled from the spec: [ops.scale_boxes] (section 4.3 and the glossary):
    the inverse of the letterbox transform, the padding offsets removed and
    the scale undone, clipped to the original image. *)
Definition scale_boxes (img1_shape : list nat) (b : Box) (img0_shape : list nat) : Box :=
  let gain := Qmin (dim img1_shape 0 / dim img0_shape 0)
                   (dim img1_shape 1 / dim img0_shape 1) in
  let pad_x := (dim img1_shape 1 - dim img0_shape 1 * gain) / 2 in
  let pad_y := (dim img1_shape 0 - dim img0_shape 0 * gain) / 2 in
  let '(x1, y1, x2, y2) := b in
  (clip 0 (dim img0_shape 1) ((x1 - pad_x) / gain),
   clip 0 (dim img0_shape 0) ((y1 - pad_y) / gain),
   clip 0 (dim img0_shape 1) ((x2 - pad_x) / gain),
   clip 0 (dim img0_shape 0) ((y2 - pad_y) / gain)).

(** Source coordinate of output index [i] when [n_in] samples are resized to
    [n_out], corners not aligned: [(i + 0.5) * n_in / n_out - 0.5], not below 0. *)
Definition src_coord (n_in n_out i : nat) : Q :=
  Qmax 0 ((inject_Z (Z.of_nat i) + (1 # 2))
          * (inject_Z (Z.of_nat n_in) / inject_Z (Z.of_nat n_out)) - (1 # 2)).

(** Linear interpolation of a row of samples at output index [i]. *)
Definition lerp_at (xs : list Q) (n_out i : nat) : Q :=
  let n_in := List.length xs in
  let s := src_coord n_in n_out i in
  let i0 := Z.to_nat (Qfloor s) in
  let i1 := Nat.min (S i0) (n_in - 1) in
  let lam := s - inject_Z (Qfloor s) in
  (1 - lam) * nth i0 xs 0 + lam * nth i1 xs 0.

Definition resize_row (n_out : nat) (xs : list Q) : list Q :=
  map (lerp_at xs n_out) (seq 0 n_out).

(** Rows of the transposed plane, given its width. *)
Definition columns (w : nat) (p : Plane Q) : Plane Q :=
  map (fun j => map (fun row => nth j row 0) p) (seq 0 w).

Definition resize_plane (h w : nat) (p : Plane Q) : Plane Q :=
  let wide := map (resize_row w) p in
  columns h (map (resize_row h) (columns w wide)).

(** Modelled from the spec: bilinear resizing with aligned corners disabled
    (section 4.3), plane by plane; every mode is resized alike here. *)
Definition interpolate (x : Tensor4 Q) (size : nat * nat) (mode : interp_mode)
           (align_corners : bool) : Tensor4 Q :=
  map (map (resize_plane (fst size) (snd size))) x.

(** A strictly increasing map of the rationals into (0, 1), standing for the
    logistic function, which has no rational values. *)
Definition sigmoid (x : Q) : Q := (1 + x / (1 + Qabs x)) / 2.

(** The activation as single-precision arithmetic computes it on large
    scores: from 17 upward [1 + exp(-x)] rounds to 1 and the value is exactly
    1; below 17, the increasing map above. *)
Definition saturating_sigmoid (x : Q) : Q :=
  if Qle_bool 17 x then 1 else sigmoid x.

(** Modelled from the spec: [ops.xyxy2xywh] (section 3, "JSON export
    record"): corners to centre, width and height. *)
Definition xyxy2xywh (b : Box) : Box :=
  let '(x1, y1, x2, y2) := b in ((x1 + x2) / 2, (y1 + y2) / 2, x2 - x1, y2 - y1).

Definition is_digit (c : ascii) : bool :=
  let n := nat_of_ascii c in (48 <=? n)%nat && (n <=? 57)%nat.

(** [str.isnumeric], on ASCII strings: not empty and digits only. *)
Definition isnumeric (s : string) : bool :=
  match list_ascii_of_string s with
  | [] => false
  | cs => forallb is_digit cs
  end.

(** [int(s)] on a string of decimal digits. *)
Definition int_of_str (s : string) : Z :=
  fold_left (fun acc c => (10 * acc + Z.of_nat (nat_of_ascii c - 48))%Z)
            (list_ascii_of_string s) 0%Z.

Fixpoint take_until (stop : ascii) (cs : list ascii) : list ascii :=
  match cs with
  | [] => []
  | c :: rest => if Ascii.eqb c stop then [] else c :: take_until stop rest
  end.

Fixpoint drop_while (stop : ascii) (cs : list ascii) : list ascii :=
  match cs with
  | [] => []
  | c :: rest => if Ascii.eqb c stop then drop_while stop rest else cs
  end.

(** [Path(filename).name]: the last component, trailing slashes ignored. *)
Definition path_name (filename : string) : list ascii :=
  rev (take_until "/"%char (drop_while "/"%char (rev (list_ascii_of_string filename)))).

(** [Path(filename).stem], for a path whose last component is not the
    single dot that [pathlib] drops: the name without its last suffix; a
    leading or a trailing dot starts no suffix. *)
Definition path_stem (filename : string) : string :=
  let name := path_name filename in
  let suffix := take_until "."%char (rev name) in
  let n_suffix := List.length suffix in
  let n := List.length name in
  if (n_suffix =? n)%nat || (n_suffix =? 0)%nat || (S n_suffix =? n)%nat
  then string_of_list_ascii name
  else string_of_list_ascii (firstn (n - S n_suffix) name).

End Ops.

(* ================================================================== *)
(** ** A sample nested multi-task run

    A detection task whose statistics merge with its loss item, and a
    segmentation task for which [get_stats] hands back no mapping. *)
(* ================================================================== *)

Module Sample.

(** A loss tensor with one item. *)
Definition tensor_div (loss : Q) (n : nat) : Q := loss / inject_Z (Z.of_nat n).

Definition label_loss_items_val (loss_items : Q) (prefix task : string)
  : result (dict value) :=
  Ok [((prefix ++ "/" ++ task ++ "_loss")%string, VFloat loss_items)].

Definition labels_list : list string := ["det"; "seg"].

Definition stats : list pyobj := [Mapping [("fitness", VFloat (1 # 2))]; NotMapping].

Definition loss : list Q := [1; 2].

Definition n_batches : nat := 4.

Definition seg_result : dict (dict AverageMeter) :=
  [("seg", [("pixacc", {| avg := 9 # 10 |}); ("subacc", {| avg := 4 # 5 |});
            ("IoU", {| avg := 1 # 3 |}); ("mIoU", {| avg := 1 # 4 |})])].

End Sample.

(* ================================================================== *)
(** ** A sample detection batch

    One image given as a tensor at the working resolution 640 x 640; three
    candidates of class 0: the second overlaps the first with lower
    confidence, the third is below the confidence threshold. *)
(* ================================================================== *)

Module SampleDet.

Definition args : PredictArgs :=
  {| conf := 1 # 4; iou := 7 # 10; agnostic_nms := false; max_det := 300;
     classes := None |}.

Definition row0 : DetRow :=
  {| row_box := (0, 80, 640, 560); row_conf := 9 # 10; row_cls := 0 |}.
Definition row1 : DetRow :=
  {| row_box := (4, 84, 640, 560); row_conf := 8 # 10; row_cls := 0 |}.
Definition row2 : DetRow :=
  {| row_box := (10, 10, 20, 20); row_conf := 1 # 10; row_cls := 0 |}.

Definition raw : list (list DetRow) := [[row1; row2; row0]].

(** [img.shape] *)
Definition img_shape : list nat := [1; 3; 640; 640]%nat.

(** An image is represented by its shape. *)
Definition shape_of (img : list nat) : list nat := img.

Definition as_tensor : OrigImgs (list nat) := ImgTensor [1; 3; 640; 640]%nat.

Definition as_list : OrigImgs (list nat) := ImgList [[480; 640; 3]%nat].

End SampleDet.

(* ================================================================== *)
(** ** A sample segmentation batch

    One image, two classes, a 2 x 2 grid of raw scores; the original image is
    4 x 4 with three channels. *)
(* ================================================================== *)

Module SampleSeg.

Definition preds : Tensor4 Q :=
  [[ [[1; -2]; [0; 3]];
     [[-1; 2]; [0; 5]] ]].

(** [self.batch[1]], by shape. *)
Definition batch1 : list (list nat) := [[4; 4; 3]%nat].

(** One image, two classes, a 2 x 2 grid: class 0 scores 20 everywhere,
    class 1 scores 30 everywhere; the original image is 2 x 2. *)
Definition saturated : Tensor4 Q :=
  [[ [[20; 20]; [20; 20]];
     [[30; 30]; [30; 30]] ]].

Definition batch1_small : list (list nat) := [[2; 2; 3]%nat].

End SampleSeg.

(* ================================================================== *)
(** ** [BaseValidator.__call__]: the metric objects (lines 163-168) *)
(* ================================================================== *)

(** [DetMetrics(save_dir, on_plot)] and [SegmentMetrics(save_dir, on_plot)]
    come from the metrics module; the validator only constructs them. *)
Inductive metric_obj : Type :=
| DetMetrics
| SegmentMetrics.

(** The body of [for name in labels_list]: two independent [if]s. *)
Definition metrics_step (metrics : list metric_obj) (name : string) : list metric_obj :=
  let metrics := if is_det name then metrics ++ [DetMetrics] else metrics in
  if is_seg name then metrics ++ [SegmentMetrics] else metrics.

(** [if not self.metrics: for name in labels_list: ...] *)
Definition init_metrics_list (metrics : list metric_obj) (labels_list : list string)
  : list metric_obj :=
  if negb (truthy metrics) then fold_left metrics_step labels_list metrics
  else metrics.

(* ================================================================== *)
(** ** [BaseValidator.__call__]: the running loss (lines 111-115, 246-252) *)
(* ================================================================== *)

Section Loss.

(** Loss tensors, with [torch.zeros_like] and the in-place sum. *)
Variable LossT : Type.
Variable zeros_like : LossT -> LossT.
Variable tensor_add : LossT -> LossT -> LossT.

Variables Raw Batch : Type.

(** [trainer.criterion(preds, batch, name, count)[1]] *)
Variable criterion : Raw -> Batch -> string -> nat -> result LossT.

(** Lines 111-115: one zero tensor per entry of [trainer.mul_loss_items]. *)
Definition init_loss_multi (mul_loss_items : list LossT) : list LossT :=
  map zeros_like mul_loss_items.

(** [l[i] = x] on a position that exists. *)
Fixpoint list_set {A} (l : list A) (i : nat) (x : A) : list A :=
  match l, i with
  | [], _ => []
  | _ :: rest, O => x :: rest
  | a :: rest, S j => a :: list_set rest j x
  end.

(** The body of [for i, preds in enumerate(preds_list)] (line 250):
    [self.loss[i] += criterion(preds, batch[i], labels_list[i], i)[1]];
    the old entry is fetched before the right-hand side is evaluated. *)
Definition loss_step (labels_list : list string) (batch : list Batch)
           (loss : list LossT) (ip : nat * Raw) : result (list LossT) :=
  let (i, preds) := ip in
  old <- getitem loss i ;;
  b <- getitem batch i ;;
  name <- getitem labels_list i ;;
  items <- criterion preds b name i ;;
  Ok (list_set loss i (tensor_add old items)).

Fixpoint loss_loop (labels_list : list string) (batch : list Batch)
         (loss : list LossT) (todo : list (nat * Raw)) : result (list LossT) :=
  match todo with
  | [] => Ok loss
  | ip :: rest =>
      loss' <- loss_step labels_list batch loss ip ;;
      loss_loop labels_list batch loss' rest
  end.

(** The Loss block of one multi-task batch (lines 246-250). *)
Definition loss_block (training : bool) (labels_list : list string)
           (preds_list : list Raw) (batch : list Batch) (loss : list LossT)
  : result (list LossT) :=
  if training then loss_loop labels_list batch loss (enumerate preds_list)
  else Ok loss.

(** The Loss blocks of the successive batches, each given by its raw outputs
    and its per-task batches. *)
Fixpoint loss_over_batches (training : bool) (labels_list : list string)
         (loss : list LossT) (batches : list (list Raw * list Batch))
  : result (list LossT) :=
  match batches with
  | [] => Ok loss
  | (preds_list, batch) :: rest =>
      loss' <- loss_block training labels_list preds_list batch loss ;;
      loss_over_batches training labels_list loss' rest
  end.

End Loss.

(* ================================================================== *)
(** ** [BaseValidator.__call__]: plotting (lines 275-282) *)
(* ================================================================== *)

Section Plots.

Variables Pred Batch V : Type.

(** The plotting hooks of the multi-task plugin; [V] is what they change. *)
Variable plot_val_samples : Batch -> nat -> string -> V -> result V.
Variable plot_predictions : Batch -> Pred -> nat -> string -> V -> result V.

(** The body of [for i, label_name in enumerate(labels_list)] (lines 278-279). *)
Definition plot_step (batch : list Batch) (preds_list_post : list Pred)
           (batch_i : nat) (v : V) (il : nat * string) : result V :=
  let (i, label_name) := il in
  b <- getitem batch i ;;
  v <- plot_val_samples b batch_i label_name v ;;
  b <- getitem batch i ;;
  p <- getitem preds_list_post i ;;
  plot_predictions b p batch_i label_name v.

Fixpoint plot_loop (batch : list Batch) (preds_list_post : list Pred)
         (batch_i : nat) (v : V) (todo : list (nat * string)) : result V :=
  match todo with
  | [] => Ok v
  | il :: rest =>
      v' <- plot_step batch preds_list_post batch_i v il ;;
      plot_loop batch preds_list_post batch_i v' rest
  end.

(** Lines 275-279, multi-task. *)
Definition plot_block (plots : bool) (labels_list : list string) (batch_i : nat)
           (batch : list Batch) (preds_list_post : list Pred) (v : V) : result V :=
  if plots && (batch_i <? 3)%nat
  then plot_loop batch preds_list_post batch_i v (enumerate labels_list)
  else Ok v.

(** The plotting blocks of the successive batches, numbered by [enumerate]. *)
Fixpoint plots_loop (plots : bool) (labels_list : list string) (v : V)
         (todo : list (nat * (list Batch * list Pred))) : result V :=
  match todo with
  | [] => Ok v
  | (batch_i, (batch, post)) :: rest =>
      v' <- plot_block plots labels_list batch_i batch post v ;;
      plots_loop plots labels_list v' rest
  end.

Definition plots_over_batches (plots : bool) (labels_list : list string) (v : V)
           (batches : list (list Batch * list Pred)) : result V :=
  plots_loop plots labels_list v (enumerate batches).

End Plots.

(* ================================================================== *)
(** ** [BaseValidator.add_callback], [run_callbacks] (lines 341-348) *)
(* ================================================================== *)

Section Callbacks.

(** What a callback may change of the validator; the registry itself is kept
    apart, so a callback here does not register callbacks. *)
Variable V : Type.

Definition Callback : Type := V -> result V.

(** [self.callbacks[event].append(callback)] on a plain dictionary. *)
Definition add_callback (callbacks : dict (list Callback)) (event : string)
           (callback : Callback) : result (dict (list Callback)) :=
  l <- dict_getitem callbacks event ;;
  Ok (dict_set callbacks event (l ++ [callback])).

Fixpoint run_each (l : list Callback) (v : V) : result V :=
  match l with
  | [] => Ok v
  | callback :: rest =>
      v' <- callback v ;;
      run_each rest v'
  end.

(** [for callback in self.callbacks.get(event, []): callback(self)] *)
Definition run_callbacks (callbacks : dict (list Callback)) (event : string) (v : V)
  : result V :=
  run_each (match dict_get callbacks event with
            | Some l => l
            | None => []
            end) v.

End Callbacks.

(* ================================================================== *)
(** ** [BaseValidator.__call__]: the dataset (lines 144-149) *)
(* ================================================================== *)

(** [self.args.data]: a string or something else. *)
Inductive data_arg : Type :=
| DataStr (s : string)
| DataOther.

(** [s.endswith(suffix)] *)
Fixpoint str_endswith (suffix s : string) : bool :=
  if String.eqb s suffix then true
  else match s with
       | EmptyString => false
       | String _ rest => str_endswith suffix rest
       end.

(** How the dataset lookup ends: with the data, with the
    [FileNotFoundError] of line 149, or with what a check raised. *)
Inductive dataset_outcome (D : Type) : Type :=
| Resolved (d : D)
| DatasetNotFound
| CheckRaised (e : exn).
Arguments Resolved {D} d.
Arguments DatasetNotFound {D}.
Arguments CheckRaised {D} e.

Section Dataset.

Variable DataT : Type.
Variable check_det_dataset : string -> result DataT.
Variable check_cls_dataset : data_arg -> result DataT.

Definition of_check (r : result DataT) : dataset_outcome DataT :=
  match r with
  | Ok d => Resolved d
  | Raise e => CheckRaised e
  end.

Definition resolve_dataset (data : data_arg) (task : string) : dataset_outcome DataT :=
  match data with
  | DataStr s =>
      if str_endswith ".yaml" s then of_check (check_det_dataset s)
      else if String.eqb task "classify" then of_check (check_cls_dataset data)
      else DatasetNotFound
  | DataOther =>
      if String.eqb task "classify" then of_check (check_cls_dataset data)
      else DatasetNotFound
  end.

End Dataset.

(* ================================================================== *)
(** ** [BaseValidator]: the remaining default hooks (lines 366-397, 434-436) *)
(* ================================================================== *)

(** [get_stats]: an empty mapping. *)
Definition BaseValidator_get_stats : pyobj := Mapping [].

(** [eval_json]: the body is [pass], so the call returns [None]. *)
Definition BaseValidator_eval_json {S : Type} (stats : option S) : result (option S) :=
  Ok None.

(** [metric_keys]: an empty list. *)
Definition BaseValidator_metric_keys : list string := [].

(* ================================================================== *)
(** ** Vocabulary of the statements *)
(* ================================================================== *)

(** A task name the dispatch recognises. *)
Definition known_kind (name : string) : bool := is_det name || is_seg name.

(** [q] has at most [n] decimal places. *)
Definition rounded_to (n : nat) (q : Q) : Prop :=
  exists k : Z, q == inject_Z k / pow10 n.

(** The item the comprehension builds for task [count] named [name]. *)
Definition seg_metric_item (nc_list : list Z) (cn : nat * string)
  : string * SegmentationMetric :=
  (snd cn, {| numClass := nth (fst cn) nc_list 0%Z + 1 |}).

Section ResultFor.

Variables Img Names : Type.
Variable shape_of : Img -> list nat.
Variable scale_boxes : list nat -> Box -> list nat -> Box.

(** What one result holds for image [i] with retained rows [pred]: the
    original image, the path, and the boxes, rescaled unless the original
    images came as a tensor. *)
Definition result_for (img_shape : list nat) (orig_imgs : OrigImgs Img)
           (batch0 : Paths) (names : Names) (ip : nat * list DetRow)
           (r : Results Img Names) : Prop :=
  match orig_imgs with
  | ImgList l => nth_error l (fst ip) = Some (res_orig_img r)
  | ImgTensor x => res_orig_img r = x
  | ImgArray x => res_orig_img r = x
  end
  /\ match batch0 with
     | PathList l => nth_error l (fst ip) = Some (res_path r)
     | PathOne p => res_path r = p
     end
  /\ res_names r = names
  /\ res_boxes r =
     if isinstance_Tensor orig_imgs then snd ip
     else set_boxes (fun b => scale_boxes (skipn 2 img_shape) b (shape_of (res_orig_img r)))
                    (snd ip).

End ResultFor.

(** Every entry of a plane, and of a batch of class planes, satisfies [P]. *)
Definition plane_all {A} (P : A -> Prop) (p : Plane A) : Prop :=
  Forall (Forall P) p.

Definition tensor4_all {A} (P : A -> Prop) (x : Tensor4 A) : Prop :=
  Forall (Forall (plane_all P)) x.

(** [sub] occurs in [s] as a run of consecutive characters. *)
Definition occurs_in (sub s : string) : Prop :=
  exists pre post, s = (pre ++ sub ++ post)%string.

(** The activation applied to a running maximum, its index kept. *)
Definition on_value (f : Q -> Q) (b : Q * nat) : Q * nat := (f (fst b), snd b).

(** Every class index of a plane of running maxima is below [c]. *)
Definition indices_below (c : nat) (best : Plane (Q * nat)) : Prop :=
  Forall (Forall (fun b : Q * nat => (snd b < c)%nat)) best.

(** The entry of a plane at row [y], column [x]. *)
Definition at2 {A} (p : Plane A) (y x : nat) : option A :=
  match nth_error p y with
  | Some row => nth_error row x
  | None => None
  end.

(** At pixel ([y], [x]) of the class planes [img], [m] is the largest value
    and [k] the first class that attains it. *)
Definition first_argmax (img : Tensor3 Q) (y x : nat) (m : Q) (k : nat) : Prop :=
  (exists plane, nth_error img k = Some plane /\ at2 plane y x = Some m)
  /\ (forall j plane v, nth_error img j = Some plane -> at2 plane y x = Some v ->
                        v <= m /\ ((j < k)%nat -> v < m)).

(** [round(float(v), 5)], where it is defined. *)
Definition rounded_value (v : value) : option Q :=
  match v with
  | VFloat x => Some (py_round x 5)
  | VOther => None
  end.

Section Contributes.

Variables LossT Raw Batch : Type.
Variable criterion : Raw -> Batch -> string -> nat -> result LossT.

(** What task [i] adds to its loss entry in a batch: the loss items the
    criterion returns for the task's raw output, batch, name and index. *)
Definition contributes (labels_list : list string) (i : nat)
           (pb : list Raw * list Batch) (items : LossT) : Prop :=
  exists r b name,
    nth_error (fst pb) i = Some r /\ nth_error (snd pb) i = Some b
    /\ nth_error labels_list i = Some name /\ criterion r b name i = Ok items.

End Contributes.

(** The class index [i] is a valid index, of either sign, into a table of
    [n] entries. *)
Definition index_in_range (n : nat) (i : Z) : Prop :=
  (- Z.of_nat n <= i < Z.of_nat n)%Z.

(** Component-wise equality of boxes as rationals. *)
Definition box_eq (a b : Box) : Prop :=
  let '(a1, a2, a3, a4) := a in
  let '(b1, b2, b3, b4) := b in
  a1 == b1 /\ a2 == b2 /\ a3 == b3 /\ a4 == b4.

(** The path the export writes. *)
Definition predictions_json (save_dir : string) : string :=
  (save_dir ++ "/predictions.json")%string.

(* ================================================================== *)
(** ** Facts about the run-time model *)
(* ================================================================== *)

Lemma bind_ok {A B} (m : result A) (k : A -> result B) (b : B) :
  bind m k = Ok b -> exists a, m = Ok a /\ k a = Ok b.
Proof.
  destruct m as [a | e]; simpl; intros H; [ exists a; auto | discriminate ].
Qed.

Lemma getitem_ok {A} (l : list A) (i : nat) (a : A) :
  getitem l i = Ok a <-> nth_error l i = Some a.
Proof.
  unfold getitem. destruct (nth_error l i); split; intros H; congruence.
Qed.

Lemma skipn_cons_nth {A} (l : list A) : forall (k : nat) (a : A) (tail : list A),
  skipn k l = a :: tail -> nth_error l k = Some a /\ skipn (S k) l = tail.
Proof.
  induction l as [| x l IH]; intros k a tail H.
  - destruct k; discriminate.
  - destruct k as [| k].
    + simpl in H. injection H as -> ->. auto.
    + simpl in H. apply IH in H. exact H.
Qed.

Lemma enumerate_from_length {A} (l : list A) : forall k,
  List.length (enumerate_from k l) = List.length l.
Proof.
  induction l as [| a l IH]; intros k; simpl; [ reflexivity | now rewrite IH ].
Qed.

Lemma enumerate_from_nth {A} (l : list A) : forall k j a,
  nth_error l j = Some a ->
  nth_error (enumerate_from k l) j = Some ((k + j)%nat, a).
Proof.
  induction l as [| x l IH]; intros k j a H.
  - destruct j; discriminate.
  - destruct j as [| j]; simpl in *.
    + injection H as ->. now rewrite Nat.add_0_r.
    + rewrite (IH (S k) j a H). f_equal. f_equal. lia.
Qed.

Lemma enumerate_from_In {A} (l : list A) : forall k i a,
  In (i, a) (enumerate_from k l) <->
  (k <= i)%nat /\ nth_error l (i - k) = Some a.
Proof.
  induction l as [| x l IH]; intros k i a; simpl.
  - split; [ tauto | intros [_ H]; destruct (i - k)%nat; discriminate ].
  - rewrite IH. split.
    + intros [H | [Hle Hn]].
      * injection H as <- <-. rewrite Nat.sub_diag. auto.
      * split; [ lia | ]. replace (i - k)%nat with (S (i - S k)) by lia. exact Hn.
    + intros [Hle Hn]. destruct (Nat.eq_dec i k) as [-> | Hne].
      * rewrite Nat.sub_diag in Hn. simpl in Hn. injection Hn as ->. now left.
      * right. split; [ lia | ].
        replace (i - k)%nat with (S (i - S k)) in Hn by lia. exact Hn.
Qed.

(* ================================================================== *)
(** ** The dispatch loop *)
(* ================================================================== *)

Section DispatchFacts.

Variables Raw Pred Batch Metrics : Type.
Variable postprocess_det : Raw -> result Pred.
Variable postprocess_seg : Raw -> nat -> result Pred.
Variable update_metrics_det : Pred -> Batch -> string -> Metrics -> result Metrics.
Variable update_metrics_seg : Pred -> Batch -> string -> Metrics -> result Metrics.

(** A step appends one slice for a known kind and nothing otherwise. *)
Lemma postprocess_step_length (labels_list : list string) (acc post : list Pred)
      (i : nat) (r : Raw) (name : string) :
  nth_error labels_list i = Some name ->
  postprocess_step postprocess_det postprocess_seg labels_list acc (i, r) = Ok post ->
  List.length post = (List.length acc + if known_kind name then 1 else 0)%nat.
Proof.
  intros Hn H. unfold postprocess_step, known_kind in *.
  apply getitem_ok in Hn. rewrite Hn in H. simpl in H.
  destruct (is_det name); simpl in *.
  - apply bind_ok in H as (p & _ & H). injection H as <-.
    rewrite length_app. reflexivity.
  - destruct (is_seg name); simpl.
    + apply bind_ok in H as (p & _ & H). injection H as <-.
      rewrite length_app. reflexivity.
    + injection H as <-. lia.
Qed.

Lemma postprocess_loop_length (labels_list : list string) :
  forall (preds_list : list Raw) (k : nat) (acc post : list Pred) (tail : list string),
    skipn k labels_list = tail ->
    List.length preds_list = List.length tail ->
    postprocess_loop postprocess_det postprocess_seg labels_list acc
                     (enumerate_from k preds_list) = Ok post ->
    List.length post = (List.length acc + List.length (filter known_kind tail))%nat.
Proof.
  induction preds_list as [| r rs IH]; intros k acc post tail Hskip Hlen H.
  - destruct tail; [ | discriminate ]. simpl in *. injection H as <-. lia.
  - destruct tail as [| name tail']; [ discriminate | ].
    simpl in H. apply bind_ok in H as (acc' & Hstep & H).
    apply skipn_cons_nth in Hskip as [Hn Hskip'].
    eapply postprocess_step_length in Hstep; [ | exact Hn ].
    apply (IH (S k) acc' post tail' Hskip') in H; [ | simpl in Hlen; lia ].
    rewrite H, Hstep. simpl. destruct (known_kind name); simpl; lia.
Qed.

(** With one raw output per task, the post-processed list has one entry per
    task of a known kind. *)
Lemma postprocess_multi_length (labels_list : list string) (preds_list : list Raw)
      (post : list Pred) :
  List.length preds_list = List.length labels_list ->
  postprocess_multi postprocess_det postprocess_seg labels_list preds_list = Ok post ->
  List.length post = List.length (filter known_kind labels_list).
Proof.
  intros Hlen H.
  unfold postprocess_multi, enumerate in H.
  eapply postprocess_loop_length in H; [ exact H | reflexivity | exact Hlen ].
Qed.

(** When every task is of a known kind the two lists are aligned. *)
Lemma postprocess_multi_aligned (labels_list : list string) (preds_list : list Raw)
      (post : list Pred) :
  forallb known_kind labels_list = true ->
  List.length preds_list = List.length labels_list ->
  postprocess_multi postprocess_det postprocess_seg labels_list preds_list = Ok post ->
  List.length post = List.length labels_list.
Proof.
  intros Hall Hlen H.
  apply postprocess_multi_length in H; [ | exact Hlen ]. rewrite H.
  clear H Hlen post. induction labels_list as [| n l IH]; [ reflexivity | ].
  simpl in *. apply andb_prop in Hall as [-> Hl]. simpl. now rewrite IH.
Qed.

(** C1, at [labels_list = ['cls', 'det', 'seg']] with one raw output and one
    batch per task and hooks that do not raise: the task of unknown kind gets
    no post-processed slice, so the list has two entries for three tasks; the
    metric update then reads index 1 for the detection task, which holds the
    segmentation slice, and fails with [IndexError] at index 2. *)
Theorem dispatch_unknown_kind_misaligns
        (fd : Raw -> Pred) (fs : Raw -> nat -> Pred)
        (r0 r1 r2 : Raw) (b0 b1 b2 : Batch) (m : Metrics) :
  let labels_list := ["cls"; "det"; "seg"] in
  let post := [fd r1; fs r2 2%nat] in
  postprocess_multi (fun r => Ok (fd r)) (fun r i => Ok (fs r i))
                    labels_list [r0; r1; r2] = Ok post
  /\ List.length post <> List.length labels_list
  /\ update_metrics_multi update_metrics_det update_metrics_seg
                          labels_list post [b0; b1; b2] m
     = (_ <- update_metrics_det (fs r2 2%nat) b1 "det" m ;; Raise IndexError).
Proof.
  intros labels_list post. split; [ reflexivity | ]. split.
  - discriminate.
  - unfold update_metrics_multi. simpl.
    destruct (update_metrics_det (fs r2 2%nat) b1 "det" m); reflexivity.
Qed.

End DispatchFacts.

(* ================================================================== *)
(** ** Dictionaries *)
(* ================================================================== *)

Section DictFacts.

Variable V : Type.
Implicit Types (d items : dict V) (k : string) (v : V).

Lemma dict_get_app d1 d2 k :
  dict_get (d1 ++ d2) k =
  match dict_get d1 k with
  | Some v => Some v
  | None => dict_get d2 k
  end.
Proof.
  induction d1 as [| [k' v'] d1 IH]; simpl; [ reflexivity | ].
  destruct (String.eqb k' k); [ reflexivity | exact IH ].
Qed.

Lemma dict_get_In d k v : dict_get d k = Some v -> In (k, v) d.
Proof.
  induction d as [| [k' v'] d IH]; simpl; [ discriminate | ].
  destruct (String.eqb_spec k' k) as [-> | Hne].
  - intros H. injection H as ->. now left.
  - intros H. right. auto.
Qed.

Lemma dict_get_None d k :
  dict_get d k = None <-> (forall v, ~ In (k, v) d).
Proof.
  induction d as [| [k' v'] d IH]; simpl.
  - split; [ intros _ v [] | reflexivity ].
  - destruct (String.eqb_spec k' k) as [-> | Hne].
    + split; [ discriminate | intros H; exfalso; apply (H v'); now left ].
    + rewrite IH. split.
      * intros H v [Heq | Hin]; [ injection Heq as -> _; now apply Hne | exact (H v Hin) ].
      * intros H v Hin. apply (H v). now right.
Qed.

Lemma dict_get_set d k v k' :
  dict_get (dict_set d k v) k' =
  if String.eqb k k' then Some v else dict_get d k'.
Proof.
  induction d as [| [k0 v0] d IH]; simpl.
  - reflexivity.
  - destruct (String.eqb_spec k0 k) as [-> | Hne]; simpl.
    + destruct (String.eqb k k'); reflexivity.
    + rewrite IH. destruct (String.eqb_spec k0 k') as [-> | Hne'].
      * destruct (String.eqb_spec k k') as [-> | _]; [ now elim Hne | reflexivity ].
      * reflexivity.
Qed.

(** Updating item by item: the last item of a key decides its value. *)
Lemma dict_get_fold_set items : forall d k,
  dict_get (fold_left (fun d kv => dict_set d (fst kv) (snd kv)) items d) k =
  match dict_get (rev items) k with
  | Some v => Some v
  | None => dict_get d k
  end.
Proof.
  induction items as [| [k0 v0] items IH]; intros d k; simpl.
  - reflexivity.
  - rewrite IH, dict_get_app, dict_get_set. simpl.
    destruct (dict_get (rev items) k); [ reflexivity | ].
    destruct (String.eqb k0 k); reflexivity.
Qed.

Lemma dict_of_items_get items k :
  dict_get (dict_of_items items) k = dict_get (rev items) k.
Proof.
  unfold dict_of_items. rewrite dict_get_fold_set.
  destruct (dict_get (rev items) k); reflexivity.
Qed.

(** An item after which its key does not occur again is the one kept. *)
Lemma dict_of_items_last items1 items2 k v :
  (forall v', ~ In (k, v') items2) ->
  dict_get (dict_of_items (items1 ++ (k, v) :: items2)) k = Some v.
Proof.
  intros Hlast. rewrite dict_of_items_get, rev_app_distr. simpl.
  rewrite <- app_assoc, dict_get_app.
  replace (dict_get (rev items2) k) with (@None V).
  - simpl. now rewrite String.eqb_refl.
  - symmetry. apply dict_get_None. intros v' Hin.
    apply (Hlast v'). now apply in_rev.
Qed.

Lemma dict_of_items_In items k v :
  dict_get (dict_of_items items) k = Some v -> In (k, v) items.
Proof.
  rewrite dict_of_items_get. intros H. apply in_rev. now apply dict_get_In.
Qed.

Lemma dict_of_items_dom items k :
  (exists v, dict_get (dict_of_items items) k = Some v) <-> (exists v, In (k, v) items).
Proof.
  split.
  - intros [v H]. exists v. now apply dict_of_items_In.
  - intros [v H]. rewrite dict_of_items_get.
    destruct (dict_get (rev items) k) as [v' |] eqn:E; [ now exists v' | ].
    exfalso. rewrite dict_get_None in E. apply (E v). now apply in_rev in H.
Qed.

(** A dictionary with distinct keys is rebuilt unchanged from its items. *)
Lemma dict_set_fresh d k v :
  ~ In k (dict_keys d) -> dict_set d k v = d ++ [(k, v)].
Proof.
  induction d as [| [k' v'] d IH]; simpl; intros H; [ reflexivity | ].
  destruct (String.eqb_spec k' k) as [-> | Hne]; [ exfalso; auto | ].
  rewrite IH; [ reflexivity | intros Hin; apply H; now right ].
Qed.

Lemma fold_set_NoDup items : forall d,
  NoDup (dict_keys d ++ dict_keys items) ->
  fold_left (fun d kv => dict_set d (fst kv) (snd kv)) items d = d ++ items.
Proof.
  induction items as [| [k v] items IH]; intros d H; simpl.
  - now rewrite app_nil_r.
  - unfold dict_keys in *. simpl in H.
    rewrite dict_set_fresh.
    + rewrite IH; [ now rewrite <- app_assoc | ].
      unfold dict_keys. rewrite map_app. simpl. rewrite <- app_assoc. exact H.
    + apply NoDup_remove_2 in H. intros Hin. apply H. apply in_or_app. now left.
Qed.

Lemma dict_of_items_NoDup items :
  NoDup (dict_keys items) -> dict_of_items items = items.
Proof.
  intros H. unfold dict_of_items. now rewrite fold_set_NoDup.
Qed.

End DictFacts.

(* ================================================================== *)
(** ** The segmentation structures *)
(* ================================================================== *)

Lemma enumerate_from_app {A} (l1 l2 : list A) : forall k,
  enumerate_from k (l1 ++ l2) =
  enumerate_from k l1 ++ enumerate_from (k + List.length l1) l2.
Proof.
  induction l1 as [| a l1 IH]; intros k; simpl.
  - now rewrite Nat.add_0_r.
  - rewrite IH. do 3 f_equal. lia.
Qed.

(** With a class count for every segmentation task the comprehension does not
    raise and yields one item per segmentation task, in task order. *)
Lemma seg_metrics_items_ok (nc_list : list Z) : forall todo : list (nat * string),
  (forall i name, In (i, name) todo -> is_seg name = true ->
                  (i < List.length nc_list)%nat) ->
  seg_metrics_items nc_list todo =
  Ok (map (seg_metric_item nc_list) (filter (fun cn => is_seg (snd cn)) todo)).
Proof.
  induction todo as [| [i name] todo IH]; intros Hnc; simpl.
  - reflexivity.
  - rewrite IH by (intros j n Hin; apply Hnc; now right).
    destruct (is_seg name) eqn:Hseg; simpl; [ | reflexivity ].
    unfold getitem.
    destruct (nth_error nc_list i) as [nc |] eqn:E.
    + simpl. unfold seg_metric_item. simpl.
      now rewrite (nth_error_nth _ _ 0%Z E).
    + apply nth_error_None in E.
      specialize (Hnc i name (or_introl eq_refl) Hseg). lia.
Qed.

Lemma seg_item_In (nc_list : list Z) (labels_list : list string) (k : nat)
      (name : string) (sm : SegmentationMetric) :
  In (name, sm) (map (seg_metric_item nc_list)
                     (filter (fun cn => is_seg (snd cn)) (enumerate_from k labels_list))) <->
  exists i, (k <= i)%nat /\ nth_error labels_list (i - k) = Some name /\
            is_seg name = true /\ sm = {| numClass := nth i nc_list 0%Z + 1 |}.
Proof.
  rewrite in_map_iff. split.
  - intros [[i n] [Heq Hin]]. apply filter_In in Hin as [Hin Hseg].
    unfold seg_metric_item in Heq. simpl in *. injection Heq as -> <-.
    apply enumerate_from_In in Hin as [Hle Hn]. exists i. auto.
  - intros (i & Hle & Hn & Hseg & ->). exists (i, name). split; [ reflexivity | ].
    apply filter_In. split; [ | exact Hseg ]. apply enumerate_from_In. auto.
Qed.

(** C9: given a class count for every configured task, the comprehension of
    lines 116-117 and 157 succeeds; for every task whose name contains 'seg' it
    constructs a [SegmentationMetric] with that task's declared class count
    plus one; the resulting dictionary has an entry exactly for the task names
    that contain 'seg'; every entry was constructed from the class count of a
    task of that name, plus one; and a segmentation task whose name no later
    task repeats finds under its name the structure built from its own class
    count plus one. *)
Theorem seg_metrics_class_count (nc_list : list Z) (labels_list : list string) :
  (List.length labels_list <= List.length nc_list)%nat ->
  exists items m,
    seg_metrics_items nc_list (enumerate labels_list) = Ok items
    /\ init_seg_metrics nc_list labels_list = Ok m
    /\ m = dict_of_items items
    /\ (forall i name nc,
          nth_error labels_list i = Some name ->
          is_seg name = true ->
          nth_error nc_list i = Some nc ->
          In (name, {| numClass := nc + 1 |}) items)
    /\ (forall name, (exists sm, dict_get m name = Some sm) <->
                     (In name labels_list /\ is_seg name = true))
    /\ (forall name sm, dict_get m name = Some sm ->
          exists i nc, nth_error labels_list i = Some name
                       /\ nth_error nc_list i = Some nc
                       /\ sm = {| numClass := nc + 1 |})
    /\ (forall i name nc,
          nth_error labels_list i = Some name ->
          is_seg name = true ->
          nth_error nc_list i = Some nc ->
          (forall j, (i < j)%nat -> nth_error labels_list j <> Some name) ->
          dict_get m name = Some {| numClass := nc + 1 |}).
Proof.
  intros Hlen.
  assert (Hitems : seg_metrics_items nc_list (enumerate labels_list) =
                   Ok (map (seg_metric_item nc_list)
                           (filter (fun cn => is_seg (snd cn)) (enumerate labels_list)))).
  { apply seg_metrics_items_ok. intros i name Hin _.
    apply enumerate_from_In in Hin as [_ Hn].
    rewrite Nat.sub_0_r in Hn.
    assert (i < List.length labels_list)%nat by (apply nth_error_Some; congruence).
    lia. }
  do 2 eexists. split; [ exact Hitems | ].
  split; [ unfold init_seg_metrics; rewrite Hitems; reflexivity | ].
  split; [ reflexivity | ].
  split; [ | split; [ | split ] ].
  - intros i name nc Hn Hseg Hnc. apply seg_item_In. exists i.
    rewrite Nat.sub_0_r. repeat split; [ lia | exact Hn | exact Hseg | ].
    now rewrite (nth_error_nth _ _ 0%Z Hnc).
  - intros name. rewrite dict_of_items_dom. split.
    + intros [sm Hin]. apply seg_item_In in Hin as (i & _ & Hn & Hseg & _).
      split; [ eapply nth_error_In; exact Hn | exact Hseg ].
    + intros [Hin Hseg]. apply In_nth_error in Hin as [i Hn].
      eexists. apply seg_item_In. exists i.
      rewrite Nat.sub_0_r. repeat split; [ lia | exact Hn | exact Hseg ].
  - intros name sm H. apply dict_of_items_In in H.
    apply seg_item_In in H as (i & _ & Hn & _ & ->).
    rewrite Nat.sub_0_r in Hn.
    assert (Hi : (i < List.length nc_list)%nat).
    { assert (i < List.length labels_list)%nat by (apply nth_error_Some; congruence). lia. }
    exists i, (nth i nc_list 0%Z). repeat split; [ exact Hn | now apply nth_error_nth' ].
  - intros i name nc Hn Hseg Hnc Hlast.
    destruct (nth_error_split _ _ Hn) as (l1 & l2 & -> & Hl1).
    unfold enumerate. rewrite enumerate_from_app. simpl.
    rewrite filter_app, map_app. simpl. rewrite Hseg. simpl.
    unfold seg_metric_item at 2. simpl. rewrite Hl1.
    rewrite (nth_error_nth _ _ 0%Z Hnc).
    apply dict_of_items_last. intros sm Hin.
    apply seg_item_In in Hin as (j & Hle & Hj & _ & _).
    apply (Hlast j); [ lia | ].
    rewrite nth_error_app2 by lia. rewrite Hl1.
    replace (j - i)%nat with (S (j - S i)) by lia. exact Hj.
Qed.

(** C9, on a two-task configuration: detection with 3 classes, segmentation
    with 2. *)
Lemma seg_metrics_class_count_witness :
  exists items m,
    seg_metrics_items [3%Z; 2%Z] (enumerate ["det"; "seg"]) = Ok items
    /\ init_seg_metrics [3%Z; 2%Z] ["det"; "seg"] = Ok m
    /\ m = dict_of_items items
    /\ (forall i name nc,
          nth_error ["det"; "seg"] i = Some name ->
          is_seg name = true ->
          nth_error [3%Z; 2%Z] i = Some nc ->
          In (name, {| numClass := nc + 1 |}) items)
    /\ (forall name, (exists sm, dict_get m name = Some sm) <->
                     (In name ["det"; "seg"] /\ is_seg name = true))
    /\ (forall name sm, dict_get m name = Some sm ->
          exists i nc, nth_error ["det"; "seg"] i = Some name
                       /\ nth_error [3%Z; 2%Z] i = Some nc
                       /\ sm = {| numClass := nc + 1 |})
    /\ (forall i name nc,
          nth_error ["det"; "seg"] i = Some name ->
          is_seg name = true ->
          nth_error [3%Z; 2%Z] i = Some nc ->
          (forall j, (i < j)%nat -> nth_error ["det"; "seg"] j <> Some name) ->
          dict_get m name = Some {| numClass := nc + 1 |}).
Proof.
  apply (seg_metrics_class_count [3%Z; 2%Z] ["det"; "seg"]). simpl. lia.
Defined.

(** The sample configuration gives the segmentation task three classes. *)
Example init_seg_metrics_sample :
  init_seg_metrics [3%Z; 2%Z] ["det"; "seg"] = Ok [("seg", {| numClass := 3 |})].
Proof. reflexivity. Qed.

(** Of two tasks with one name the dictionary keeps the later structure. *)
Example init_seg_metrics_same_name :
  init_seg_metrics [1%Z; 2%Z] ["seg"; "seg"] = Ok [("seg", {| numClass := 3 |})].
Proof. reflexivity. Qed.

(** Every segmentation task name gets the four running means, in the order
    pixel accuracy, subset accuracy, IoU, mean IoU. *)
Lemma init_seg_result_entry (labels_list : list string) (name : string) :
  In name labels_list -> is_seg name = true ->
  dict_get (init_seg_result labels_list) name = Some seg_result_entry.
Proof.
  intros Hin Hseg. unfold init_seg_result.
  destruct (dict_get (dict_of_items _) name) as [e |] eqn:E.
  - apply dict_of_items_In in E. apply in_map_iff in E as [cn [Heq _]].
    now injection Heq as _ <-.
  - exfalso.
    assert (H : exists v, dict_get
      (dict_of_items
         (map (fun cn : nat * string => (snd cn, seg_result_entry))
              (filter (fun cn : nat * string => is_seg (snd cn)) (enumerate labels_list))))
      name = Some v).
    { apply dict_of_items_dom. exists seg_result_entry.
      apply In_nth_error in Hin as [i Hn].
      apply in_map_iff. exists (i, name). split; [ reflexivity | ].
      apply filter_In. split; [ | exact Hseg ].
      apply enumerate_from_In. rewrite Nat.sub_0_r. split; [ lia | exact Hn ]. }
    destruct H as [v H]. congruence.
Qed.

(* ================================================================== *)
(** ** The default hooks *)
(* ================================================================== *)

Section HookFacts.

Variables DatasetPath Dataset Dataloader BatchT PredsT : Type.

(** C4, as amended: a plugin that does not supply dataloader construction (or
    dataset building) raises [NotImplementedError] when the hook is invoked,
    whereas a plugin that does not supply post-processing gets the raw
    prediction back unchanged. *)
Theorem default_hooks (self : Plugin DatasetPath Dataset Dataloader BatchT PredsT) :
  (plugin_get_dataloader self = None ->
   forall dataset_path batch_size,
     get_dataloader self dataset_path batch_size =
     Raise (NotImplementedError
              "get_dataloader function not implemented for this validator"))
  /\ (plugin_build_dataset self = None ->
      forall img_path,
        build_dataset self img_path =
        Raise (NotImplementedError "build_dataset function not implemented in validator"))
  /\ (plugin_postprocess self = None ->
      forall preds, postprocess self preds = Ok preds).
Proof.
  unfold get_dataloader, build_dataset, postprocess.
  repeat split; intros ->; reflexivity.
Qed.

End HookFacts.

(** C4, amended, on the plugin that supplies nothing. *)
Lemma default_hooks_witness :
  (forall dataset_path batch_size,
     get_dataloader (bare_plugin string unit unit unit Z) dataset_path batch_size =
     Raise (NotImplementedError
              "get_dataloader function not implemented for this validator"))
  /\ (forall img_path,
        build_dataset (bare_plugin string unit unit unit Z) img_path =
        Raise (NotImplementedError "build_dataset function not implemented in validator"))
  /\ (forall preds, postprocess (bare_plugin string unit unit unit Z) preds = Ok preds).
Proof.
  destruct (default_hooks (bare_plugin string unit unit unit Z)) as (H1 & H2 & H3).
  split; [ exact (H1 eq_refl) | split; [ exact (H2 eq_refl) | exact (H3 eq_refl) ] ].
Defined.

(** C4 as stated fails: the default post-processing hook, called on a raw
    prediction, returns it; it raises nothing. *)
Lemma default_postprocess_returns :
  postprocess (bare_plugin string unit unit unit Z) 7%Z = Ok 7%Z
  /\ ~ (exists msg, postprocess (bare_plugin string unit unit unit Z) 7%Z
                    = Raise (NotImplementedError msg)).
Proof.
  split; [ reflexivity | intros [msg H]; discriminate H ].
Qed.

(* ================================================================== *)
(** ** Stage timers *)
(* ================================================================== *)

Lemma Qeq_bool_inject_nat (n : nat) :
  n <> 0%nat -> Qeq_bool (inject_Z (Z.of_nat n)) 0 = false.
Proof.
  intros Hn. destruct (Qeq_bool _ _) eqn:E; [ | reflexivity ].
  apply Qeq_bool_eq in E. unfold Qeq in E. simpl in E. lia.
Qed.

(** C5: with a non-empty dataset and, in multi-task mode, at least one task,
    finalisation replaces each of the four stage timers by its total time
    divided by the dataset's image count and multiplied by 1000; in multi-task
    mode the quotient is further divided by the number of configured tasks,
    in single-task mode it is not. *)
Theorem speed_normalization (d0 d1 d2 d3 : Profile) (n_dataset : nat)
        (labels_list : list string) :
  n_dataset <> 0%nat ->
  labels_list <> [] ->
  let n := inject_Z (Z.of_nat n_dataset) in
  let k := inject_Z (Z.of_nat (List.length labels_list)) in
  finalize_speed true speed_init (d0, d1, d2, d3) n_dataset labels_list =
  Ok [("preprocess", t d0 / n * 1000 / k); ("inference", t d1 / n * 1000 / k);
      ("loss", t d2 / n * 1000 / k); ("postprocess", t d3 / n * 1000 / k)]
  /\ finalize_speed false speed_init (d0, d1, d2, d3) n_dataset labels_list =
     Ok [("preprocess", t d0 / n * 1000); ("inference", t d1 / n * 1000);
         ("loss", t d2 / n * 1000); ("postprocess", t d3 / n * 1000)].
Proof.
  intros Hn Hl n k.
  assert (Hk : List.length labels_list <> 0%nat) by (destruct labels_list; [ congruence | discriminate ]).
  unfold finalize_speed, speed_multi, speed_single, normalize_multi, normalize_single,
    py_div, len_Q.
  subst n k. simpl.
  rewrite (Qeq_bool_inject_nat Hn), (Qeq_bool_inject_nat Hk). simpl.
  split; reflexivity.
Qed.

(** C5 on a run over 8 images with two tasks. *)
Lemma speed_normalization_witness :
  finalize_speed true speed_init
                 ({| t := 4 |}, {| t := 16 |}, {| t := 0 |}, {| t := 8 |}) 8 ["det"; "seg"] =
  Ok [("preprocess", 4 / 8 * 1000 / 2); ("inference", 16 / 8 * 1000 / 2);
      ("loss", 0 / 8 * 1000 / 2); ("postprocess", 8 / 8 * 1000 / 2)]
  /\ finalize_speed false speed_init
                    ({| t := 4 |}, {| t := 16 |}, {| t := 0 |}, {| t := 8 |}) 8 ["det"; "seg"] =
     Ok [("preprocess", 4 / 8 * 1000); ("inference", 16 / 8 * 1000);
         ("loss", 0 / 8 * 1000); ("postprocess", 8 / 8 * 1000)].
Proof.
  apply (@speed_normalization {| t := 4 |} {| t := 16 |} {| t := 0 |} {| t := 8 |}
                              8%nat ["det"; "seg"]); discriminate.
Defined.

(* ================================================================== *)
(** ** The JSON export *)
(* ================================================================== *)

Lemma app_singleton_neq {A} (l : list A) (a : A) : l ++ [a] <> l.
Proof.
  intros H. apply (f_equal (@List.length A)) in H.
  rewrite length_app in H. simpl in H. lia.
Qed.

Lemma truthy_nonempty {A} (l : list A) : truthy l = true <-> l <> [].
Proof.
  destruct l; simpl; split; congruence.
Qed.

Section JsonFacts.

Variable StatsT : Type.
Variable eval_json : StatsT -> result StatsT.

(** The export step writes one file, the whole of [jdict], or nothing. *)
Lemma finalize_standalone_files (args : ValArgs) (jdict : list JsonRecord)
      (save_dir : string) (stats : StatsT) (fs : FileLog) :
  fst (finalize_standalone eval_json args jdict save_dir stats fs) =
  if save_json args && truthy jdict
  then fs ++ [(predictions_json save_dir, jdict)]
  else fs.
Proof.
  unfold finalize_standalone, predictions_json.
  destruct (save_json args && truthy jdict); reflexivity.
Qed.

End JsonFacts.

Section ReturnFacts.

Variable LossT : Type.
Variable tensor_div : LossT -> nat -> LossT.
Variable label_loss_items_val : LossT -> string -> string -> result (dict value).
Variable label_loss_items : LossT -> string -> result (dict value).
Variable eval_json_multi : list pyobj -> result (list pyobj).
Variable eval_json_single : pyobj -> result pyobj.

(** C6: in standalone mode, multi-task or not, the run leaves the files as
    they were extended by [predictions.json] holding the accumulated records
    if and only if JSON export is enabled and at least one record was
    accumulated; otherwise it leaves the files untouched. Nested in training
    it never writes. *)
Theorem json_written_iff (args : ValArgs) (labels_list : list string)
        (stats_multi : list pyobj) (loss_multi : list LossT)
        (stats_single : pyobj) (loss_single : LossT) (n_batches : nat)
        (seg_result : dict (dict AverageMeter)) (jdict : list JsonRecord)
        (save_dir : string) (fs : FileLog) :
  let multi training :=
    fst (return_multi tensor_div label_loss_items_val eval_json_multi training args
                      labels_list stats_multi loss_multi n_batches seg_result
                      jdict save_dir fs) in
  let single training :=
    fst (return_single tensor_div label_loss_items eval_json_single training args
                       stats_single loss_single n_batches jdict save_dir fs) in
  let written fs' := fs' = fs ++ [(predictions_json save_dir, jdict)] in
  let enabled_and_nonempty := save_json args = true /\ jdict <> [] in
  (written (multi false) <-> enabled_and_nonempty)
  /\ (multi false = fs <-> ~ enabled_and_nonempty)
  /\ (written (single false) <-> enabled_and_nonempty)
  /\ (single false = fs <-> ~ enabled_and_nonempty)
  /\ multi true = fs
  /\ single true = fs.
Proof.
  intros multi single written enabled_and_nonempty.
  assert (Hm : multi false = if save_json args && truthy jdict
                             then fs ++ [(predictions_json save_dir, jdict)] else fs).
  { subst multi. unfold return_multi.
    rewrite <- (finalize_standalone_files eval_json_multi args jdict save_dir stats_multi fs).
    destruct (finalize_standalone _ _ _ _ _ _); reflexivity. }
  assert (Hs : single false = if save_json args && truthy jdict
                              then fs ++ [(predictions_json save_dir, jdict)] else fs).
  { subst single. unfold return_single.
    rewrite <- (finalize_standalone_files eval_json_single args jdict save_dir stats_single fs).
    destruct (finalize_standalone _ _ _ _ _ _); reflexivity. }
  assert (Hcond : save_json args && truthy jdict = true <-> enabled_and_nonempty).
  { subst enabled_and_nonempty. rewrite andb_true_iff, truthy_nonempty. tauto. }
  subst written. simpl. rewrite Hm, Hs.
  assert (Ht : multi true = fs /\ single true = fs) by (split; reflexivity).
  destruct Ht as [Htm Hts].
  destruct (save_json args && truthy jdict).
  - assert (He : enabled_and_nonempty) by (now apply Hcond).
    repeat (split; [ split; intros Hx; first [ assumption | tauto
                       | exfalso; eapply app_singleton_neq; eassumption ] | ]).
    split; assumption.
  - assert (He : ~ enabled_and_nonempty) by (intros Hx; apply Hcond in Hx; discriminate).
    repeat (split; [ split; intros Hx; first [ assumption | reflexivity | tauto
                       | exfalso; eapply app_singleton_neq; symmetry; eassumption ] | ]).
    split; assumption.
Qed.

End ReturnFacts.

Section PredToJsonFacts.

Variable path_stem : string -> string.
Variable isnumeric : string -> bool.
Variable int_of_str : string -> Z.
Variable xyxy2xywh : Box -> Box.

(** The export list only grows: a call that succeeds appends one record per
    row of the prediction. *)
Lemma pred_to_json_loop_length (class_map : list Z) (iid : image_id_t) :
  forall (rows : list DetRow) (jdict jdict' : list JsonRecord),
    pred_to_json_loop xyxy2xywh class_map iid jdict rows = (jdict', Ok tt) ->
    List.length jdict' = (List.length jdict + List.length rows)%nat.
Proof.
  induction rows as [| p rows IH]; intros jdict jdict' H; simpl in H.
  - injection H as <-. simpl. lia.
  - destruct (json_record xyxy2xywh class_map iid p) as [r | e]; [ | discriminate ].
    apply IH in H. rewrite H, length_app. simpl. lia.
Qed.

Lemma pred_to_json_length (class_map : list Z) (jdict jdict' : list JsonRecord)
      (predn : list DetRow) (filename : string) :
  pred_to_json path_stem isnumeric int_of_str xyxy2xywh class_map jdict predn filename
  = (jdict', Ok tt) ->
  List.length jdict' = (List.length jdict + List.length predn)%nat.
Proof.
  unfold pred_to_json. apply pred_to_json_loop_length.
Qed.

End PredToJsonFacts.

(** One retained detection of image 000139 becomes one record: a numeric
    stem is the image id, the box is top-left, width, height. *)
Example pred_to_json_sample :
  pred_to_json Ops.path_stem Ops.isnumeric Ops.int_of_str Ops.xyxy2xywh
               [1%Z; 2%Z] [] [SampleDet.row0] "images/000139.jpg"
  = ([{| image_id := IdInt 139; category_id := 1;
         bbox := [py_round 0 3; py_round 80 3; py_round 640 3; py_round 480 3];
         score := py_round (9 # 10) 5 |}], Ok tt).
Proof. vm_compute. reflexivity. Qed.

(** Export disabled: nothing is written although a record exists. Export
    enabled with no record: nothing is written either. *)
Example export_guards (r : JsonRecord) (stats : pyobj) :
  fst (finalize_standalone (fun s => Ok s) {| save_json := false; plots := false |}
                           [r] "runs/val" stats [])
  = []
  /\ fst (finalize_standalone (fun s => Ok s) {| save_json := true; plots := false |}
                              [] "runs/val" stats [])
     = []
  /\ fst (finalize_standalone (fun s => Ok s) {| save_json := true; plots := false |}
                              [r] "runs/val" stats [])
     = [("runs/val/predictions.json", [r])].
Proof. repeat split. Qed.

(* ================================================================== *)
(** ** What nested mode returns *)
(* ================================================================== *)

Lemma map_result_nth {A B} (f : A -> result B) : forall (xs : list A) (ys : list B),
  map_result f xs = Ok ys ->
  forall i x, nth_error xs i = Some x ->
              exists y, nth_error ys i = Some y /\ f x = Ok y.
Proof.
  induction xs as [| a xs IH]; intros ys H i x Hn.
  - destruct i; discriminate.
  - simpl in H. apply bind_ok in H as (y & Hy & H).
    apply bind_ok in H as (ys' & Hys & H). injection H as <-.
    destruct i as [| i]; simpl in *.
    + injection Hn as <-. exists y. auto.
    + eapply IH; eauto.
Qed.

Lemma map_result_total {A B} (f : A -> result B) : forall xs : list A,
  (forall x, In x xs -> is_ok (f x) = true) ->
  exists ys, map_result f xs = Ok ys.
Proof.
  induction xs as [| a xs IH]; intros Hall; simpl.
  - now exists [].
  - destruct (f a) as [y | e] eqn:E.
    + destruct IH as [ys Hys]; [ intros x Hx; apply Hall; now right | ].
      rewrite Hys. simpl. now exists (y :: ys).
    + specialize (Hall a (or_introl eq_refl)). rewrite E in Hall. discriminate.
Qed.

Lemma map_result_In {A B} (f : A -> result B) : forall (xs : list A) (ys : list B),
  map_result f xs = Ok ys ->
  forall y, In y ys -> exists x, In x xs /\ f x = Ok y.
Proof.
  induction xs as [| a xs IH]; intros ys H y Hin; simpl in H.
  - injection H as <-. destruct Hin.
  - apply bind_ok in H as (y0 & Hy & H).
    apply bind_ok in H as (ys' & Hys & H). injection H as <-.
    destruct Hin as [<- | Hin].
    + exists a. split; [ now left | exact Hy ].
    + destruct (IH ys' Hys y Hin) as (x & Hx & Hfx). exists x. split; [ now right | exact Hfx ].
Qed.

Lemma dict_set_In_inv {V} (d : dict V) (k : string) (v : V) (kv : string * V) :
  In kv (dict_set d k v) -> kv = (k, v) \/ In kv d.
Proof.
  induction d as [| [k' v'] d IH]; simpl.
  - intros [<- | []]. now left.
  - destruct (String.eqb_spec k' k) as [-> | Hne]; simpl.
    + intros [<- | Hin]; [ now left | right; now right ].
    + intros [<- | Hin]; [ right; now left | ].
      destruct (IH Hin) as [-> | Hd]; [ now left | right; now right ].
Qed.

Lemma dict_of_items_In_inv {V} (items : list (string * V)) (kv : string * V) :
  In kv (dict_of_items items) -> In kv items.
Proof.
  unfold dict_of_items.
  assert (G : forall d, In kv (fold_left (fun d kv => dict_set d (fst kv) (snd kv)) items d)
                        -> In kv d \/ In kv items).
  { induction items as [| [k v] items IH]; intros d H; simpl in *.
    - now left.
    - destruct (IH _ H) as [Hd | Hi]; [ | right; now right ].
      destruct (dict_set_In_inv _ _ _ _ Hd) as [-> | Hd']; [ right; now left | now left ]. }
  intros H. destruct (G [] H) as [[] | Hi]. exact Hi.
Qed.

Lemma py_round_rounded (x : Q) (n : nat) : rounded_to n (py_round x n).
Proof.
  exists (round_half_even (x * pow10 n)). reflexivity.
Qed.

(** Every value the rounding comprehension yields has 5 decimal places. *)
Lemma round_items_rounded (results : dict value) (d : dict Q) :
  round_items results = Ok d ->
  Forall (rounded_to 5) (dict_values d).
Proof.
  unfold round_items. intros H. apply bind_ok in H as (items & Hitems & H).
  injection H as <-. apply Forall_forall. intros v Hv.
  apply in_map_iff in Hv as [[k v'] [Heq Hin]]. simpl in Heq. subst v'.
  apply dict_of_items_In_inv in Hin.
  destruct (map_result_In _ _ Hitems _ Hin) as ([k0 v0] & _ & Hf).
  apply bind_ok in Hf as (x & _ & Hf). injection Hf as _ <-.
  apply py_round_rounded.
Qed.

Section FinalizeFacts.

Variable LossT : Type.
Variable tensor_div : LossT -> nat -> LossT.
Variable label_loss_items_val : LossT -> string -> string -> result (dict value).
Variable label_loss_items : LossT -> string -> result (dict value).

(** The loop appends the per-task dictionaries in task order. *)
Lemma results_loop_map (stats : list pyobj) (loss : list LossT) (n_batches : nat)
      (seg_result : dict (dict AverageMeter)) :
  forall (todo : list (nat * string)) (acc : list (dict Q)),
    results_loop tensor_div label_loss_items_val stats loss n_batches seg_result acc todo =
    (ds <- map_result (finalize_task tensor_div label_loss_items_val
                                     stats loss n_batches seg_result) todo ;;
     Ok (acc ++ ds)).
Proof.
  induction todo as [| il todo IH]; intros acc; simpl.
  - now rewrite app_nil_r.
  - destruct (finalize_task _ _ _ _ _ _ il) as [d | e]; simpl; [ | reflexivity ].
    rewrite IH. destruct (map_result _ todo) as [ds | e]; simpl; [ | reflexivity ].
    now rewrite <- app_assoc.
Qed.

Lemma finalize_multi_training_map (labels_list : list string) (stats : list pyobj)
      (loss : list LossT) (n_batches : nat) (seg_result : dict (dict AverageMeter)) :
  finalize_multi_training tensor_div label_loss_items_val
                          labels_list stats loss n_batches seg_result =
  map_result (finalize_task tensor_div label_loss_items_val
                            stats loss n_batches seg_result) (enumerate labels_list).
Proof.
  unfold finalize_multi_training. rewrite results_loop_map.
  destruct (map_result _ _); reflexivity.
Qed.

(** Single-task nested mode: every returned value has 5 decimal places. *)
Lemma single_training_rounded (stats : pyobj) (loss : LossT) (n_batches : nat)
      (d : dict Q) :
  finalize_single_training tensor_div label_loss_items stats loss n_batches = Ok d ->
  Forall (rounded_to 5) (dict_values d).
Proof.
  unfold finalize_single_training. intros H.
  apply bind_ok in H as (sd & _ & H). apply bind_ok in H as (items & _ & H).
  now apply round_items_rounded in H.
Qed.

(** Multi-task nested mode: the mapping of a task whose merge succeeds has
    only values with 5 decimal places. *)
Lemma merged_task_rounded (stats : list pyobj) (loss : list LossT) (n_batches : nat)
      (seg_result : dict (dict AverageMeter)) (i : nat) (label_name : string)
      (d : dict Q) :
  merge_task tensor_div label_loss_items_val stats loss n_batches i label_name = Ok d ->
  finalize_task tensor_div label_loss_items_val stats loss n_batches seg_result
                (i, label_name) = Ok d
  /\ Forall (rounded_to 5) (dict_values d).
Proof.
  intros H. split.
  - unfold finalize_task. now rewrite H.
  - unfold merge_task in H.
    apply bind_ok in H as (s & _ & H). apply bind_ok in H as (sd & _ & H).
    apply bind_ok in H as (l & _ & H). apply bind_ok in H as (items & _ & H).
    now apply round_items_rounded in H.
Qed.

(** C2: for a task whose merge of statistics and loss items raises, and whose
    name has a segmentation result structure (the four running means
    pixacc, subacc, IoU, mIoU), the error is swallowed and the task's mapping
    is exactly [{'fitness': IoU.avg + mIoU.avg}]; this is what the returned
    list holds at the task's index, and the run does return when the other
    tasks are finalised without error. *)
Theorem fallback_fitness (labels_list : list string) (stats : list pyobj)
        (loss : list LossT) (n_batches : nat) (seg_result : dict (dict AverageMeter))
        (i : nat) (name : string) (e : exn) (m0 m1 m2 m3 : AverageMeter) :
  let task := finalize_task tensor_div label_loss_items_val
                            stats loss n_batches seg_result in
  let run := finalize_multi_training tensor_div label_loss_items_val
                                     labels_list stats loss n_batches seg_result in
  nth_error labels_list i = Some name ->
  merge_task tensor_div label_loss_items_val stats loss n_batches i name = Raise e ->
  dict_get seg_result name =
    Some [("pixacc", m0); ("subacc", m1); ("IoU", m2); ("mIoU", m3)] ->
  task (i, name) = Ok [("fitness", avg m2 + avg m3)]
  /\ (forall results_list, run = Ok results_list ->
        nth_error results_list i = Some [("fitness", avg m2 + avg m3)])
  /\ ((forall j other, j <> i -> nth_error labels_list j = Some other ->
                       is_ok (task (j, other)) = true) ->
      exists results_list, run = Ok results_list).
Proof.
  intros task run Hn Hmerge Hseg.
  assert (Htask : task (i, name) = Ok [("fitness", avg m2 + avg m3)]).
  { subst task. unfold finalize_task. rewrite Hmerge. simpl.
    unfold fitness_fallback, dict_getitem. rewrite Hseg. reflexivity. }
  subst run. rewrite finalize_multi_training_map. fold task.
  split; [ exact Htask | split ].
  - intros results_list Hrun.
    destruct (map_result_nth _ _ Hrun i (enumerate_from_nth _ 0 _ Hn)) as (d & Hd & Hfd).
    change (0 + i)%nat with i in Hfd. rewrite Htask in Hfd. now injection Hfd as <-.
  - intros Hothers. apply map_result_total. intros [j other] Hin.
    apply enumerate_from_In in Hin as [_ Hj]. rewrite Nat.sub_0_r in Hj.
    destruct (Nat.eq_dec j i) as [-> | Hne].
    + rewrite Hn in Hj. injection Hj as <-. now rewrite Htask.
    + now apply Hothers.
Qed.

End FinalizeFacts.

(** C2 on the sample run: the segmentation task, second of two, has no
    mapping to merge. *)
Lemma fallback_fitness_witness :
  let task := finalize_task Sample.tensor_div Sample.label_loss_items_val
                            Sample.stats Sample.loss Sample.n_batches Sample.seg_result in
  let run := finalize_multi_training Sample.tensor_div Sample.label_loss_items_val
                                     Sample.labels_list Sample.stats Sample.loss
                                     Sample.n_batches Sample.seg_result in
  task (1%nat, "seg") = Ok [("fitness", (1 # 3) + (1 # 4))]
  /\ (forall results_list, run = Ok results_list ->
        nth_error results_list 1 = Some [("fitness", (1 # 3) + (1 # 4))])
  /\ ((forall j other, j <> 1%nat -> nth_error Sample.labels_list j = Some other ->
                       is_ok (task (j, other)) = true) ->
      exists results_list, run = Ok results_list).
Proof.
  apply (@fallback_fitness Q Sample.tensor_div Sample.label_loss_items_val
           Sample.labels_list Sample.stats Sample.loss Sample.n_batches Sample.seg_result
           1%nat "seg" TypeError
           {| avg := 9 # 10 |} {| avg := 4 # 5 |} {| avg := 1 # 3 |} {| avg := 1 # 4 |});
    reflexivity.
Defined.

Lemma seven_twelfths_not_rounded : ~ rounded_to 5 ((1 # 3) + (1 # 4)).
Proof.
  intros [k Hk]. unfold Qeq, pow10 in Hk. simpl in Hk. lia.
Qed.

(** C3, on the sample run nested in training: the detection task's mapping
    holds only values with 5 decimal places, but the segmentation task, whose
    merge raises, comes back as [{'fitness': 1/3 + 1/4}], a value that is not
    rounded to 5 decimal places ([round] would give 0.58333). *)
Theorem fallback_fitness_not_rounded :
  finalize_multi_training Sample.tensor_div Sample.label_loss_items_val
                          Sample.labels_list Sample.stats Sample.loss
                          Sample.n_batches Sample.seg_result
  = Ok [[("fitness", py_round (1 # 2) 5); ("val/det_loss", py_round (1 / 4) 5)];
        [("fitness", (1 # 3) + (1 # 4))]]
  /\ ~ rounded_to 5 ((1 # 3) + (1 # 4))
  /\ py_round ((1 # 3) + (1 # 4)) 5 == 58333 # 100000.
Proof.
  split; [ reflexivity | split; [ exact seven_twelfths_not_rounded | reflexivity ] ].
Qed.

(* ================================================================== *)
(** ** Detection post-processing *)
(* ================================================================== *)

Section PostprocessDetFacts.

Variables RawDet Img Names : Type.
Variable shape_of : Img -> list nat.
Variable non_max_suppression :
  RawDet -> Q -> Q -> bool -> Z -> option (list Z) -> list (list DetRow).
Variable scale_boxes : list nat -> Box -> list nat -> Box.

Lemma postprocess_det_step_spec (img_shape : list nat) (orig_imgs : OrigImgs Img)
      (batch0 : Paths) (names : Names) (acc results : list (Results Img Names))
      (ip : nat * list DetRow) :
  postprocess_det_step shape_of scale_boxes img_shape orig_imgs batch0 names acc ip
  = Ok results ->
  exists r, results = acc ++ [r]
            /\ result_for shape_of scale_boxes img_shape orig_imgs batch0 names ip r.
Proof.
  destruct ip as [i pred]. unfold postprocess_det_step, result_for. intros H.
  apply bind_ok in H as (orig_img & Himg & H).
  apply bind_ok in H as (img_path & Hpath & H). injection H as <-.
  eexists. split; [ reflexivity | ]. simpl.
  repeat split.
  - destruct orig_imgs; [ now apply getitem_ok | congruence | congruence ].
  - destruct batch0; [ now apply getitem_ok | congruence ].
  - destruct orig_imgs; reflexivity.
Qed.

Lemma postprocess_det_loop_spec (img_shape : list nat) (orig_imgs : OrigImgs Img)
      (batch0 : Paths) (names : Names) :
  forall (todo : list (nat * list DetRow)) (acc results : list (Results Img Names)),
    postprocess_det_loop shape_of scale_boxes img_shape orig_imgs batch0 names acc todo
    = Ok results ->
    exists rs, results = acc ++ rs
               /\ Forall2 (result_for shape_of scale_boxes img_shape orig_imgs batch0 names)
                          todo rs.
Proof.
  induction todo as [| ip todo IH]; intros acc results H; simpl in H.
  - injection H as <-. exists []. split; [ now rewrite app_nil_r | constructor ].
  - apply bind_ok in H as (acc' & Hstep & H).
    apply postprocess_det_step_spec in Hstep as (r & -> & Hr).
    apply IH in H as (rs & -> & Hrs).
    exists (r :: rs). split; [ now rewrite <- app_assoc | now constructor ].
Qed.



End PostprocessDetFacts.


Lemma Ops_clip_inside (lo hi y x : Q) :
  y == x -> lo <= x -> x <= hi -> Ops.clip lo hi y == x.
Proof.
  intros E Hlo Hhi. unfold Ops.clip. rewrite E.
  rewrite (Q.min_r hi x) by exact Hhi. now apply Q.max_r.
Qed.

(** Between equal resolutions the sample [scale_boxes] leaves a box that lies
    inside the image where it is: for a tensor original that is the network
    input itself, the retained box is already the remapped one. *)
Lemma Ops_scale_boxes_same_resolution (h w : nat) (rest rest' : list nat)
      (x1 y1 x2 y2 : Q) :
  (0 < h)%nat -> (0 < w)%nat ->
  0 <= x1 <= inject_Z (Z.of_nat w) -> 0 <= x2 <= inject_Z (Z.of_nat w) ->
  0 <= y1 <= inject_Z (Z.of_nat h) -> 0 <= y2 <= inject_Z (Z.of_nat h) ->
  box_eq (Ops.scale_boxes (h :: w :: rest') (x1, y1, x2, y2) (h :: w :: rest))
         (x1, y1, x2, y2).
Proof.
  intros Hh Hw Hx1 Hx2 Hy1 Hy2. unfold Ops.scale_boxes, Ops.dim, box_eq.
  cbn [nth].
  set (H := inject_Z (Z.of_nat h)) in *. set (W := inject_Z (Z.of_nat w)) in *.
  assert (HH : 0 < H) by (unfold H; change 0 with (inject_Z 0); rewrite <- Zlt_Qlt; lia).
  assert (HW : 0 < W) by (unfold W; change 0 with (inject_Z 0); rewrite <- Zlt_Qlt; lia).
  set (gain := Qmin (H / H) (W / W)).
  assert (Hg : gain == 1).
  { unfold gain. destruct (Q.min_dec (H / H) (W / W)) as [E | E]; rewrite E; field; lra. }
  assert (Hid : forall d x, (x - (d - d * gain) / 2) / gain == x).
  { intros d x. rewrite Hg. field. }
  repeat split; apply Ops_clip_inside; try apply Hid; lra.
Qed.

(** The sample batch with the original given as the 640 x 640 tensor the
    network works on: the retained box is returned as it is, and it is the box
    [scale_boxes] gives between these two equal resolutions. *)
Example postprocess_det_tensor_same_resolution :
  exists r,
    postprocess_det SampleDet.shape_of Ops.non_max_suppression Ops.scale_boxes
                    SampleDet.args (PathOne "bus.jpg") tt SampleDet.raw
                    SampleDet.img_shape SampleDet.as_tensor = Ok [r]
    /\ res_boxes r = [SampleDet.row0]
    /\ box_eq (Ops.scale_boxes (skipn 2 SampleDet.img_shape) (row_box SampleDet.row0)
                               (skipn 2 (SampleDet.shape_of (res_orig_img r))))
              (row_box SampleDet.row0).
Proof.
  eexists. split; [ reflexivity | ]. split; [ reflexivity | ].
  apply (@Ops_scale_boxes_same_resolution 640 640 [] []); try lia;
    split; vm_compute; discriminate.
Qed.


(* ================================================================== *)
(** ** Segmentation post-processing *)
(* ================================================================== *)

Lemma zip_with_length {A B C} (f : A -> B -> C) : forall (xs : list A) (ys : list B),
  List.length (zip_with f xs ys) = Nat.min (List.length xs) (List.length ys).
Proof.
  induction xs as [| x xs IH]; intros [| y ys]; simpl; auto.
Qed.

Lemma zip_with_Forall {A B C} (f : A -> B -> C) (P : A -> Prop) (R : B -> Prop)
      (S : C -> Prop) :
  (forall a b, P a -> R b -> S (f a b)) ->
  forall xs ys, Forall P xs -> Forall R ys -> Forall S (zip_with f xs ys).
Proof.
  intros Hf. induction xs as [| x xs IH]; intros [| y ys] Hx Hy; simpl; auto.
  inversion Hx; inversion Hy; subst. constructor; auto.
Qed.

Lemma map_plane_map_plane {A B C} (f : B -> C) (g : A -> B) (p : Plane A) :
  map_plane f (map_plane g p) = map_plane (fun x => f (g x)) p.
Proof.
  unfold map_plane. rewrite map_map. apply map_ext. intros row. apply map_map.
Qed.

Lemma map_plane_shape {A B} (f : A -> B) (h w : nat) (p : Plane A) :
  plane_shape h w p -> plane_shape h w (map_plane f p).
Proof.
  intros [Hh Hw]. unfold plane_shape, map_plane. rewrite length_map. split; [ exact Hh | ].
  apply Forall_map. eapply Forall_impl; [ | exact Hw ].
  intros row Hrow. simpl. now rewrite length_map.
Qed.

(** *** Shapes and label range of the reduction *)

Lemma max_step_shape (c h w : nat) (best : Plane (Q * nat)) (plane : Plane Q) :
  plane_shape h w best -> plane_shape h w plane ->
  plane_shape h w (max_step c best plane).
Proof.
  intros [Hbh Hbw] [Hph Hpw]. unfold plane_shape, max_step.
  rewrite zip_with_length, Hbh, Hph, Nat.min_id. split; [ reflexivity | ].
  eapply zip_with_Forall; [ | exact Hbw | exact Hpw ].
  intros rb rp Hrb Hrp. simpl in *. now rewrite zip_with_length, Hrb, Hrp, Nat.min_id.
Qed.

Lemma max_step_indices (c : nat) (best : Plane (Q * nat)) (plane : Plane Q) :
  indices_below c best -> indices_below (S c) (max_step c best plane).
Proof.
  intros Hb. unfold indices_below, max_step.
  apply zip_with_Forall with (P := Forall (fun b : Q * nat => (snd b < c)%nat))
                             (R := fun _ => True);
    [ | exact Hb | apply Forall_forall; auto ].
  intros rb rp Hrb _.
  apply zip_with_Forall with (P := fun b : Q * nat => (snd b < c)%nat)
                             (R := fun _ => True);
    [ | exact Hrb | apply Forall_forall; auto ].
  intros b x Hlt _. destruct (Qltb (fst b) x); simpl; lia.
Qed.

Lemma max_planes_shape (h w : nat) : forall (planes : list (Plane Q)) (c : nat)
                                            (best : Plane (Q * nat)),
  plane_shape h w best -> Forall (plane_shape h w) planes ->
  plane_shape h w (max_planes c best planes).
Proof.
  induction planes as [| p planes IH]; intros c best Hb Hp; simpl; [ exact Hb | ].
  inversion Hp; subst. apply IH; [ now apply max_step_shape | assumption ].
Qed.

Lemma max_planes_indices : forall (planes : list (Plane Q)) (c : nat)
                                  (best : Plane (Q * nat)),
  indices_below c best ->
  indices_below (c + List.length planes) (max_planes c best planes).
Proof.
  induction planes as [| p planes IH]; intros c best Hb; simpl.
  - now rewrite Nat.add_0_r.
  - replace (c + S (List.length planes))%nat with (S c + List.length planes)%nat by lia.
    apply IH. now apply max_step_indices.
Qed.

Lemma max_dim1_image_shape (c h w : nat) (img : Tensor3 Q) :
  (0 < c)%nat -> tensor3_shape c h w img ->
  exists values labels,
    max_dim1_image img = Ok (values, labels)
    /\ plane_shape h w values
    /\ plane_shape h w labels
    /\ Forall (Forall (fun label => (label < c)%nat)) labels.
Proof.
  intros Hc [Hlen Hplanes]. destruct img as [| p0 rest]; [ simpl in Hlen; lia | ].
  inversion Hplanes as [| ? ? Hp0 Hrest]; subst. simpl.
  set (best := max_planes 1 (map_plane (fun x : Q => (x, 0%nat)) p0) rest).
  assert (Hshape : plane_shape h w best).
  { apply max_planes_shape; [ now apply map_plane_shape | exact Hrest ]. }
  assert (Hidx : indices_below (1 + List.length rest) best).
  { apply max_planes_indices. unfold indices_below, map_plane.
    apply Forall_map, Forall_forall. intros row _.
    apply Forall_map, Forall_forall. intros x _. simpl. lia. }
  do 2 eexists. split; [ reflexivity | ].
  split; [ now apply map_plane_shape | split; [ now apply map_plane_shape | ] ].
  unfold map_plane. apply Forall_map. eapply Forall_impl; [ | exact Hidx ].
  intros row Hrow. apply Forall_map. exact Hrow.
Qed.

Lemma torch_max_dim1_shape (n c h w : nat) (x : Tensor4 Q) :
  (0 < c)%nat -> tensor4_shape n c h w x ->
  exists values labels,
    torch_max_dim1 x = Ok (values, labels)
    /\ tensor3_shape n h w labels
    /\ labels_below c labels.
Proof.
  intros Hc [Hn Himgs]. unfold torch_max_dim1, tensor3_shape, labels_below.
  subst n. induction x as [| img x IH]; simpl.
  - do 2 eexists. repeat split; constructor.
  - inversion Himgs as [| ? ? Himg Hx]; subst.
    destruct (max_dim1_image_shape Hc Himg) as (v & l & -> & _ & Hl & Hlt). simpl.
    destruct (IH Hx) as (vs & ls & Hrun & [Hlen Hls] & Hlts).
    destruct (map_result max_dim1_image x) as [per_image | e]; [ | discriminate ].
    simpl in *. injection Hrun as <- <-.
    do 2 eexists. split; [ reflexivity | ].
    split; [ split | ]; [ simpl; now rewrite Hlen | now constructor | now constructor ].
Qed.

(** *** The activation and the reduction commute *)

Lemma Qltb_lt (x y : Q) : Qltb x y = true <-> x < y.
Proof.
  unfold Qltb. rewrite negb_true_iff. split.
  - intros H. apply Qnot_le_lt. intros Hle. apply Qle_bool_iff in Hle. congruence.
  - intros H. destruct (Qle_bool y x) eqn:E; [ | reflexivity ].
    apply Qle_bool_iff in E. exfalso. exact (Qlt_not_le _ _ H E).
Qed.

Lemma zip_with_map_on {A B C A' B' C'} (f : A -> B -> C) (f' : A' -> B' -> C')
      (g : A' -> A) (h : B' -> B) (k : C' -> C) (P : A' -> Prop) (R : B' -> Prop) :
  (forall a b, P a -> R b -> f (g a) (h b) = k (f' a b)) ->
  forall xs ys, Forall P xs -> Forall R ys ->
                zip_with f (map g xs) (map h ys) = map k (zip_with f' xs ys).
Proof.
  intros Hf. induction xs as [| x xs IH]; intros [| y ys] Hx Hy; simpl; auto.
  inversion Hx; inversion Hy; subst. now rewrite Hf, IH.
Qed.

Section Monotone.

Variable sigmoid : Q -> Q.

(** The scores on which the activation keeps the order: there equal scores
    get equal values and a larger score gets a larger value. *)
Variable scores : Q -> Prop.
Hypothesis sigmoid_compat :
  forall x y, scores x -> scores y -> x == y -> sigmoid x == sigmoid y.
Hypothesis sigmoid_increasing :
  forall x y, scores x -> scores y -> x < y -> sigmoid x < sigmoid y.

(** On such scores the activation preserves and reflects the order. *)
Lemma Qltb_sigmoid (x y : Q) :
  scores x -> scores y -> Qltb (sigmoid x) (sigmoid y) = Qltb x y.
Proof.
  intros Hx Hy. destruct (Qltb x y) eqn:E.
  - apply Qltb_lt. apply sigmoid_increasing; [ assumption | assumption | ].
    now apply Qltb_lt.
  - destruct (Qltb (sigmoid x) (sigmoid y)) eqn:E'; [ | reflexivity ].
    apply Qltb_lt in E'. exfalso.
    destruct (Q_dec x y) as [[Hlt | Hgt] | Heq].
    + apply Qltb_lt in Hlt. congruence.
    + apply (sigmoid_increasing Hy Hx) in Hgt.
      exact (Qlt_irrefl _ (Qlt_trans _ _ _ E' Hgt)).
    + apply (sigmoid_compat Hx Hy) in Heq. rewrite Heq in E'.
      exact (Qlt_irrefl _ E').
Qed.

Lemma max_step_sigmoid (c : nat) (best : Plane (Q * nat)) (plane : Plane Q) :
  plane_all (fun b : Q * nat => scores (fst b)) best -> plane_all scores plane ->
  max_step c (map_plane (on_value sigmoid) best) (map_plane sigmoid plane) =
  map_plane (on_value sigmoid) (max_step c best plane).
Proof.
  intros Hb Hp. unfold max_step, map_plane.
  eapply zip_with_map_on; [ | exact Hb | exact Hp ].
  intros rb rp Hrb Hrp. eapply zip_with_map_on; [ | exact Hrb | exact Hrp ].
  intros b x Hbs Hxs. unfold on_value at 1 2. simpl.
  rewrite Qltb_sigmoid by assumption. destruct (Qltb (fst b) x); reflexivity.
Qed.

(** The running maxima are scores of the planes seen so far. *)
Lemma max_step_scores (c : nat) (best : Plane (Q * nat)) (plane : Plane Q) :
  plane_all (fun b : Q * nat => scores (fst b)) best -> plane_all scores plane ->
  plane_all (fun b : Q * nat => scores (fst b)) (max_step c best plane).
Proof.
  intros Hb Hp. unfold plane_all, max_step.
  eapply zip_with_Forall; [ | exact Hb | exact Hp ].
  intros rb rp Hrb Hrp. eapply zip_with_Forall; [ | exact Hrb | exact Hrp ].
  intros b x Hbs Hxs. simpl in *. destruct (Qltb (fst b) x); assumption.
Qed.

Lemma max_planes_sigmoid : forall (planes : list (Plane Q)) (c : nat)
                                  (best : Plane (Q * nat)),
  plane_all (fun b : Q * nat => scores (fst b)) best ->
  Forall (plane_all scores) planes ->
  max_planes c (map_plane (on_value sigmoid) best) (map (map_plane sigmoid) planes) =
  map_plane (on_value sigmoid) (max_planes c best planes).
Proof.
  induction planes as [| p planes IH]; intros c best Hb Hp; simpl; [ reflexivity | ].
  inversion Hp as [| ? ? Hp0 Hrest]; subst.
  rewrite max_step_sigmoid by assumption.
  apply IH; [ now apply max_step_scores | assumption ].
Qed.

(** On one image the activation changes the maxima but not where they are. *)
Lemma max_dim1_image_sigmoid (img : Tensor3 Q) :
  Forall (plane_all scores) img ->
  max_dim1_image (map (map_plane sigmoid) img) =
  (vi <- max_dim1_image img ;; Ok (map_plane sigmoid (fst vi), snd vi)).
Proof.
  intros Himg. destruct img as [| p0 rest]; simpl; [ reflexivity | ].
  inversion Himg as [| ? ? Hp0 Hrest]; subst.
  replace (map_plane (fun x : Q => (x, 0%nat)) (map_plane sigmoid p0))
    with (map_plane (on_value sigmoid) (map_plane (fun x : Q => (x, 0%nat)) p0))
    by (now rewrite !map_plane_map_plane).
  rewrite max_planes_sigmoid, !map_plane_map_plane; [ reflexivity | | exact Hrest ].
  unfold plane_all, map_plane. apply Forall_map. eapply Forall_impl; [ | exact Hp0 ].
  intros row Hrow. apply Forall_map. exact Hrow.
Qed.

Lemma map_result_max_sigmoid (x : Tensor4 Q) :
  tensor4_all scores x ->
  map_result max_dim1_image (map (map (map_plane sigmoid)) x) =
  (ys <- map_result max_dim1_image x ;;
   Ok (map (fun vi : Plane Q * Plane nat => (map_plane sigmoid (fst vi), snd vi)) ys)).
Proof.
  induction x as [| img x IH]; intros Hx; simpl; [ reflexivity | ].
  inversion Hx as [| ? ? Himg Hrest]; subst.
  rewrite max_dim1_image_sigmoid, IH by assumption.
  destruct (max_dim1_image img) as [[v l] | e]; simpl; [ | reflexivity ].
  destruct (map_result max_dim1_image x) as [ys | e]; reflexivity.
Qed.

Lemma torch_max_dim1_sigmoid (x : Tensor4 Q) :
  tensor4_all scores x ->
  torch_max_dim1 (map_tensor4 sigmoid x) =
  (vi <- torch_max_dim1 x ;; Ok (map (map_plane sigmoid) (fst vi), snd vi)).
Proof.
  intros Hx. unfold torch_max_dim1, map_tensor4.
  rewrite map_result_max_sigmoid by assumption.
  destruct (map_result max_dim1_image x) as [ys | e]; simpl; [ | reflexivity ].
  now rewrite !map_map.
Qed.

Variable interpolate : Tensor4 Q -> nat * nat -> interp_mode -> bool -> Tensor4 Q.

(** C10, as amended: when the activation keeps the order of the scores of the
    resized tensor (equal scores get equal values, a larger score a larger
    value: no two distinct scores are mapped to one value), the segmentation
    post-processor returns what interpolation followed by arg-max over the
    class dimension returns, the same label map or the same error: on such an
    input the activation step can be removed. *)
Theorem postprocess_seg_without_sigmoid (batch1 : list (list nat)) (preds : Tensor4 Q) :
  (forall h w dims others,
      batch1 = (h :: w :: dims) :: others ->
      tensor4_all scores (interpolate preds (h, w) Bilinear false)) ->
  postprocess_seg interpolate sigmoid batch1 preds =
  interpolate_then_argmax interpolate batch1 preds.
Proof.
  intros Hscores. unfold postprocess_seg, interpolate_then_argmax.
  destruct batch1 as [| shape others]; [ reflexivity | ].
  destruct shape as [| h [| w dims]]; [ reflexivity | reflexivity | ].
  change (getitem ((h :: w :: dims) :: others) 0) with (Ok (h :: w :: dims)).
  change (unpack_hw (h :: w :: dims)) with (Ok (h, w)).
  simpl bind.
  rewrite torch_max_dim1_sigmoid by (eapply Hscores; reflexivity).
  destruct (torch_max_dim1 _) as [[v l] | e]; reflexivity.
Qed.

End Monotone.

(** *** The reduction is an arg-max *)

Lemma zip_with_nth {A B C} (f : A -> B -> C) : forall (xs : list A) (ys : list B) i c,
  nth_error (zip_with f xs ys) i = Some c <->
  exists a b, nth_error xs i = Some a /\ nth_error ys i = Some b /\ c = f a b.
Proof.
  induction xs as [| x xs IH]; intros ys i c.
  - simpl. split.
    + destruct i; discriminate.
    + intros (a & b & Ha & _). destruct i; discriminate.
  - destruct ys as [| y ys]; simpl.
    + split.
      * destruct i; discriminate.
      * intros (a & b & _ & Hb & _). destruct i; discriminate.
    + destruct i as [| i]; simpl.
      * split.
        -- intros H. injection H as <-. exists x, y. auto.
        -- intros (a & b & Ha & Hb & ->). congruence.
      * apply IH.
Qed.

Lemma at2_map_plane {A B} (f : A -> B) (p : Plane A) (y x : nat) :
  at2 (map_plane f p) y x = option_map f (at2 p y x).
Proof.
  unfold at2, map_plane. rewrite nth_error_map.
  destruct (nth_error p y) as [row |]; simpl; [ apply nth_error_map | reflexivity ].
Qed.

Lemma at2_max_step (c : nat) (best : Plane (Q * nat)) (plane : Plane Q) (y x : nat)
      (r : Q * nat) :
  at2 (max_step c best plane) y x = Some r ->
  exists b v, at2 best y x = Some b /\ at2 plane y x = Some v
              /\ r = if Qltb (fst b) v then (v, c) else b.
Proof.
  unfold at2, max_step. intros H.
  destruct (nth_error (zip_with _ best plane) y) as [row |] eqn:E; [ | discriminate ].
  apply zip_with_nth in E as (rb & rp & -> & -> & ->).
  apply zip_with_nth in H as (b & v & Hb & Hv & ->). exists b, v. auto.
Qed.

(** One more plane keeps the running maximum a first arg-max of the planes
    seen so far. *)
Lemma first_argmax_step (pre : list (Plane Q)) (p : Plane Q) (y x : nat)
      (b : Q * nat) (v : Q) :
  first_argmax pre y x (fst b) (snd b) ->
  at2 p y x = Some v ->
  let b' := if Qltb (fst b) v then (v, List.length pre) else b in
  first_argmax (pre ++ [p]) y x (fst b') (snd b').
Proof.
  intros [(pk & Hk & Hpk) Hmax] Hv.
  assert (Hlt : (snd b < List.length pre)%nat) by (apply nth_error_Some; congruence).
  destruct (Qltb (fst b) v) eqn:E; simpl.
  - apply Qltb_lt in E. split.
    + exists p. split; [ | exact Hv ].
      rewrite nth_error_app2, Nat.sub_diag by lia. reflexivity.
    + intros j plane v' Hj Hv'.
      destruct (Nat.lt_ge_cases j (List.length pre)) as [Hjl | Hjg].
      * rewrite nth_error_app1 in Hj by exact Hjl.
        destruct (Hmax j plane v' Hj Hv') as [Hle _].
        split; [ | intros _ ]; lra.
      * rewrite nth_error_app2 in Hj by exact Hjg.
        destruct (j - List.length pre)%nat as [| d] eqn:Hd;
          [ | destruct d; discriminate ].
        simpl in Hj. injection Hj as <-. rewrite Hv in Hv'. injection Hv' as <-.
        split; [ lra | lia ].
  - assert (Hge : v <= fst b).
    { apply Qnot_lt_le. intros Hc. apply Qltb_lt in Hc. congruence. }
    split.
    + exists pk. split; [ | exact Hpk ]. now rewrite nth_error_app1.
    + intros j plane v' Hj Hv'.
      destruct (Nat.lt_ge_cases j (List.length pre)) as [Hjl | Hjg].
      * rewrite nth_error_app1 in Hj by exact Hjl. exact (Hmax j plane v' Hj Hv').
      * rewrite nth_error_app2 in Hj by exact Hjg.
        destruct (j - List.length pre)%nat as [| d] eqn:Hd;
          [ | destruct d; discriminate ].
        simpl in Hj. injection Hj as <-. rewrite Hv in Hv'. injection Hv' as <-.
        split; [ exact Hge | lia ].
Qed.

Lemma max_planes_argmax (y x : nat) : forall (planes pre : list (Plane Q))
                                             (best : Plane (Q * nat)),
  (forall b, at2 best y x = Some b -> first_argmax pre y x (fst b) (snd b)) ->
  forall r, at2 (max_planes (List.length pre) best planes) y x = Some r ->
            first_argmax (pre ++ planes) y x (fst r) (snd r).
Proof.
  induction planes as [| p planes IH]; intros pre best Hinv r Hr; simpl in Hr.
  - rewrite app_nil_r. now apply Hinv.
  - replace (pre ++ p :: planes) with ((pre ++ [p]) ++ planes)
      by (now rewrite <- app_assoc).
    apply IH with (best := max_step (List.length pre) best p).
    + intros b' Hb'. apply at2_max_step in Hb' as (b & v & Hb & Hv & ->).
      apply first_argmax_step; [ now apply Hinv | exact Hv ].
    + rewrite length_app. simpl.
      replace (List.length pre + 1)%nat with (S (List.length pre)) by lia. exact Hr.
Qed.

(** [torch.max(x, 1)] on one image: at every pixel the value is the maximum
    over the classes and the index the first class attaining it. *)
Lemma max_dim1_image_argmax (img : Tensor3 Q) (values : Plane Q) (labels : Plane nat)
      (y x : nat) (m : Q) (k : nat) :
  max_dim1_image img = Ok (values, labels) ->
  at2 values y x = Some m -> at2 labels y x = Some k ->
  first_argmax img y x m k.
Proof.
  destruct img as [| p0 rest]; unfold max_dim1_image; [ discriminate | ].
  intros H Hm Hk. injection H as <- <-.
  rewrite at2_map_plane in Hm. rewrite at2_map_plane in Hk.
  destruct (at2 (max_planes 1 _ rest) y x) as [r |] eqn:Hr; [ | discriminate ].
  simpl in Hm, Hk. injection Hm as <-. injection Hk as <-.
  apply max_planes_argmax with (pre := [p0]) in Hr; [ exact Hr | ].
  intros b Hb. rewrite at2_map_plane in Hb.
  destruct (at2 p0 y x) as [v |] eqn:Hv; [ | discriminate ].
  simpl in Hb. injection Hb as <-. simpl. split.
  - exists p0. auto.
  - intros [| j] plane v' Hj Hv'; simpl in Hj.
    + injection Hj as <-. rewrite Hv in Hv'. injection Hv' as <-. split; [ lra | lia ].
    + destruct j; discriminate.
Qed.

Lemma max_dim1_image_label (img : Tensor3 Q) (values : Plane Q) (labels : Plane nat)
      (y x k : nat) :
  max_dim1_image img = Ok (values, labels) ->
  at2 labels y x = Some k ->
  exists m, at2 values y x = Some m /\ first_argmax img y x m k.
Proof.
  intros H Hk.
  assert (Hm : exists m, at2 values y x = Some m).
  { destruct img as [| p0 rest]; unfold max_dim1_image in H; [ discriminate | ].
    injection H as <- <-. rewrite at2_map_plane in Hk. rewrite at2_map_plane.
    destruct (at2 _ y x) as [r |]; [ now exists (fst r) | discriminate ]. }
  destruct Hm as [m Hm]. exists m. split; [ exact Hm | ].
  eapply max_dim1_image_argmax; eassumption.
Qed.

Lemma map_tensor4_shape {A B} (f : A -> B) (n c h w : nat) (x : Tensor4 A) :
  tensor4_shape n c h w x -> tensor4_shape n c h w (map_tensor4 f x).
Proof.
  intros [Hn Himgs]. unfold tensor4_shape, map_tensor4. rewrite length_map.
  split; [ exact Hn | ]. apply Forall_map. eapply Forall_impl; [ | exact Himgs ].
  intros img [Hc Hplanes]. unfold tensor3_shape. rewrite length_map.
  split; [ exact Hc | ]. apply Forall_map. eapply Forall_impl; [ | exact Hplanes ].
  intros p Hp. now apply map_plane_shape.
Qed.

Section PostprocessSegFacts.

Variable interpolate : Tensor4 Q -> nat * nat -> interp_mode -> bool -> Tensor4 Q.
Variable sigmoid : Q -> Q.

(** The contract of the interpolation kernel: the batch and class dimensions
    are kept, the spatial dimensions become the requested size. *)
Hypothesis interpolate_shape :
  forall x n c h0 w0 h w mode align_corners,
    tensor4_shape n c h0 w0 x ->
    tensor4_shape n c h w (interpolate x (h, w) mode align_corners).

(** C7: for a raw output of shape N x C x H x W with at least one class, and
    a first original image of height [orig_h] and width [orig_w], the
    post-processor returns the indices of [torch.max] over the class dimension
    of the element-wise sigmoid of the raw tensor resized to
    ([orig_h], [orig_w]) by bilinear interpolation with aligned corners
    disabled; the result is one label map of [orig_h] x [orig_w] per image,
    every label is a class index below C, and every label is the first class
    whose activated, resized score is maximal at that pixel. *)
Theorem postprocess_seg_pipeline (batch1 : list (list nat)) (preds : Tensor4 Q)
        (n c h0 w0 orig_h orig_w : nat) (dims : list nat) (others : list (list nat)) :
  batch1 = (orig_h :: orig_w :: dims) :: others ->
  tensor4_shape n c h0 w0 preds ->
  (0 < c)%nat ->
  let resized := interpolate preds (orig_h, orig_w) Bilinear false in
  let activated := map_tensor4 sigmoid resized in
  exists values labels,
    torch_max_dim1 activated = Ok (values, labels)
    /\ postprocess_seg interpolate sigmoid batch1 preds = Ok labels
    /\ tensor3_shape n orig_h orig_w labels
    /\ labels_below c labels
    /\ (forall i img label_map y x k,
          nth_error activated i = Some img ->
          nth_error labels i = Some label_map ->
          at2 label_map y x = Some k ->
          exists m, first_argmax img y x m k).
Proof.
  intros -> Hshape Hc resized activated.
  assert (Hact : tensor4_shape n c orig_h orig_w activated).
  { apply map_tensor4_shape. eapply interpolate_shape. exact Hshape. }
  destruct (torch_max_dim1_shape Hc Hact) as (values & labels & Hmax & Hl & Hlt).
  exists values, labels. split; [ exact Hmax | ].
  split; [ | split; [ exact Hl | split; [ exact Hlt | ] ] ].
  - unfold postprocess_seg. simpl. fold resized. fold activated. now rewrite Hmax.
  - intros i img label_map y x k Himg Hlab Hk.
    unfold torch_max_dim1 in Hmax.
    apply bind_ok in Hmax as (per_image & Hper & Hmax). injection Hmax as <- <-.
    destruct (map_result_nth _ _ Hper _ Himg) as ([v l] & Hvl & Himg_max).
    rewrite nth_error_map, Hvl in Hlab. simpl in Hlab. injection Hlab as <-.
    destruct (max_dim1_image_label _ _ _ Himg_max Hk) as (m & _ & Hm).
    now exists m.
Qed.

End PostprocessSegFacts.

(** *** The sample kernels meet the hypotheses *)

Lemma Ops_resize_plane_shape (h w : nat) (p : Plane Q) :
  plane_shape h w (Ops.resize_plane h w p).
Proof.
  unfold plane_shape, Ops.resize_plane, Ops.columns.
  rewrite length_map, length_seq. split; [ reflexivity | ].
  apply Forall_map, Forall_forall. intros j _.
  now rewrite !length_map, length_seq.
Qed.

Lemma Ops_interpolate_shape (x : Tensor4 Q) (n c h0 w0 h w : nat) (mode : interp_mode)
      (align_corners : bool) :
  tensor4_shape n c h0 w0 x ->
  tensor4_shape n c h w (Ops.interpolate x (h, w) mode align_corners).
Proof.
  intros [Hn Himgs]. unfold tensor4_shape, Ops.interpolate. rewrite length_map.
  split; [ exact Hn | ]. apply Forall_map. eapply Forall_impl; [ | exact Himgs ].
  intros img [Hc _]. unfold tensor3_shape. rewrite length_map.
  split; [ exact Hc | ]. apply Forall_map, Forall_forall. intros p _.
  apply Ops_resize_plane_shape.
Qed.

Lemma Ops_sigmoid_compat (x y : Q) : x == y -> Ops.sigmoid x == Ops.sigmoid y.
Proof.
  intros H. unfold Ops.sigmoid. now rewrite H.
Qed.

Lemma ratio_increasing (x y a b : Q) :
  0 < a -> 0 < b -> x * b < y * a -> x / a < y / b.
Proof.
  intros Ha Hb H.
  apply Qlt_shift_div_l; [ exact Hb | ].
  setoid_replace (x / a * b) with (x * b / a) by (field; lra).
  apply Qlt_shift_div_r; [ exact Ha | exact H ].
Qed.

Lemma Ops_sigmoid_increasing (x y : Q) : x < y -> Ops.sigmoid x < Ops.sigmoid y.
Proof.
  intros Hxy. unfold Ops.sigmoid.
  assert (Hx : 0 <= Qabs x) by apply Qabs_nonneg.
  assert (Hy : 0 <= Qabs y) by apply Qabs_nonneg.
  assert (H : x / (1 + Qabs x) < y / (1 + Qabs y)).
  { apply ratio_increasing; [ lra | lra | ].
    destruct (Qlt_le_dec x 0) as [Hxn | Hxp]; destruct (Qlt_le_dec y 0) as [Hyn | Hyp].
    - rewrite (Qabs_neg x), (Qabs_neg y) by lra. nra.
    - rewrite (Qabs_neg x), (Qabs_pos y) by lra. nra.
    - lra.
    - rewrite (Qabs_pos x), (Qabs_pos y) by lra. nra. }
  apply Qmult_lt_r; [ reflexivity | ]. lra.
Qed.

Lemma SampleSeg_shape : tensor4_shape 1 2 2 2 SampleSeg.preds.
Proof.
  unfold tensor4_shape, tensor3_shape, plane_shape, SampleSeg.preds.
  repeat (split || constructor).
Qed.

(** The label map of the sample batch. *)
Example postprocess_seg_sample :
  postprocess_seg Ops.interpolate Ops.sigmoid SampleSeg.batch1 SampleSeg.preds =
  Ok [[[0; 0; 1; 1]; [0; 0; 1; 1]; [0; 1; 1; 1]; [0; 1; 1; 1]]]%nat.
Proof. vm_compute. reflexivity. Qed.

(** C7 on the sample batch. *)
Lemma postprocess_seg_pipeline_witness :
  let resized := Ops.interpolate SampleSeg.preds (4, 4)%nat Bilinear false in
  let activated := map_tensor4 Ops.sigmoid resized in
  exists values labels,
    torch_max_dim1 activated = Ok (values, labels)
    /\ postprocess_seg Ops.interpolate Ops.sigmoid SampleSeg.batch1 SampleSeg.preds
       = Ok labels
    /\ tensor3_shape 1 4 4 labels
    /\ labels_below 2 labels
    /\ (forall i img label_map y x k,
          nth_error activated i = Some img ->
          nth_error labels i = Some label_map ->
          at2 label_map y x = Some k ->
          exists m, first_argmax img y x m k).
Proof.
  apply (@postprocess_seg_pipeline Ops.interpolate Ops.sigmoid Ops_interpolate_shape
           SampleSeg.batch1 SampleSeg.preds 1 2 2 2 4 4 [3%nat] []);
    [ reflexivity | exact SampleSeg_shape | lia ].
Defined.

Lemma Ops_saturating_sigmoid_below (x : Q) :
  x < 17 -> Ops.saturating_sigmoid x = Ops.sigmoid x.
Proof.
  intros Hx. unfold Ops.saturating_sigmoid.
  destruct (Qle_bool 17 x) eqn:E; [ | reflexivity ].
  apply Qle_bool_iff in E. exfalso. exact (Qlt_not_le _ _ Hx E).
Qed.

(** The saturating activation takes one value from 17 upward. *)
Lemma Ops_saturating_sigmoid_above (x : Q) :
  17 <= x -> Ops.saturating_sigmoid x = 1.
Proof.
  intros Hx. unfold Ops.saturating_sigmoid.
  apply Qle_bool_iff in Hx. now rewrite Hx.
Qed.

Lemma SampleSeg_scores_below :
  tensor4_all (fun x : Q => x < 17)
              (Ops.interpolate SampleSeg.preds (4, 4)%nat Bilinear false).
Proof.
  vm_compute. repeat constructor.
Qed.

(** C10, amended, on the sample batch with the saturating activation: every
    score of the resized tensor is below 17, where that activation is strictly
    increasing. *)
Lemma postprocess_seg_without_sigmoid_witness :
  postprocess_seg Ops.interpolate Ops.saturating_sigmoid SampleSeg.batch1 SampleSeg.preds =
  interpolate_then_argmax Ops.interpolate SampleSeg.batch1 SampleSeg.preds.
Proof.
  apply (@postprocess_seg_without_sigmoid Ops.saturating_sigmoid (fun x : Q => x < 17)).
  - intros x y Hx Hy Hxy. rewrite !Ops_saturating_sigmoid_below by assumption.
    now apply Ops_sigmoid_compat.
  - intros x y Hx Hy Hxy. rewrite !Ops_saturating_sigmoid_below by assumption.
    now apply Ops_sigmoid_increasing.
  - intros h w dims others Hshape. injection Hshape as <- <- _ _.
    exact SampleSeg_scores_below.
Defined.

(** C10 as stated fails: with an activation that saturates, on two class
    planes that score 20 and 30 at every pixel, both scores are mapped to 1,
    the reduction keeps the first class that attains the maximum and the
    post-processor labels every pixel 0; without the activation every pixel is
    labelled 1. *)
Lemma postprocess_seg_saturation_changes_labels :
  postprocess_seg Ops.interpolate Ops.saturating_sigmoid
                  SampleSeg.batch1_small SampleSeg.saturated
  = Ok [[[0; 0]; [0; 0]]]%nat
  /\ interpolate_then_argmax Ops.interpolate SampleSeg.batch1_small SampleSeg.saturated
     = Ok [[[1; 1]; [1; 1]]]%nat
  /\ postprocess_seg Ops.interpolate Ops.saturating_sigmoid
                     SampleSeg.batch1_small SampleSeg.saturated
     <> interpolate_then_argmax Ops.interpolate SampleSeg.batch1_small SampleSeg.saturated.
Proof.
  assert (H1 : postprocess_seg Ops.interpolate Ops.saturating_sigmoid
                               SampleSeg.batch1_small SampleSeg.saturated
               = Ok [[[0; 0]; [0; 0]]]%nat) by (vm_compute; reflexivity).
  assert (H2 : interpolate_then_argmax Ops.interpolate SampleSeg.batch1_small
                                       SampleSeg.saturated
               = Ok [[[1; 1]; [1; 1]]]%nat) by (vm_compute; reflexivity).
  split; [ exact H1 | split; [ exact H2 | ] ].
  rewrite H1, H2. discriminate.
Qed.

(* ================================================================== *)
(** ** Task kinds are decided by substring *)
(* ================================================================== *)

Lemma prefix_spec (p : string) : forall s : string,
  String.prefix p s = true <-> exists post, s = (p ++ post)%string.
Proof.
  induction p as [| a p IH]; intros s.
  - split; [ intros _; exists s; reflexivity | intros _; destruct s; reflexivity ].
  - destruct s as [| b s]; simpl.
    + split; [ discriminate | intros [post H]; discriminate ].
    + destruct (ascii_dec a b) as [-> | Hne].
      * rewrite IH. split.
        -- intros [post ->]. now exists post.
        -- intros [post H]. injection H as ->. now exists post.
      * split; [ discriminate | intros [post H]; injection H as H _; congruence ].
Qed.

Lemma str_in_unfold (sub s : string) :
  str_in sub s =
  if String.prefix sub s then true
  else match s with
       | EmptyString => false
       | String _ rest => str_in sub rest
       end.
Proof.
  destruct s; reflexivity.
Qed.

Lemma str_in_spec (sub : string) : forall s : string,
  str_in sub s = true <-> exists pre post, s = (pre ++ sub ++ post)%string.
Proof.
  induction s as [| c s IH]; rewrite str_in_unfold.
  - destruct (String.prefix sub "") eqn:E.
    + split; [ intros _ | reflexivity ].
      apply prefix_spec in E as [post H]. exists "", post. exact H.
    + split; [ discriminate | ]. intros (pre & post & H).
      destruct pre; [ | discriminate ]. simpl in H.
      assert (String.prefix sub "" = true) by (apply prefix_spec; now exists post).
      congruence.
  - destruct (String.prefix sub (String c s)) eqn:E.
    + split; [ intros _ | reflexivity ].
      apply prefix_spec in E as [post H]. exists "", post. exact H.
    + rewrite IH. split.
      * intros (pre & post & ->). now exists (String c pre), post.
      * intros (pre & post & H). destruct pre as [| c' pre].
        -- simpl in H.
           assert (String.prefix sub (String c s) = true)
             by (apply prefix_spec; now exists post).
           congruence.
        -- simpl in H. injection H as _ ->. now exists pre, post.
Qed.

(** The test ['det' in name] holds exactly when 'det' occurs in the name, and
    ['seg' in name] exactly when 'seg' does. *)
Lemma task_kind_by_substring (name : string) :
  (is_det name = true <-> occurs_in "det" name)
  /\ (is_seg name = true <-> occurs_in "seg" name).
Proof.
  split; apply str_in_spec.
Qed.

Section DispatchKinds.

Variables Raw Pred Batch Metrics : Type.
Variable postprocess_det : Raw -> result Pred.
Variable postprocess_seg : Raw -> nat -> result Pred.
Variable update_metrics_det : Pred -> Batch -> string -> Metrics -> result Metrics.
Variable update_metrics_seg : Pred -> Batch -> string -> Metrics -> result Metrics.

(** X1: the two loops of the dispatch test 'det' first and 'seg' only
    otherwise. For task [i] named [name]: when 'det' occurs in the name, the
    raw output goes through the detection post-processor and the detection
    metric update, whether or not 'seg' occurs too; when 'det' does not occur
    and 'seg' does, through the segmentation ones; when neither occurs, the
    task is skipped: nothing is appended and the metrics are left as they
    are. *)
Theorem dispatch_by_substring (labels_list : list string) (acc post : list Pred)
        (batch : list Batch) (m : Metrics) (i : nat) (r : Raw) (name : string) :
  nth_error labels_list i = Some name ->
  (occurs_in "det" name ->
   postprocess_step postprocess_det postprocess_seg labels_list acc (i, r)
   = (p <- postprocess_det r ;; Ok (acc ++ [p]))
   /\ update_step update_metrics_det update_metrics_seg post batch m (i, name)
      = (p <- getitem post i ;; b <- getitem batch i ;;
         update_metrics_det p b name m))
  /\ (~ occurs_in "det" name -> occurs_in "seg" name ->
      postprocess_step postprocess_det postprocess_seg labels_list acc (i, r)
      = (p <- postprocess_seg r i ;; Ok (acc ++ [p]))
      /\ update_step update_metrics_det update_metrics_seg post batch m (i, name)
         = (p <- getitem post i ;; b <- getitem batch i ;;
            update_metrics_seg p b name m))
  /\ (~ occurs_in "det" name -> ~ occurs_in "seg" name ->
      postprocess_step postprocess_det postprocess_seg labels_list acc (i, r) = Ok acc
      /\ update_step update_metrics_det update_metrics_seg post batch m (i, name)
         = Ok m).
Proof.
  intros Hname.
  destruct (task_kind_by_substring name) as [Hdet Hseg].
  assert (Hget : getitem labels_list i = Ok name) by (unfold getitem; now rewrite Hname).
  unfold postprocess_step, update_step. rewrite Hget. cbn [bind Py.bind].
  split; [ | split ].
  - intros Hd. apply Hdet in Hd. rewrite Hd. split; reflexivity.
  - intros Hnd Hs. apply Hseg in Hs.
    destruct (is_det name) eqn:Ed; [ exfalso; apply Hnd; now apply Hdet | ].
    rewrite Hs. split; reflexivity.
  - intros Hnd Hns.
    destruct (is_det name) eqn:Ed; [ exfalso; apply Hnd; now apply Hdet | ].
    destruct (is_seg name) eqn:Es; [ exfalso; apply Hns; now apply Hseg | ].
    split; reflexivity.
Qed.

End DispatchKinds.

(** X1 on a task named 'detseg', raw outputs and metrics being strings: it is
    post-processed and scored as a detection task only. *)
Lemma dispatch_by_substring_witness :
  postprocess_step (fun r => Ok ("det(" ++ r ++ ")")%string)
                   (fun r _ => Ok ("seg(" ++ r ++ ")")%string)
                   ["detseg"] [] (0%nat, "r0")
  = Ok ["det(r0)"]
  /\ update_step (fun (p b name m : string) => Ok (m ++ "det:" ++ p)%string)
                 (fun (p b name m : string) => Ok (m ++ "seg:" ++ p)%string)
                 ["det(r0)"] ["b0"] "" (0%nat, "detseg")
     = Ok "det:det(r0)".
Proof.
  destruct (@dispatch_by_substring string string string string
              (fun r => Ok ("det(" ++ r ++ ")")%string)
              (fun r _ => Ok ("seg(" ++ r ++ ")")%string)
              (fun (p b name m : string) => Ok (m ++ "det:" ++ p)%string)
              (fun (p b name m : string) => Ok (m ++ "seg:" ++ p)%string)
              ["detseg"] [] ["det(r0)"] ["b0"] "" 0%nat "r0" "detseg" eq_refl)
    as [Hdet _].
  apply Hdet. exists "", "seg". reflexivity.
Defined.

(* ================================================================== *)
(** ** The metric objects *)
(* ================================================================== *)





(** A name that contains both 'det' and 'seg' gets two metric objects, so the
    objects of later tasks no longer sit at their task's index. *)
Example metrics_list_both_kinds :
  init_metrics_list [] ["detseg"; "seg"] = [DetMetrics; SegmentMetrics; SegmentMetrics].
Proof. reflexivity. Qed.

(* ================================================================== *)
(** ** Dispatch when every task is of a known kind *)
(* ================================================================== *)

Section DispatchAligned.

Variables Raw Pred : Type.
Variable postprocess_det : Raw -> result Pred.
Variable postprocess_seg : Raw -> nat -> result Pred.

Lemma postprocess_loop_aligned (labels_list : list string) :
  forall (preds_list : list Raw) (k : nat) (acc post : list Pred) (tail : list string),
    skipn k labels_list = tail ->
    List.length preds_list = List.length tail ->
    forallb known_kind tail = true ->
    postprocess_loop postprocess_det postprocess_seg labels_list acc
                     (enumerate_from k preds_list) = Ok post ->
    exists ps,
      post = acc ++ ps
      /\ List.length ps = List.length preds_list
      /\ (forall j r name,
            nth_error preds_list j = Some r -> nth_error tail j = Some name ->
            exists p, nth_error ps j = Some p
                      /\ (if is_det name then postprocess_det r
                          else postprocess_seg r (k + j)) = Ok p).
Proof.
  induction preds_list as [| r rs IH]; intros k acc post tail Hskip Hlen Hknown H.
  - simpl in H. injection H as <-. exists []. rewrite app_nil_r.
    repeat split. intros j r name Hj. destruct j; discriminate.
  - destruct tail as [| name tail']; [ discriminate | ].
    simpl in Hknown. apply andb_prop in Hknown as [Hname Hknown].
    simpl in H. apply bind_ok in H as (acc' & Hstep & H).
    apply skipn_cons_nth in Hskip as [Hn Hskip'].
    assert (Hp : exists p, acc' = acc ++ [p]
                           /\ (if is_det name then postprocess_det r
                               else postprocess_seg r k) = Ok p).
    { unfold postprocess_step in Hstep. apply getitem_ok in Hn. rewrite Hn in Hstep.
      simpl in Hstep. unfold known_kind in Hname.
      destruct (is_det name).
      - apply bind_ok in Hstep as (p & Hp & Hstep). injection Hstep as <-. now exists p.
      - simpl in Hname. rewrite Hname in Hstep.
        apply bind_ok in Hstep as (p & Hp & Hstep). injection Hstep as <-. now exists p. }
    destruct Hp as (p & -> & Hp).
    apply (IH (S k) _ post tail' Hskip') in H as (ps & -> & Hps & Hall);
      [ | simpl in Hlen; lia | exact Hknown ].
    exists (p :: ps). split; [ now rewrite <- app_assoc | ].
    split; [ simpl; now rewrite Hps | ].
    intros [| j] r' name' Hr Hname'; simpl in *.
    + injection Hr as <-. injection Hname' as <-. exists p.
      rewrite Nat.add_0_r. auto.
    + destruct (Hall j r' name' Hr Hname') as (p' & Hp' & Hhook).
      exists p'. split; [ exact Hp' | ].
      replace (k + S j)%nat with (S k + j)%nat by lia. exact Hhook.
Qed.

(** X3: when every configured task is of a known kind and the model gives
    one raw output per task, a post-processing loop that returns yields one
    slice per task, and the i-th slice is the i-th raw output passed through
    the detection hook if the i-th name contains 'det', through the
    segmentation hook (with the task index) otherwise. *)
Theorem dispatch_aligned (labels_list : list string) (preds_list : list Raw)
        (post : list Pred) :
  forallb known_kind labels_list = true ->
  List.length preds_list = List.length labels_list ->
  postprocess_multi postprocess_det postprocess_seg labels_list preds_list = Ok post ->
  List.length post = List.length labels_list
  /\ (forall i name r,
        nth_error labels_list i = Some name ->
        nth_error preds_list i = Some r ->
        exists p, nth_error post i = Some p
                  /\ (if is_det name then postprocess_det r
                      else postprocess_seg r i) = Ok p).
Proof.
  intros Hknown Hlen H. unfold postprocess_multi, enumerate in H.
  eapply postprocess_loop_aligned in H as (ps & -> & Hps & Hall);
    [ | reflexivity | exact Hlen | exact Hknown ].
  simpl. split; [ congruence | ].
  intros i name r Hname Hr. exact (Hall i r name Hr Hname).
Qed.

End DispatchAligned.

(** X3 on a detection and a segmentation task, raw outputs being strings. *)
Lemma dispatch_aligned_witness :
  List.length ["det(r0)"; "seg(r1)"] = List.length ["det"; "seg"]
  /\ (forall i name r,
        nth_error ["det"; "seg"] i = Some name ->
        nth_error ["r0"; "r1"] i = Some r ->
        exists p, nth_error ["det(r0)"; "seg(r1)"] i = Some p
                  /\ (if is_det name then Ok ("det(" ++ r ++ ")")%string
                      else Ok ("seg(" ++ r ++ ")")%string) = Ok p).
Proof.
  apply (@dispatch_aligned string string
           (fun r => Ok ("det(" ++ r ++ ")")%string)
           (fun r _ => Ok ("seg(" ++ r ++ ")")%string)
           ["det"; "seg"] ["r0"; "r1"] ["det(r0)"; "seg(r1)"]); reflexivity.
Defined.

(* ================================================================== *)
(** ** More on what nested mode returns *)
(* ================================================================== *)

Lemma map_result_length {A B} (f : A -> result B) : forall (xs : list A) (ys : list B),
  map_result f xs = Ok ys -> List.length ys = List.length xs.
Proof.
  induction xs as [| a xs IH]; intros ys H; simpl in H.
  - now injection H as <-.
  - apply bind_ok in H as (y & _ & H). apply bind_ok in H as (ys' & Hys & H).
    injection H as <-. simpl. now rewrite (IH _ Hys).
Qed.

(** The first element on which [f] raises decides the error. *)
Lemma map_result_first_raise {A B} (f : A -> result B) : forall (xs : list A) i x e,
  nth_error xs i = Some x ->
  f x = Raise e ->
  (forall j y, (j < i)%nat -> nth_error xs j = Some y -> is_ok (f y) = true) ->
  map_result f xs = Raise e.
Proof.
  induction xs as [| a xs IH]; intros i x e Hn Hx Hbefore.
  - destruct i; discriminate.
  - destruct i as [| i]; simpl in *.
    + injection Hn as ->. now rewrite Hx.
    + specialize (Hbefore 0%nat a (Nat.lt_0_succ i) eq_refl) as Ha.
      destruct (f a) as [b | e']; [ | discriminate ]. simpl.
      rewrite (IH i x e Hn Hx); [ reflexivity | ].
      intros j y Hj Hy. apply (Hbefore (S j) y); [ lia | exact Hy ].
Qed.

Section FinalizeMore.

Variable LossT : Type.
Variable tensor_div : LossT -> nat -> LossT.
Variable label_loss_items_val : LossT -> string -> string -> result (dict value).

(** X4: a nested multi-task run that returns hands back one mapping per
    configured task, in task order; the mapping of a task is its merged
    statistics, every value with 5 decimal places, when the merge succeeds,
    and what the fallback computes from the task's segmentation result when
    the merge raises. *)
Theorem multi_training_results (labels_list : list string) (stats : list pyobj)
        (loss : list LossT) (n_batches : nat) (seg_result : dict (dict AverageMeter))
        (results_list : list (dict Q)) :
  finalize_multi_training tensor_div label_loss_items_val
                          labels_list stats loss n_batches seg_result = Ok results_list ->
  List.length results_list = List.length labels_list
  /\ (forall i name,
        nth_error labels_list i = Some name ->
        exists d,
          nth_error results_list i = Some d
          /\ ((merge_task tensor_div label_loss_items_val stats loss n_batches i name = Ok d
               /\ Forall (rounded_to 5) (dict_values d))
              \/ (exists e,
                    merge_task tensor_div label_loss_items_val
                               stats loss n_batches i name = Raise e
                    /\ fitness_fallback seg_result name = Ok d))).
Proof.
  rewrite finalize_multi_training_map. intros H. split.
  - rewrite (map_result_length _ _ H). apply enumerate_from_length.
  - intros i name Hn.
    destruct (map_result_nth _ _ H i (enumerate_from_nth _ 0 _ Hn)) as (d & Hd & Hfd).
    exists d. split; [ exact Hd | ].
    change (0 + i)%nat with i in Hfd. unfold finalize_task in Hfd.
    destruct (merge_task _ _ _ _ _ i name) as [d' | e] eqn:E; simpl in Hfd.
    + injection Hfd as <-. left. split; [ reflexivity | ].
      eapply merged_task_rounded with (seg_result := seg_result). exact E.
    + right. exists e. auto.
Qed.

(** X5: there is no fallback behind the fallback. When the merge raises for a
    task whose name has no segmentation result structure, and the tasks before
    it were finalised, the whole run raises the [KeyError] of that name: no
    list is returned. *)
Theorem fallback_missing_structure (labels_list : list string) (stats : list pyobj)
        (loss : list LossT) (n_batches : nat) (seg_result : dict (dict AverageMeter))
        (i : nat) (name : string) (e : exn) :
  nth_error labels_list i = Some name ->
  merge_task tensor_div label_loss_items_val stats loss n_batches i name = Raise e ->
  dict_get seg_result name = None ->
  (forall j other, (j < i)%nat -> nth_error labels_list j = Some other ->
     is_ok (finalize_task tensor_div label_loss_items_val stats loss n_batches
                          seg_result (j, other)) = true) ->
  finalize_multi_training tensor_div label_loss_items_val
                          labels_list stats loss n_batches seg_result
  = Raise (KeyError name).
Proof.
  intros Hn Hmerge Hseg Hbefore. rewrite finalize_multi_training_map.
  apply map_result_first_raise with (i := i) (x := (i, name)).
  - exact (enumerate_from_nth _ 0 _ Hn).
  - unfold finalize_task. rewrite Hmerge. simpl.
    unfold fitness_fallback, dict_getitem. now rewrite Hseg.
  - intros j [j' other] Hj Hy. unfold enumerate in Hy.
    assert (Hin : In (j', other) (enumerate_from 0 labels_list))
      by (eapply nth_error_In; exact Hy).
    apply enumerate_from_In in Hin as [_ Hother]. rewrite Nat.sub_0_r in Hother.
    assert (j' = j).
    { assert (Hj' : nth_error labels_list j <> None).
      { intros Hnone. apply nth_error_None in Hnone.
        assert (j < List.length (enumerate_from 0 labels_list))%nat
          by (apply nth_error_Some; rewrite Hy; discriminate).
        rewrite enumerate_from_length in *. lia. }
      destruct (nth_error labels_list j) as [o |] eqn:Eo; [ | congruence ].
      rewrite (enumerate_from_nth _ 0 _ Eo) in Hy. simpl in Hy. congruence. }
    subst j'. now apply Hbefore.
Qed.

End FinalizeMore.

(** X4 on the sample run. *)
Lemma multi_training_results_witness :
  let results_list :=
    [[("fitness", py_round (1 # 2) 5); ("val/det_loss", py_round (1 / 4) 5)];
     [("fitness", (1 # 3) + (1 # 4))]] in
  List.length results_list = List.length Sample.labels_list
  /\ (forall i name,
        nth_error Sample.labels_list i = Some name ->
        exists d,
          nth_error results_list i = Some d
          /\ ((merge_task Sample.tensor_div Sample.label_loss_items_val
                          Sample.stats Sample.loss Sample.n_batches i name = Ok d
               /\ Forall (rounded_to 5) (dict_values d))
              \/ (exists e,
                    merge_task Sample.tensor_div Sample.label_loss_items_val
                               Sample.stats Sample.loss Sample.n_batches i name = Raise e
                    /\ fitness_fallback Sample.seg_result name = Ok d))).
Proof.
  apply (@multi_training_results Q Sample.tensor_div Sample.label_loss_items_val
           Sample.labels_list Sample.stats Sample.loss Sample.n_batches
           Sample.seg_result). reflexivity.
Defined.

(** X5 on the sample run with the segmentation result structures missing. *)
Lemma fallback_missing_structure_witness :
  finalize_multi_training Sample.tensor_div Sample.label_loss_items_val
                          Sample.labels_list Sample.stats Sample.loss
                          Sample.n_batches []
  = Raise (KeyError "seg").
Proof.
  apply (@fallback_missing_structure Q Sample.tensor_div Sample.label_loss_items_val
           Sample.labels_list Sample.stats Sample.loss Sample.n_batches []
           1%nat "seg" TypeError); try reflexivity.
  intros j other Hj Hn. destruct j as [| j]; [ | lia ].
  simpl in Hn. injection Hn as <-. reflexivity.
Defined.

(* ================================================================== *)
(** ** Rounding *)
(* ================================================================== *)

Lemma round_half_even_near (y : Q) :
  Qabs (inject_Z (round_half_even y) - y) <= 1 # 2.
Proof.
  unfold round_half_even.
  pose proof (Qfloor_le y) as Hlo.
  pose proof (Qlt_floor y) as Hhi.
  rewrite inject_Z_plus in Hhi. change (inject_Z 1) with 1 in Hhi.
  destruct (Qcompare (y - inject_Z (Qfloor y)) (1 # 2)) eqn:E.
  - apply Qeq_alt in E.
    destruct (Z.even (Qfloor y)).
    + apply Qabs_case; intros; lra.
    + rewrite inject_Z_plus. change (inject_Z 1) with 1. apply Qabs_case; intros; lra.
  - apply Qlt_alt in E. apply Qabs_case; intros; lra.
  - apply Qgt_alt in E. rewrite inject_Z_plus. change (inject_Z 1) with 1.
    apply Qabs_case; intros; lra.
Qed.

Lemma pow10_pos (n : nat) : 0 < pow10 n.
Proof.
  unfold pow10. change 0 with (inject_Z 0). rewrite <- Zlt_Qlt.
  apply Z.pow_pos_nonneg; lia.
Qed.

Lemma round_half_even_int (k : Z) (y : Q) : y == inject_Z k -> round_half_even y = k.
Proof.
  intros H. unfold round_half_even.
  assert (Hf : Qfloor y = k) by (rewrite H; apply Qfloor_Z).
  rewrite Hf.
  assert (E : Qcompare (y - inject_Z k) (1 # 2) = Lt).
  { apply Qlt_alt. rewrite H.
    setoid_replace (inject_Z k - inject_Z k) with 0 by ring. reflexivity. }
  now rewrite E.
Qed.

(** X6: [round(x, n)] moves a value by at most half a unit of the n-th
    decimal place, and rounding a rounded value changes nothing; so each
    statistic returned in nested mode is within 0.000005 of the merged one,
    each exported score likewise, each exported box coordinate within 0.0005. *)
Theorem py_round_near (x : Q) (n : nat) :
  Qabs (py_round x n - x) <= (1 # 2) / pow10 n
  /\ py_round (py_round x n) n == py_round x n.
Proof.
  pose proof (pow10_pos n) as Hp.
  assert (Hnz : ~ pow10 n == 0) by (now apply Qnot_eq_sym, Qlt_not_eq).
  split.
  - unfold py_round.
    pose proof (round_half_even_near (x * pow10 n)) as H.
    set (r := inject_Z (round_half_even (x * pow10 n))) in *.
    apply Qle_shift_div_l; [ exact Hp | ].
    setoid_replace (Qabs (r / pow10 n - x) * pow10 n) with (Qabs (r - x * pow10 n));
      [ exact H | ].
    assert (Hpp : Qabs (pow10 n) == pow10 n) by (apply Qabs_pos; now apply Qlt_le_weak).
    transitivity (Qabs ((r / pow10 n - x) * pow10 n)).
    + rewrite Qabs_Qmult, Hpp. reflexivity.
    + apply Qabs_wd. field. exact Hnz.
  - unfold py_round at 1.
    rewrite round_half_even_int with (k := round_half_even (x * pow10 n)).
    + reflexivity.
    + unfold py_round. field. exact Hnz.
Qed.

(* ================================================================== *)
(** ** Stage timers: when the normalisation raises *)
(* ================================================================== *)

Lemma Qeq_bool_inject_zero (n : nat) :
  Qeq_bool (inject_Z (Z.of_nat n)) 0 = true <-> n = 0%nat.
Proof.
  split.
  - intros H. apply Qeq_bool_eq in H. unfold Qeq in H. simpl in H. lia.
  - intros ->. reflexivity.
Qed.

(** X7: the timer normalisation raises [ZeroDivisionError] exactly when the
    dataset has no image or, in multi-task mode, no task is configured; in
    every other case it returns the four timings. *)
Theorem speed_zero_division (multi : bool) (speed : dict Q) (dt : Profiles)
        (n_dataset : nat) (labels_list : list string) :
  (finalize_speed multi speed dt n_dataset labels_list = Raise ZeroDivisionError
   <-> (n_dataset = 0%nat \/ (multi = true /\ labels_list = [])))
  /\ (is_ok (finalize_speed multi speed dt n_dataset labels_list) = true
      <-> ~ (n_dataset = 0%nat \/ (multi = true /\ labels_list = []))).
Proof.
  destruct dt as [[[d0 d1] d2] d3].
  unfold finalize_speed, speed_multi, speed_single, normalize_multi, normalize_single,
    py_div, len_Q. simpl.
  destruct (Qeq_bool (inject_Z (Z.of_nat n_dataset)) 0) eqn:En.
  - apply Qeq_bool_inject_zero in En. subst n_dataset.
    destruct multi; simpl; intuition (try discriminate; try congruence).
  - assert (Hn : n_dataset <> 0%nat).
    { intros Hz. apply Qeq_bool_inject_zero in Hz. congruence. }
    destruct multi; simpl.
    + destruct (Qeq_bool (inject_Z (Z.of_nat (List.length labels_list))) 0) eqn:Ek.
      * apply Qeq_bool_inject_zero in Ek. apply length_zero_iff_nil in Ek. subst.
        simpl. intuition (try discriminate; try congruence).
      * assert (Hl : labels_list <> []).
        { intros ->. discriminate. }
        simpl. intuition (try discriminate; try congruence).
    + intuition (try discriminate; try congruence).
Qed.

(* ================================================================== *)
(** ** The segmentation result structures *)
(* ================================================================== *)

Lemma seg_metrics_items_keys (nc_list : list Z) : forall (todo : list (nat * string))
                                                         (items : list (string * SegmentationMetric)),
  seg_metrics_items nc_list todo = Ok items ->
  map fst items = map snd (filter (fun cn => is_seg (snd cn)) todo).
Proof.
  induction todo as [| [i name] todo IH]; intros items H; simpl in H.
  - now injection H as <-.
  - simpl. destruct (is_seg name).
    + apply bind_ok in H as (nc & _ & H). apply bind_ok in H as (rest & Hrest & H).
      injection H as <-. simpl. now rewrite (IH _ Hrest).
    + now apply IH.
Qed.

Lemma seg_names_In (labels_list : list string) (name : string) :
  In name (map snd (filter (fun cn : nat * string => is_seg (snd cn))
                           (enumerate labels_list))) <->
  In name labels_list /\ is_seg name = true.
Proof.
  rewrite in_map_iff. split.
  - intros [[i n] [Heq Hin]]. simpl in Heq. subst n.
    apply filter_In in Hin as [Hin Hseg].
    apply enumerate_from_In in Hin as [_ Hn].
    split; [ eapply nth_error_In; exact Hn | exact Hseg ].
  - intros [Hin Hseg]. apply In_nth_error in Hin as [i Hn].
    exists (i, name). split; [ reflexivity | ]. apply filter_In.
    split; [ | exact Hseg ]. apply enumerate_from_In.
    rewrite Nat.sub_0_r. split; [ lia | exact Hn ].
Qed.

Lemma dict_dom_keys {V} (items : list (string * V)) (k : string) :
  (exists v, In (k, v) items) <-> In k (map fst items).
Proof.
  rewrite in_map_iff. split.
  - intros [v H]. now exists (k, v).
  - intros [[k' v] [Heq H]]. simpl in Heq. subst k'. now exists v.
Qed.

(** X8: the running-mean structures are created for exactly the task names
    that contain 'seg', each with four fresh meters under
    pixacc, subacc, IoU, mIoU in this order, and no other name has one; when
    the metric structures are created too, the two dictionaries have the same
    task names. *)
Theorem seg_result_built (nc_list : list Z) (labels_list : list string) (name : string) :
  (In name labels_list /\ is_seg name = true ->
   dict_get (init_seg_result labels_list) name =
   Some [("pixacc", AverageMeter_new); ("subacc", AverageMeter_new);
         ("IoU", AverageMeter_new); ("mIoU", AverageMeter_new)])
  /\ (~ (In name labels_list /\ is_seg name = true) ->
      dict_get (init_seg_result labels_list) name = None)
  /\ (forall m, init_seg_metrics nc_list labels_list = Ok m ->
        (dict_get m name = None <-> dict_get (init_seg_result labels_list) name = None)).
Proof.
  assert (Hdom : (exists e, dict_get (init_seg_result labels_list) name = Some e) <->
                 (In name labels_list /\ is_seg name = true)).
  { unfold init_seg_result. rewrite dict_of_items_dom, dict_dom_keys, map_map. simpl.
    apply seg_names_In. }
  split; [ | split ].
  - intros [Hin Hseg]. now apply init_seg_result_entry.
  - intros Hnot. destruct (dict_get (init_seg_result labels_list) name) as [e |] eqn:E;
      [ | reflexivity ].
    exfalso. apply Hnot, Hdom. now exists e.
  - intros m Hm. unfold init_seg_metrics in Hm.
    apply bind_ok in Hm as (items & Hitems & Hm). injection Hm as <-.
    apply seg_metrics_items_keys in Hitems.
    assert (Hm : (exists sm, dict_get (dict_of_items items) name = Some sm) <->
                 (In name labels_list /\ is_seg name = true)).
    { rewrite dict_of_items_dom, dict_dom_keys, Hitems. apply seg_names_In. }
    split; intros Hnone.
    + destruct (dict_get (init_seg_result labels_list) name) as [e |] eqn:E;
        [ | reflexivity ].
      assert (Hex : exists sm, dict_get (dict_of_items items) name = Some sm)
        by (apply Hm, Hdom; now exists e).
      destruct Hex as [sm Hsm]. congruence.
    + destruct (dict_get (dict_of_items items) name) as [sm |] eqn:E; [ | reflexivity ].
      assert (Hex : exists e, dict_get (init_seg_result labels_list) name = Some e)
        by (apply Hdom, Hm; now exists sm).
      destruct Hex as [e He]. congruence.
Qed.

(** X8 on a two-task configuration, at the segmentation task. *)
Lemma seg_result_built_witness :
  dict_get (init_seg_result ["det"; "seg"]) "seg" =
  Some [("pixacc", AverageMeter_new); ("subacc", AverageMeter_new);
        ("IoU", AverageMeter_new); ("mIoU", AverageMeter_new)]
  /\ dict_get (init_seg_result ["det"; "seg"]) "det" = None
  /\ (dict_get [("seg", {| numClass := 3 |})] "seg" = None <->
      dict_get (init_seg_result ["det"; "seg"]) "seg" = None).
Proof.
  destruct (seg_result_built [3%Z; 2%Z] ["det"; "seg"] "seg") as (H1 & _ & H3).
  destruct (seg_result_built [3%Z; 2%Z] ["det"; "seg"] "det") as (_ & H2 & _).
  split; [ apply H1; split; [ simpl; auto | reflexivity ] | ].
  split; [ apply H2; intros [_ Hseg]; discriminate Hseg | ].
  apply (H3 [("seg", {| numClass := 3 |})]). reflexivity.
Defined.

(* ================================================================== *)
(** ** Standalone mode with the default [eval_json] *)
(* ================================================================== *)

(** X9: the default [eval_json] returns [None], and its result replaces the
    statistics once the predictions file is written; so with the default hook
    a standalone run returns [None] exactly when JSON export is enabled and
    at least one record was accumulated, and the statistics otherwise. *)
Theorem default_eval_json_drops_stats {S : Type} (args : ValArgs)
        (jdict : list JsonRecord) (save_dir : string) (stats : S) (fs : FileLog) :
  let returned :=
    snd (finalize_standalone BaseValidator_eval_json args jdict save_dir (Some stats) fs) in
  (returned = Ok None <-> (save_json args = true /\ jdict <> []))
  /\ (returned = Ok (Some stats) <-> ~ (save_json args = true /\ jdict <> [])).
Proof.
  unfold finalize_standalone, BaseValidator_eval_json.
  destruct (save_json args); destruct jdict as [| r jdict]; simpl;
    intuition (try discriminate; try congruence).
Qed.

(* ================================================================== *)
(** ** Single-task nested mode: the merge *)
(* ================================================================== *)

Section MergeFacts.

Variable V : Type.
Implicit Types (d a b : dict V) (k : string) (v : V).

Lemma dict_get_NoDup_In d k v :
  NoDup (dict_keys d) -> In (k, v) d -> dict_get d k = Some v.
Proof.
  induction d as [| [k' v'] d IH]; simpl; intros Hnd Hin; [ destruct Hin | ].
  inversion Hnd as [| ? ? Hnotin Hnd']; subst.
  destruct Hin as [Heq | Hin].
  - injection Heq as -> ->. now rewrite String.eqb_refl.
  - destruct (String.eqb_spec k' k) as [-> | Hne].
    + exfalso. apply Hnotin. apply in_map_iff. now exists (k, v).
    + now apply IH.
Qed.

Lemma dict_get_rev d k : NoDup (dict_keys d) -> dict_get (rev d) k = dict_get d k.
Proof.
  intros Hnd.
  assert (Hnd' : NoDup (dict_keys (rev d))).
  { unfold dict_keys. rewrite map_rev. now apply NoDup_rev. }
  destruct (dict_get d k) as [v |] eqn:E.
  - apply dict_get_NoDup_In; [ exact Hnd' | ]. apply in_rev. rewrite rev_involutive.
    now apply dict_get_In.
  - apply dict_get_None. intros v Hin. apply in_rev in Hin.
    rewrite dict_get_None in E. exact (E v Hin).
Qed.

Lemma dict_get_merge a b k :
  NoDup (dict_keys a) -> NoDup (dict_keys b) ->
  dict_get (dict_merge a b) k =
  match dict_get b k with
  | Some v => Some v
  | None => dict_get a k
  end.
Proof.
  intros Ha Hb. unfold dict_merge. rewrite !dict_get_fold_set.
  rewrite !dict_get_rev by assumption. simpl.
  destruct (dict_get b k); [ reflexivity | ]. destruct (dict_get a k); reflexivity.
Qed.

Lemma dict_set_keys d k v :
  dict_keys (dict_set d k v) = dict_keys d
  \/ (~ In k (dict_keys d) /\ dict_keys (dict_set d k v) = dict_keys d ++ [k]).
Proof.
  induction d as [| [k' v'] d IH]; simpl.
  - right. split; [ tauto | reflexivity ].
  - destruct (String.eqb_spec k' k) as [-> | Hne]; simpl.
    + now left.
    + destruct IH as [-> | [Hnotin ->]]; [ now left | right ].
      split; [ intros [H | H]; [ now apply Hne | now apply Hnotin ] | reflexivity ].
Qed.

Lemma dict_set_NoDup d k v : NoDup (dict_keys d) -> NoDup (dict_keys (dict_set d k v)).
Proof.
  intros Hnd. destruct (dict_set_keys d k v) as [-> | [Hnotin ->]]; [ exact Hnd | ].
  apply NoDup_app; [ exact Hnd | repeat constructor; tauto | ].
  intros x Hx [<- | []]. exact (Hnotin Hx).
Qed.

Lemma fold_set_NoDup_keys (items : list (string * V)) : forall d,
  NoDup (dict_keys d) ->
  NoDup (dict_keys (fold_left (fun d kv => dict_set d (fst kv) (snd kv)) items d)).
Proof.
  induction items as [| kv items IH]; intros d Hnd; simpl; [ exact Hnd | ].
  apply IH. now apply dict_set_NoDup.
Qed.

(** A dictionary display never repeats a key. *)
Lemma dict_merge_NoDup a b : NoDup (dict_keys (dict_merge a b)).
Proof.
  unfold dict_merge. apply fold_set_NoDup_keys, fold_set_NoDup_keys. constructor.
Qed.

End MergeFacts.

Lemma round_each_get : forall (results : dict value) (items : dict Q),
  map_result (fun kv : string * value =>
                x <- py_float (snd kv) ;; Ok (fst kv, py_round x 5)) results = Ok items ->
  dict_keys items = dict_keys results
  /\ (forall k, dict_get items k =
                match dict_get results k with
                | Some v => rounded_value v
                | None => None
                end).
Proof.
  induction results as [| [k0 v0] results IH]; intros items H; simpl in H.
  - injection H as <-. split; reflexivity.
  - apply bind_ok in H as ([k1 q] & Hkq & H). apply bind_ok in H as (rest & Hrest & H).
    injection H as <-. apply bind_ok in Hkq as (x & Hx & Hkq). simpl in Hkq.
    injection Hkq as <- <-. destruct v0 as [x0 |]; [ | discriminate ].
    simpl in Hx. injection Hx as <-.
    destruct (IH _ Hrest) as [Hkeys Hget]. split.
    + unfold dict_keys in *. simpl. now rewrite Hkeys.
    + intros k. simpl. destruct (String.eqb k0 k); [ reflexivity | apply Hget ].
Qed.

Lemma round_items_get (results : dict value) (d : dict Q) :
  NoDup (dict_keys results) ->
  round_items results = Ok d ->
  forall k, dict_get d k =
            match dict_get results k with
            | Some v => rounded_value v
            | None => None
            end.
Proof.
  intros Hnd H. unfold round_items in H. apply bind_ok in H as (items & Hitems & H).
  injection H as <-. destruct (round_each_get _ Hitems) as [Hkeys Hget].
  rewrite dict_of_items_NoDup by (now rewrite Hkeys). exact Hget.
Qed.

(** All the errors of the rounding comprehension are [TypeError]s. *)
Lemma round_items_raises (results : dict value) (k : string) :
  In (k, VOther) results -> round_items results = Raise TypeError.
Proof.
  unfold round_items. intros Hin.
  assert (H : map_result (fun kv : string * value =>
                            x <- py_float (snd kv) ;; Ok (fst kv, py_round x 5)) results
              = Raise TypeError).
  { induction results as [| [k0 v0] results IH]; [ destruct Hin | ].
    simpl. destruct v0 as [x0 |]; simpl; [ | reflexivity ].
    destruct Hin as [Heq | Hin]; [ discriminate | ]. now rewrite (IH Hin). }
  now rewrite H.
Qed.

Section SingleTraining.

Variable LossT : Type.
Variable tensor_div : LossT -> nat -> LossT.
Variable label_loss_items : LossT -> string -> result (dict value).

(** X10: in single-task nested mode the returned mapping is the statistics
    overlaid with the loss items: under a key of the loss items it holds that
    loss item, under any other key of the statistics the statistic, each
    passed through [round(float(v), 5)], and it has no further key. *)
Theorem single_training_merge (stats : pyobj) (loss : LossT) (n_batches : nat)
        (sd items : dict value) (d : dict Q) :
  stats = Mapping sd ->
  NoDup (dict_keys sd) ->
  label_loss_items (tensor_div loss n_batches) "val" = Ok items ->
  NoDup (dict_keys items) ->
  finalize_single_training tensor_div label_loss_items stats loss n_batches = Ok d ->
  forall k,
    dict_get d k =
    match dict_get items k with
    | Some v => rounded_value v
    | None => match dict_get sd k with
              | Some v => rounded_value v
              | None => None
              end
    end.
Proof.
  intros -> Hsd Hitems Hnd H k. unfold finalize_single_training in H. simpl in H.
  rewrite Hitems in H. simpl in H.
  erewrite round_items_get; [ | apply dict_merge_NoDup | exact H ].
  rewrite dict_get_merge by assumption. destruct (dict_get items k); reflexivity.
Qed.

(** X11: single-task nested mode has no fallback. Statistics that are not a
    mapping raise [TypeError]; an error of the trainer's [label_loss_items]
    is passed on; and when [float] rejects a value among the statistics or
    the loss items, the call raises and returns no mapping. *)
Theorem single_training_errors (loss : LossT) (n_batches : nat) :
  finalize_single_training tensor_div label_loss_items NotMapping loss n_batches
  = Raise TypeError
  /\ (forall sd e,
        label_loss_items (tensor_div loss n_batches) "val" = Raise e ->
        finalize_single_training tensor_div label_loss_items (Mapping sd) loss n_batches
        = Raise e)
  /\ (forall sd items k,
        label_loss_items (tensor_div loss n_batches) "val" = Ok items ->
        In (k, VOther) (dict_merge sd items) ->
        is_ok (finalize_single_training tensor_div label_loss_items (Mapping sd)
                                        loss n_batches) = false).
Proof.
  unfold finalize_single_training. split; [ reflexivity | split ].
  - intros sd e He. simpl. now rewrite He.
  - intros sd items k Hitems Hin. simpl. rewrite Hitems. simpl.
    erewrite round_items_raises; [ reflexivity | exact Hin ].
Qed.

End SingleTraining.

(** X10 on statistics and loss items that share the key 'fitness': the loss
    item wins. *)
Lemma single_training_merge_witness :
  dict_get [("fitness", py_round (3 # 4) 5); ("mAP", py_round (1 # 3) 5);
            ("val/loss", py_round (2 / 4) 5)] "fitness"
  = rounded_value (VFloat (3 # 4)).
Proof.
  apply (@single_training_merge Q Sample.tensor_div
           (fun l _ => Ok [("fitness", VFloat (3 # 4)); ("val/loss", VFloat l)])
           (Mapping [("fitness", VFloat (1 # 2)); ("mAP", VFloat (1 # 3))]) 2 4%nat
           [("fitness", VFloat (1 # 2)); ("mAP", VFloat (1 # 3))]
           [("fitness", VFloat (3 # 4)); ("val/loss", VFloat (2 / 4))]
           [("fitness", py_round (3 # 4) 5); ("mAP", py_round (1 # 3) 5);
            ("val/loss", py_round (2 / 4) 5)]).
  - reflexivity.
  - repeat constructor; simpl; intuition discriminate.
  - reflexivity.
  - repeat constructor; simpl; intuition discriminate.
  - reflexivity.
Defined.

(** X11 on statistics with a value that is not a number. *)
Lemma single_training_errors_witness :
  is_ok (finalize_single_training Sample.tensor_div
                                  (fun l _ => Ok [("val/loss", VFloat l)])
                                  (Mapping [("fitness", VOther)]) 2 4)
  = false.
Proof.
  destruct (@single_training_errors Q Sample.tensor_div
              (fun l _ => Ok [("val/loss", VFloat l)]) 2 4%nat) as (_ & _ & H).
  apply (H [("fitness", VOther)] [("val/loss", VFloat (2 / 4))] "fitness").
  - reflexivity.
  - simpl. now left.
Defined.

(* ================================================================== *)
(** ** The running loss *)
(* ================================================================== *)

Lemma list_set_length {A} (l : list A) : forall i x,
  List.length (list_set l i x) = List.length l.
Proof.
  induction l as [| a l IH]; intros [| i] x; simpl; auto.
Qed.

Lemma list_set_nth_same {A} (l : list A) : forall i x old,
  nth_error l i = Some old -> nth_error (list_set l i x) i = Some x.
Proof.
  induction l as [| a l IH]; intros [| i] x old H; simpl in *; try discriminate; eauto.
Qed.

Lemma list_set_nth_other {A} (l : list A) : forall i j x,
  i <> j -> nth_error (list_set l i x) j = nth_error l j.
Proof.
  induction l as [| a l IH]; intros [| i] [| j] x H; simpl; auto; try congruence.
Qed.

Section LossFacts.

Variable LossT : Type.
Variable tensor_add : LossT -> LossT -> LossT.
Variables Raw Batch : Type.
Variable criterion : Raw -> Batch -> string -> nat -> result LossT.

Lemma loss_loop_spec (labels_list : list string) (batch : list Batch) :
  forall (preds_list : list Raw) (k : nat) (loss loss' : list LossT),
    loss_loop tensor_add criterion labels_list batch loss (enumerate_from k preds_list)
    = Ok loss' ->
    (forall i, (i < k)%nat \/ (k + List.length preds_list <= i)%nat ->
               nth_error loss' i = nth_error loss i)
    /\ (forall j r, nth_error preds_list j = Some r ->
          exists old b name items,
            nth_error loss (k + j) = Some old
            /\ nth_error batch (k + j) = Some b
            /\ nth_error labels_list (k + j) = Some name
            /\ criterion r b name (k + j) = Ok items
            /\ nth_error loss' (k + j) = Some (tensor_add old items)).
Proof.
  induction preds_list as [| r0 rs IH]; intros k loss loss' H; simpl in H.
  - injection H as <-. split; [ reflexivity | intros j r Hj; destruct j; discriminate ].
  - apply bind_ok in H as (loss1 & Hstep & H).
    unfold loss_step in Hstep.
    apply bind_ok in Hstep as (old & Hold & Hstep).
    apply bind_ok in Hstep as (b & Hb & Hstep).
    apply bind_ok in Hstep as (name & Hname & Hstep).
    apply bind_ok in Hstep as (items & Hitems & Hstep). injection Hstep as <-.
    apply getitem_ok in Hold, Hb, Hname.
    destruct (IH (S k) _ _ H) as [Hout Hin]. split.
    + intros i Hi. rewrite Hout by (simpl in Hi; lia).
      apply list_set_nth_other. simpl in Hi. lia.
    + intros [| j] r Hr; simpl in Hr.
      * injection Hr as <-. rewrite Nat.add_0_r.
        exists old, b, name, items. repeat split; try assumption.
        rewrite Hout by lia. eapply list_set_nth_same. exact Hold.
      * destruct (Hin j r Hr) as (old' & b' & name' & items' & Ho & Hb' & Hn' & Hc & Hl).
        replace (k + S j)%nat with (S k + j)%nat by lia.
        exists old', b', name', items'. repeat split; try assumption.
        rewrite list_set_nth_other in Ho by lia. exact Ho.
Qed.

(** X12: the loss is accumulated only when the validator is nested in
    training: in standalone mode the Loss blocks leave it as it is and never
    raise. In training, after any number of batches, the entry of a task for
    which the model gives an output in every batch is its initial value to
    which the task's loss items of the successive batches have been added, in
    batch order; each item is what the criterion returns for that task's raw
    output, batch, name and index. *)
Theorem loss_accumulated (labels_list : list string) (i : nat) :
  forall (batches : list (list Raw * list Batch)) (loss loss' : list LossT) (old : LossT),
    loss_over_batches tensor_add criterion false labels_list loss batches = Ok loss
    /\ (loss_over_batches tensor_add criterion true labels_list loss batches = Ok loss' ->
        nth_error loss i = Some old ->
        Forall (fun pb => (i < List.length (fst pb))%nat) batches ->
        exists items_per_batch,
          Forall2 (contributes criterion labels_list i) batches items_per_batch
          /\ nth_error loss' i = Some (fold_left tensor_add items_per_batch old)).
Proof.
  induction batches as [| [preds_list batch] batches IH]; intros loss loss' old.
  - split; [ reflexivity | ]. simpl. intros H Hold _. injection H as <-.
    exists []. split; [ constructor | exact Hold ].
  - split.
    + simpl. apply (IH loss loss' old).
    + simpl. intros H Hold Hall.
      apply bind_ok in H as (loss1 & Hblock & H).
      inversion Hall as [| ? ? Hi Hall']; subst. simpl in Hi.
      destruct (nth_error preds_list i) as [r |] eqn:Er;
        [ | apply nth_error_None in Er; lia ].
      unfold loss_block, enumerate in Hblock.
      destruct (loss_loop_spec _ _ _ _ _ Hblock) as [_ Hin].
      destruct (Hin i r Er) as (old' & b & name & items & Ho & Hb & Hn & Hc & Hl).
      simpl in *. rewrite Hold in Ho. injection Ho as <-.
      destruct (IH loss1 loss' (tensor_add old items)) as [_ IH'].
      destruct (IH' H Hl Hall') as (rest & Hrest & Hfinal).
      exists (items :: rest). split; [ | exact Hfinal ].
      constructor; [ | exact Hrest ].
      exists r, b, name. auto.
Qed.

End LossFacts.

(** X12 on two batches of one task whose loss item is the raw output. *)
Lemma loss_accumulated_witness :
  loss_over_batches Qplus (fun (r : Q) (_ : unit) _ _ => Ok r) false ["det"] [0]
                    [([1 # 2], [tt]); ([1 # 4], [tt])] = Ok [0]
  /\ exists items_per_batch,
      Forall2 (contributes (fun (r : Q) (_ : unit) _ _ => Ok r) ["det"] 0)
              [([1 # 2], [tt]); ([1 # 4], [tt])] items_per_batch
      /\ nth_error [0 + (1 # 2) + (1 # 4)] 0 = Some (fold_left Qplus items_per_batch 0).
Proof.
  destruct (@loss_accumulated Q Qplus Q unit (fun r _ _ _ => Ok r) ["det"] 0%nat
              [([1 # 2], [tt]); ([1 # 4], [tt])] [0] [0 + (1 # 2) + (1 # 4)] 0)
    as [Hoff Hon].
  split; [ exact Hoff | ].
  apply Hon; [ reflexivity | reflexivity | repeat constructor ].
Defined.

(* ================================================================== *)
(** ** Plotting *)
(* ================================================================== *)

Section PlotFacts.

Variables Pred Batch V : Type.
Variable plot_val_samples : Batch -> nat -> string -> V -> result V.
Variable plot_predictions : Batch -> Pred -> nat -> string -> V -> result V.

Lemma plots_loop_app (plots : bool) (labels_list : list string) :
  forall (l1 l2 : list (nat * (list Batch * list Pred))) (v : V),
    plots_loop plot_val_samples plot_predictions plots labels_list v (l1 ++ l2) =
    (v' <- plots_loop plot_val_samples plot_predictions plots labels_list v l1 ;;
     plots_loop plot_val_samples plot_predictions plots labels_list v' l2).
Proof.
  induction l1 as [| [batch_i [batch post]] l1 IH]; intros l2 v; simpl; [ reflexivity | ].
  destruct (plot_block _ _ _ _ _ _ _ _) as [v' | e]; simpl; [ apply IH | reflexivity ].
Qed.

Lemma plots_loop_skipped (plots : bool) (labels_list : list string) :
  forall (todo : list (nat * (list Batch * list Pred))) (v : V),
    plots = false \/ Forall (fun ib => (3 <= fst ib)%nat) todo ->
    plots_loop plot_val_samples plot_predictions plots labels_list v todo = Ok v.
Proof.
  induction todo as [| [batch_i [batch post]] todo IH]; intros v H; simpl; [ reflexivity | ].
  assert (Hoff : plots && (batch_i <? 3)%nat = false).
  { destruct H as [-> | H]; [ reflexivity | ].
    inversion H; subst. simpl in *.
    apply andb_false_iff. right. apply Nat.ltb_ge. assumption. }
  unfold plot_block. rewrite Hoff. simpl. apply IH.
  destruct H as [H | H]; [ now left | right; now inversion H ].
Qed.

Lemma enumerate_from_ge {A} (l : list A) : forall k,
  Forall (fun ib : nat * A => (k <= fst ib)%nat) (enumerate_from k l).
Proof.
  induction l as [| a l IH]; intros k; simpl; constructor; [ simpl; lia | ].
  eapply Forall_impl; [ | apply IH ]. simpl. intros ib Hib. lia.
Qed.

(** X13: over a whole run the plotting hooks see the first three batches
    only: whatever follows the third batch is neither plotted nor able to
    raise from plotting; and with plotting disabled no batch is plotted. *)
Theorem plots_first_three (plots : bool) (labels_list : list string) (v : V)
        (batches : list (list Batch * list Pred)) :
  plots_over_batches plot_val_samples plot_predictions plots labels_list v batches =
  plots_over_batches plot_val_samples plot_predictions plots labels_list v
                     (firstn 3 batches)
  /\ plots_over_batches plot_val_samples plot_predictions false labels_list v batches
     = Ok v.
Proof.
  split.
  - unfold plots_over_batches, enumerate.
    pose proof (firstn_skipn 3 batches) as Hsplit.
    assert (Hback : skipn 3 batches = [] \/ List.length (firstn 3 batches) = 3%nat).
    { destruct (skipn 3 batches) as [| b rest] eqn:E; [ now left | right ].
      rewrite length_firstn. apply Nat.min_l.
      assert (Hs : List.length (skipn 3 batches) = S (List.length rest))
        by (now rewrite E).
      rewrite length_skipn in Hs. lia. }
    remember (firstn 3 batches) as front eqn:Hfront.
    remember (skipn 3 batches) as back eqn:Hbackdef.
    rewrite <- Hsplit at 1.
    rewrite enumerate_from_app, plots_loop_app.
    destruct (plots_loop plot_val_samples plot_predictions plots labels_list v
                         (enumerate_from 0 front)) as [v' | e];
      [ | reflexivity ].
    unfold bind. apply plots_loop_skipped. right.
    destruct Hback as [-> | ->]; [ constructor | apply enumerate_from_ge ].
  - apply plots_loop_skipped. now left.
Qed.

End PlotFacts.

(* ================================================================== *)
(** ** Callbacks *)
(* ================================================================== *)

Section CallbackFacts.

Variable V : Type.

Lemma run_each_app (l1 l2 : list (Callback V)) : forall v : V,
  run_each (l1 ++ l2) v = (v' <- run_each l1 v ;; run_each l2 v').
Proof.
  induction l1 as [| c l1 IH]; intros v; simpl; [ reflexivity | ].
  destruct (c v) as [v' | e]; simpl; [ apply IH | reflexivity ].
Qed.

(** X14: running the callbacks of an event nobody registered for does
    nothing. Appending a callback to an event that has a list makes a later
    run of that event run the callbacks registered before, in order, and then
    the new one on what they left; the callbacks of every other event are
    untouched. *)
Theorem callbacks_in_order (callbacks : dict (list (Callback V))) (event : string)
        (v : V) :
  (dict_get callbacks event = None -> run_callbacks callbacks event v = Ok v)
  /\ (forall l callback,
        dict_get callbacks event = Some l ->
        exists callbacks',
          add_callback callbacks event callback = Ok callbacks'
          /\ run_callbacks callbacks' event v =
             (v' <- run_callbacks callbacks event v ;; callback v')
          /\ (forall other, other <> event ->
                run_callbacks callbacks' other v = run_callbacks callbacks other v)).
Proof.
  split.
  - intros H. unfold run_callbacks. now rewrite H.
  - intros l callback H. unfold add_callback, dict_getitem. rewrite H. simpl.
    eexists. split; [ reflexivity | ]. unfold run_callbacks. split.
    + rewrite dict_get_set, String.eqb_refl, H, run_each_app.
      destruct (run_each l v) as [v' | e]; simpl; [ | reflexivity ].
      destruct (callback v'); reflexivity.
    + intros other Hne. rewrite dict_get_set.
      destruct (String.eqb_spec event other) as [-> | _]; [ now elim Hne | reflexivity ].
Qed.

End CallbackFacts.

(** X14 with counters as state: the event has one callback that adds 1, the
    new one doubles. *)
Lemma callbacks_in_order_witness :
  exists callbacks',
    add_callback [("on_val_start", [fun n : Z => Ok (n + 1)%Z])] "on_val_start"
                 (fun n : Z => Ok (2 * n)%Z) = Ok callbacks'
    /\ run_callbacks callbacks' "on_val_start" 5%Z =
       (v' <- run_callbacks [("on_val_start", [fun n : Z => Ok (n + 1)%Z])]
                            "on_val_start" 5%Z ;;
        Ok (2 * v')%Z)
    /\ (forall other, other <> "on_val_start" ->
          run_callbacks callbacks' other 5%Z =
          run_callbacks [("on_val_start", [fun n : Z => Ok (n + 1)%Z])] other 5%Z).
Proof.
  destruct (@callbacks_in_order Z [("on_val_start", [fun n : Z => Ok (n + 1)%Z])]
              "on_val_start" 5%Z) as [_ H].
  apply (H [fun n : Z => Ok (n + 1)%Z] (fun n : Z => Ok (2 * n)%Z)). reflexivity.
Defined.

(* ================================================================== *)
(** ** The dataset *)
(* ================================================================== *)

Lemma str_endswith_unfold (suffix s : string) :
  str_endswith suffix s =
  if String.eqb s suffix then true
  else match s with
       | EmptyString => false
       | String _ rest => str_endswith suffix rest
       end.
Proof.
  destruct s; reflexivity.
Qed.

Lemma str_endswith_spec (suffix : string) : forall s : string,
  str_endswith suffix s = true <-> exists pre, s = (pre ++ suffix)%string.
Proof.
  induction s as [| c s IH]; rewrite str_endswith_unfold.
  - destruct (String.eqb_spec "" suffix) as [<- | Hne].
    + split; [ intros _; now exists "" | reflexivity ].
    + split; [ intros H; discriminate H | ]. intros [pre H].
      destruct pre; [ simpl in H; congruence | discriminate ].
  - destruct (String.eqb_spec (String c s) suffix) as [<- | Hne].
    + split; [ intros _; now exists "" | reflexivity ].
    + rewrite IH. split.
      * intros [pre ->]. now exists (String c pre).
      * intros [pre H]. destruct pre as [| c' pre].
        -- simpl in H. congruence.
        -- simpl in H. injection H as _ ->. now exists pre.
Qed.

Section DatasetFacts.

Variable DataT : Type.
Variable check_det_dataset : string -> result DataT.
Variable check_cls_dataset : data_arg -> result DataT.

(** X15: a data argument that is a string ending in '.yaml' is always handed
    to the detection dataset check, also when the task is 'classify'; any
    other data argument goes to the classification check when the task is
    'classify'; and the lookup ends in the [FileNotFoundError] of line 149
    exactly when the task is not 'classify' and the data argument is not such
    a string. *)
Theorem dataset_resolution (data : data_arg) (task : string) :
  (forall stem,
     data = DataStr (stem ++ ".yaml") ->
     resolve_dataset check_det_dataset check_cls_dataset data task =
     of_check (check_det_dataset (stem ++ ".yaml")))
  /\ ((forall stem, data <> DataStr (stem ++ ".yaml")) ->
      task = "classify" ->
      resolve_dataset check_det_dataset check_cls_dataset data task =
      of_check (check_cls_dataset data))
  /\ (resolve_dataset check_det_dataset check_cls_dataset data task = DatasetNotFound
      <-> (task <> "classify" /\ forall stem, data <> DataStr (stem ++ ".yaml"))).
Proof.
  assert (Hcheck : forall r : result DataT, of_check r <> DatasetNotFound)
    by (intros [d | e]; discriminate).
  split; [ | split ].
  - intros stem ->. simpl.
    assert (H : str_endswith ".yaml" (stem ++ ".yaml") = true)
      by (apply str_endswith_spec; now exists stem).
    now rewrite H.
  - intros Hnot ->. destruct data as [s |]; simpl; [ | reflexivity ].
    destruct (str_endswith ".yaml" s) eqn:E; [ | reflexivity ].
    apply str_endswith_spec in E as [stem ->]. now elim (Hnot stem).
  - destruct data as [s |]; simpl.
    + destruct (str_endswith ".yaml" s) eqn:E.
      * apply str_endswith_spec in E as [stem ->]. split.
        -- intros H. now apply Hcheck in H.
        -- intros [_ H]. now elim (H stem).
      * assert (Hs : forall stem, DataStr s <> DataStr (stem ++ ".yaml")).
        { intros stem H. injection H as ->.
          assert (str_endswith ".yaml" (stem ++ ".yaml") = true)
            by (apply str_endswith_spec; now exists stem).
          congruence. }
        destruct (String.eqb_spec task "classify") as [-> | Hne].
        -- split; [ intros H; now apply Hcheck in H | intros [H _]; now elim H ].
        -- split; [ auto | reflexivity ].
    + destruct (String.eqb_spec task "classify") as [-> | Hne].
      * split; [ intros H; now apply Hcheck in H | intros [H _]; now elim H ].
      * split; [ intros _; split; [ exact Hne | discriminate ] | reflexivity ].
Qed.

End DatasetFacts.

(** X15 on a classification run given a dataset file and one given a folder. *)
Lemma dataset_resolution_witness :
  resolve_dataset (fun s => Ok s) (fun _ => Ok "folder") (DataStr "coco128.yaml") "classify"
  = of_check (Ok "coco128.yaml")
  /\ resolve_dataset (fun s => Ok s) (fun _ => Ok "folder") (DataStr "imagenette") "classify"
     = of_check (Ok "folder").
Proof.
  split.
  - destruct (@dataset_resolution string (fun s => Ok s) (fun _ => Ok "folder")
                (DataStr "coco128.yaml") "classify") as (H & _ & _).
    apply (H "coco128"). reflexivity.
  - destruct (@dataset_resolution string (fun s => Ok s) (fun _ => Ok "folder")
                (DataStr "imagenette") "classify") as (_ & H & _).
    apply H; [ | reflexivity ].
    intros stem Heq. injection Heq as Heq.
    assert (E : str_endswith ".yaml" "imagenette" = true)
      by (apply str_endswith_spec; now exists stem).
    discriminate E.
Defined.

(* ================================================================== *)
(** ** The JSON records *)
(* ================================================================== *)

Lemma getitem_Z_in_range {A} (l : list A) (i : Z) :
  index_in_range (List.length l) i -> exists a, getitem_Z l i = Ok a.
Proof.
  unfold index_in_range, getitem_Z, getitem. intros [Hlo Hhi].
  destruct (0 <=? i)%Z eqn:E.
  - apply Z.leb_le in E.
    destruct (nth_error l (Z.to_nat i)) as [a |] eqn:En; [ now exists a | ].
    apply nth_error_None in En. lia.
  - apply Z.leb_gt in E.
    destruct (Z.of_nat (List.length l) + i <? 0)%Z eqn:E'; [ apply Z.ltb_lt in E'; lia | ].
    apply Z.ltb_ge in E'.
    destruct (nth_error l (Z.to_nat (Z.of_nat (List.length l) + i))) as [a |] eqn:En;
      [ now exists a | ].
    apply nth_error_None in En. lia.
Qed.

Lemma getitem_Z_out_of_range {A} (l : list A) (i : Z) :
  ~ index_in_range (List.length l) i -> getitem_Z l i = Raise IndexError.
Proof.
  unfold index_in_range, getitem_Z, getitem. intros Hout.
  destruct (0 <=? i)%Z eqn:E.
  - apply Z.leb_le in E.
    destruct (nth_error l (Z.to_nat i)) as [a |] eqn:En; [ | reflexivity ].
    assert (Z.to_nat i < List.length l)%nat by (apply nth_error_Some; congruence). lia.
  - apply Z.leb_gt in E.
    destruct (Z.of_nat (List.length l) + i <? 0)%Z eqn:E'; [ reflexivity | ].
    apply Z.ltb_ge in E'. lia.
Qed.

Section PredToJsonMore.

Variable path_stem : string -> string.
Variable isnumeric : string -> bool.
Variable int_of_str : string -> Z.
Variable xyxy2xywh : Box -> Box.

Lemma json_record_shape (class_map : list Z) (iid : image_id_t) (p : DetRow)
      (r : JsonRecord) :
  json_record xyxy2xywh class_map iid p = Ok r ->
  image_id r = iid
  /\ getitem_Z class_map (row_cls p) = Ok (category_id r)
  /\ List.length (bbox r) = 4%nat
  /\ Forall (rounded_to 3) (bbox r)
  /\ score r = py_round (row_conf p) 5.
Proof.
  unfold json_record. intros H. apply bind_ok in H as (cat & Hcat & H).
  injection H as <-. simpl. repeat split; try assumption.
  - destruct (center_to_topleft _) as [[[a b] c] d]. reflexivity.
  - apply Forall_map, Forall_forall. intros x _. apply py_round_rounded.
Qed.

Lemma pred_to_json_loop_spec (class_map : list Z) (iid : image_id_t) :
  forall (rows : list DetRow) (jdict jdict' : list JsonRecord) (r : result unit),
    pred_to_json_loop xyxy2xywh class_map iid jdict rows = (jdict', r) ->
    exists added,
      jdict' = jdict ++ added
      /\ Forall2 (fun p rec => json_record xyxy2xywh class_map iid p = Ok rec)
                 (firstn (List.length added) rows) added
      /\ (r = Ok tt -> List.length added = List.length rows)
      /\ (forall e, r = Raise e ->
            exists bad, nth_error rows (List.length added) = Some bad
                        /\ json_record xyxy2xywh class_map iid bad = Raise e).
Proof.
  induction rows as [| p rows IH]; intros jdict jdict' r H; simpl in H.
  - injection H as <- <-. exists []. rewrite app_nil_r.
    repeat split; [ constructor | discriminate ].
  - destruct (json_record xyxy2xywh class_map iid p) as [rec | e] eqn:E.
    + apply IH in H as (added & -> & Hrecs & Hok & Hbad).
      exists (rec :: added). rewrite <- app_assoc. simpl.
      repeat split; [ now constructor | intros Hr; now rewrite (Hok Hr) | exact Hbad ].
    + injection H as <- <-. exists []. rewrite app_nil_r. simpl.
      repeat split; [ constructor | discriminate | ].
      intros e' He'. injection He' as <-. now exists p.
Qed.

(** X16: [pred_to_json] only appends to the export list: the records that
    were there stay, in order, and one record is added for each row of the
    prediction, in row order, up to the first row (if any) whose record
    cannot be built. Every added record carries the image id taken from the
    file name, as category the class-map entry of the row's class, a box of
    four numbers with 3 decimal places and the row's confidence rounded to 5
    decimal places. *)
Theorem pred_to_json_appends (class_map : list Z) (jdict jdict' : list JsonRecord)
        (predn : list DetRow) (filename : string) (r : result unit) :
  pred_to_json path_stem isnumeric int_of_str xyxy2xywh class_map jdict predn filename
  = (jdict', r) ->
  let stem := path_stem filename in
  let iid := if isnumeric stem then IdInt (int_of_str stem) else IdStr stem in
  exists added,
    jdict' = jdict ++ added
    /\ (List.length added <= List.length predn)%nat
    /\ (r = Ok tt -> List.length added = List.length predn)
    /\ Forall2 (fun p rec =>
                  image_id rec = iid
                  /\ getitem_Z class_map (row_cls p) = Ok (category_id rec)
                  /\ List.length (bbox rec) = 4%nat
                  /\ Forall (rounded_to 3) (bbox rec)
                  /\ score rec = py_round (row_conf p) 5)
               (firstn (List.length added) predn) added.
Proof.
  intros H stem iid. unfold pred_to_json in H. fold stem in H. fold iid in H.
  apply pred_to_json_loop_spec in H as (added & -> & Hrecs & Hok & _).
  exists added. split; [ reflexivity | ]. split; [ | split; [ exact Hok | ] ].
  - apply Forall2_length in Hrecs. rewrite length_firstn in Hrecs. lia.
  - eapply Forall2_impl; [ | exact Hrecs ]. intros p rec. apply json_record_shape.
Qed.

(** X17: once the image id has been obtained, the loop over the rows of the
    prediction succeeds when the class of every row is a valid index, from
    the front or (negative) from the back, into the class map; at the first
    row whose class is not, it raises [IndexError], and the records of the
    rows before it have already been appended and stay in the list. *)
Theorem pred_to_json_class_index (class_map : list Z) (iid : image_id_t)
        (jdict : list JsonRecord) :
  (forall predn,
     Forall (fun p => index_in_range (List.length class_map) (row_cls p)) predn ->
     exists added,
       pred_to_json_loop xyxy2xywh class_map iid jdict predn = (jdict ++ added, Ok tt)
       /\ List.length added = List.length predn)
  /\ (forall good bad rest,
        Forall (fun p => index_in_range (List.length class_map) (row_cls p)) good ->
        ~ index_in_range (List.length class_map) (row_cls bad) ->
        exists added,
          pred_to_json_loop xyxy2xywh class_map iid jdict (good ++ bad :: rest)
          = (jdict ++ added, Raise IndexError)
          /\ List.length added = List.length good).
Proof.
  assert (Hgood : forall good tail jd,
            Forall (fun p => index_in_range (List.length class_map) (row_cls p)) good ->
            exists added,
              pred_to_json_loop xyxy2xywh class_map iid jd (good ++ tail) =
              pred_to_json_loop xyxy2xywh class_map iid (jd ++ added) tail
              /\ List.length added = List.length good).
  { induction good as [| p good IH]; intros tail jd Hall.
    - exists []. now rewrite app_nil_r.
    - inversion Hall as [| ? ? Hp Hall']; subst. simpl.
      destruct (getitem_Z_in_range class_map Hp) as [cat Hcat].
      unfold json_record at 1. rewrite Hcat. simpl.
      destruct (IH tail (jd ++ [{| image_id := iid; category_id := cat;
                                   bbox := map (fun x => py_round x 3)
                                               (box_tolist (center_to_topleft
                                                              (xyxy2xywh (row_box p))));
                                   score := py_round (row_conf p) 5 |}]) Hall')
        as (added & Hrun & Hlen).
      eexists (_ :: added). rewrite Hrun, <- app_assoc. simpl.
      split; [ reflexivity | now rewrite Hlen ]. }
  split.
  - intros predn Hall. destruct (Hgood predn [] jdict Hall) as (added & Hrun & Hlen).
    exists added. rewrite app_nil_r in Hrun. rewrite Hrun. simpl. auto.
  - intros good bad rest Hall Hbad.
    destruct (Hgood good (bad :: rest) jdict Hall) as (added & Hrun & Hlen).
    exists added. rewrite Hrun. simpl. unfold json_record.
    rewrite (getitem_Z_out_of_range class_map Hbad). simpl. auto.
Qed.

End PredToJsonMore.

(** X16 on one detection of image 000139. *)
Lemma pred_to_json_appends_witness :
  exists added,
    [{| image_id := IdInt 139; category_id := 1;
        bbox := [py_round 0 3; py_round 80 3; py_round 640 3; py_round 480 3];
        score := py_round (9 # 10) 5 |}] = [] ++ added
    /\ (List.length added <= List.length [SampleDet.row0])%nat
    /\ (Ok tt = Ok tt -> List.length added = List.length [SampleDet.row0])
    /\ Forall2 (fun p rec =>
                  image_id rec = IdInt 139
                  /\ getitem_Z [1%Z; 2%Z] (row_cls p) = Ok (category_id rec)
                  /\ List.length (bbox rec) = 4%nat
                  /\ Forall (rounded_to 3) (bbox rec)
                  /\ score rec = py_round (row_conf p) 5)
               (firstn (List.length added) [SampleDet.row0]) added.
Proof.
  apply (@pred_to_json_appends Ops.path_stem Ops.isnumeric Ops.int_of_str Ops.xyxy2xywh
           [1%Z; 2%Z] [] _ [SampleDet.row0] "images/000139.jpg" (Ok tt)).
  vm_compute. reflexivity.
Defined.

(** X17 on a class map of two entries and a row of class 5, for the image
    'bus'. *)
Lemma pred_to_json_class_index_witness :
  exists added,
    pred_to_json_loop Ops.xyxy2xywh [1%Z; 2%Z] (IdStr "bus") []
                      ([SampleDet.row0]
                         ++ {| row_box := (0, 0, 1, 1); row_conf := 1 # 2; row_cls := 5 |}
                         :: [SampleDet.row1])
    = ([] ++ added, Raise IndexError)
    /\ List.length added = List.length [SampleDet.row0].
Proof.
  destruct (@pred_to_json_class_index Ops.xyxy2xywh [1%Z; 2%Z] (IdStr "bus") [])
    as [_ H].
  apply H.
  - repeat constructor; unfold index_in_range; simpl; lia.
  - unfold index_in_range. simpl. lia.
Defined.


(* ================================================================== *)
(** ** More on detection post-processing *)
(* ================================================================== *)

Lemma Forall2_nth {A B} (R : A -> B -> Prop) : forall (l1 : list A) (l2 : list B) i a b,
  Forall2 R l1 l2 -> nth_error l1 i = Some a -> nth_error l2 i = Some b -> R a b.
Proof.
  induction l1 as [| x l1 IH]; intros l2 i a b H Ha Hb.
  - destruct i; discriminate.
  - inversion H as [| ? y ? l2' Hxy Hrest]; subst. destruct i as [| i]; simpl in *.
    + injection Ha as <-. injection Hb as <-. exact Hxy.
    + eapply IH; eassumption.
Qed.

Lemma set_boxes_keeps (f : Box -> Box) (pred : list DetRow) :
  List.length (set_boxes f pred) = List.length pred
  /\ map row_conf (set_boxes f pred) = map row_conf pred
  /\ map row_cls (set_boxes f pred) = map row_cls pred.
Proof.
  unfold set_boxes. rewrite length_map, !map_map. simpl. auto.
Qed.

Section PostprocessDetMore.

Variables RawDet Img Names : Type.
Variable shape_of : Img -> list nat.
Variable non_max_suppression :
  RawDet -> Q -> Q -> bool -> Z -> option (list Z) -> list (list DetRow).
Variable scale_boxes : list nat -> Box -> list nat -> Box.

(** X19: detection post-processing neither drops, adds, reorders nor
    relabels what suppression retained: there is one result per image, and
    the rows of the i-th result are as many as the retained rows of the i-th
    image, with the same confidences and classes in the same order; only the
    boxes may differ. *)
Theorem postprocess_det_keeps_rows (args : PredictArgs) (batch0 : Paths) (names : Names)
        (preds : RawDet) (img_shape : list nat) (orig_imgs : OrigImgs Img)
        (results : list (Results Img Names)) :
  let retained := non_max_suppression preds (conf args) (iou args) (agnostic_nms args)
                                      (max_det args) (classes args) in
  postprocess_det shape_of non_max_suppression scale_boxes
                  args batch0 names preds img_shape orig_imgs = Ok results ->
  List.length results = List.length retained
  /\ (forall i pred r,
        nth_error retained i = Some pred ->
        nth_error results i = Some r ->
        List.length (res_boxes r) = List.length pred
        /\ map row_conf (res_boxes r) = map row_conf pred
        /\ map row_cls (res_boxes r) = map row_cls pred).
Proof.
  intros retained H. unfold postprocess_det in H. fold retained in H.
  apply postprocess_det_loop_spec in H as (rs & -> & Hrs). simpl. split.
  - apply Forall2_length in Hrs. rewrite <- Hrs. unfold enumerate.
    now rewrite enumerate_from_length.
  - intros i pred r Hpred Hr.
    pose proof (Forall2_nth _ Hrs (enumerate_from_nth _ 0 _ Hpred) Hr)
      as (_ & _ & _ & Hboxes).
    simpl in Hboxes. rewrite Hboxes.
    destruct (isinstance_Tensor orig_imgs); [ auto | apply set_boxes_keeps ].
Qed.

(** X20: the loop over the retained images does not stop at a shorter list:
    when the original images are given as a list with fewer entries than
    suppression returned images, or the paths are given as a list with fewer
    entries, detection post-processing returns no results, not even those of
    the images that have an entry; it fails (the subscript at the first
    missing index raises). *)
Theorem postprocess_det_short_list_fails (args : PredictArgs) (batch0 : Paths)
        (names : Names) (preds : RawDet) (img_shape : list nat)
        (orig_imgs : OrigImgs Img) :
  let retained := non_max_suppression preds (conf args) (iou args) (agnostic_nms args)
                                      (max_det args) (classes args) in
  (exists l, orig_imgs = ImgList l /\ (List.length l < List.length retained)%nat)
  \/ (exists l, batch0 = PathList l /\ (List.length l < List.length retained)%nat) ->
  is_ok (postprocess_det shape_of non_max_suppression scale_boxes
                         args batch0 names preds img_shape orig_imgs) = false.
Proof.
  intros retained Hshort.
  destruct (postprocess_det shape_of non_max_suppression scale_boxes
                            args batch0 names preds img_shape orig_imgs)
    as [results | e] eqn:Erun; [ exfalso | reflexivity ].
  unfold postprocess_det in Erun. fold retained in Erun.
  apply postprocess_det_loop_spec in Erun as (rs & _ & Hrs).
  assert (Hlen : List.length rs = List.length retained).
  { apply Forall2_length in Hrs. rewrite <- Hrs. unfold enumerate.
    now rewrite enumerate_from_length. }
  destruct Hshort as [(l & -> & Hl) | (l & -> & Hl)].
  - destruct (nth_error retained (List.length l)) as [pred |] eqn:Ep;
      [ | apply nth_error_None in Ep; lia ].
    destruct (nth_error rs (List.length l)) as [r |] eqn:Er;
      [ | apply nth_error_None in Er; lia ].
    pose proof (Forall2_nth _ Hrs (enumerate_from_nth _ 0 _ Ep) Er) as (Himg & _).
    simpl in Himg.
    assert (List.length l < List.length l)%nat by (apply nth_error_Some; congruence).
    lia.
  - destruct (nth_error retained (List.length l)) as [pred |] eqn:Ep;
      [ | apply nth_error_None in Ep; lia ].
    destruct (nth_error rs (List.length l)) as [r |] eqn:Er;
      [ | apply nth_error_None in Er; lia ].
    pose proof (Forall2_nth _ Hrs (enumerate_from_nth _ 0 _ Ep) Er) as (_ & Hpath & _).
    simpl in Hpath.
    assert (List.length l < List.length l)%nat by (apply nth_error_Some; congruence).
    lia.
Qed.

End PostprocessDetMore.

(** X19 on the sample batch. *)
Lemma postprocess_det_keeps_rows_witness :
  let retained := Ops.non_max_suppression SampleDet.raw (1 # 4) (7 # 10) false 300 None in
  let results :=
    [{| res_orig_img := [480; 640; 3]%nat; res_path := "bus.jpg"; res_names := tt;
        res_boxes := set_boxes (fun b => Ops.scale_boxes [640; 640]%nat b [480; 640; 3]%nat)
                               [SampleDet.row0] |}] in
  List.length results = List.length retained
  /\ (forall i pred r,
        nth_error retained i = Some pred ->
        nth_error results i = Some r ->
        List.length (res_boxes r) = List.length pred
        /\ map row_conf (res_boxes r) = map row_conf pred
        /\ map row_cls (res_boxes r) = map row_cls pred).
Proof.
  apply (@postprocess_det_keeps_rows (list (list DetRow)) (list nat) unit
           SampleDet.shape_of Ops.non_max_suppression Ops.scale_boxes SampleDet.args
           (PathList ["bus.jpg"]) tt SampleDet.raw SampleDet.img_shape SampleDet.as_list).
  reflexivity.
Defined.

(* ================================================================== *)
(** ** More on segmentation post-processing *)
(* ================================================================== *)

Section PostprocessSegMore.

Variable interpolate : Tensor4 Q -> nat * nat -> interp_mode -> bool -> Tensor4 Q.
Variable sigmoid : Q -> Q.

(** X21: the target size of the whole batch is read from the first original
    image alone, and from its first two dimensions alone: the other original
    images and any further dimension (the channels) do not influence the
    result. With no original image the call raises [IndexError]; with a first
    image of fewer than two dimensions it raises [ValueError]. *)
Theorem postprocess_seg_target_size (preds : Tensor4 Q) :
  (forall h w dims dims' others others',
     postprocess_seg interpolate sigmoid ((h :: w :: dims) :: others) preds =
     postprocess_seg interpolate sigmoid ((h :: w :: dims') :: others') preds)
  /\ postprocess_seg interpolate sigmoid [] preds = Raise IndexError
  /\ (forall shape others,
        (List.length shape < 2)%nat ->
        postprocess_seg interpolate sigmoid (shape :: others) preds = Raise ValueError).
Proof.
  split; [ reflexivity | split; [ reflexivity | ] ].
  intros shape others Hlen. unfold postprocess_seg. simpl.
  destruct shape as [| h [| w dims]]; simpl in *; [ reflexivity | reflexivity | lia ].
Qed.

End PostprocessSegMore.

(** X21 on the sample batch: a second original image of another size changes
    nothing, and a first image without a width is rejected. *)
Lemma postprocess_seg_target_size_witness :
  postprocess_seg Ops.interpolate Ops.sigmoid [[4; 4; 3]%nat] SampleSeg.preds =
  postprocess_seg Ops.interpolate Ops.sigmoid [[4; 4]%nat; [8; 6; 3]%nat] SampleSeg.preds
  /\ postprocess_seg Ops.interpolate Ops.sigmoid [[4]%nat] SampleSeg.preds
     = Raise ValueError.
Proof.
  destruct (@postprocess_seg_target_size Ops.interpolate Ops.sigmoid SampleSeg.preds)
    as (H1 & _ & H3).
  split; [ apply H1 | apply H3; simpl; lia ].
Defined.

(** X20 on the sample batch with an empty list of paths. *)
Lemma postprocess_det_short_list_fails_witness :
  is_ok (postprocess_det SampleDet.shape_of Ops.non_max_suppression Ops.scale_boxes
                         SampleDet.args (PathList []) tt SampleDet.raw
                         SampleDet.img_shape SampleDet.as_list)
  = false.
Proof.
  apply (@postprocess_det_short_list_fails (list (list DetRow)) (list nat) unit
           SampleDet.shape_of Ops.non_max_suppression Ops.scale_boxes SampleDet.args
           (PathList []) tt SampleDet.raw SampleDet.img_shape SampleDet.as_list).
  right. exists []. split; [ reflexivity | ].
  vm_compute. apply le_n.
Defined.
